(** * flex_attention: the Triton lowering of the flex-attention operator

    A shallow embedding of [torch/_inductor/kernel/flex_attention.py]:

    - the score-modification inliner ([index_to_other_buffers],
      [build_subgraph_buffer]), as an interpreter over the fx node list with
      the Python exceptions made explicit;
    - the launch planner ([flex_attention_grid],
      [flex_attention_backward_grid]) and the phase dispatch of the backward
      template;
    - the tiling policy and the two lowerings ([flex_attention],
      [flex_attention_backward]) as builders of the candidate list;
    - the forward Triton template as a function on blocks, reading its
      operands from flat storage through their strides, over [tl.float32]
      values whose rounding is abstracted away (the IEEE special values are
      kept);
    - the backward Triton template, with its two branches, in the same
      style. *)

From Stdlib Require Import ZArith List String DecimalString Bool Lia Reals Lra
  FunctionalExtensionality.
From stdpp Require Import base gmap strings.
Import ListNotations.

Set Warnings "-register-all".

Open Scope string_scope.
Open Scope Z_scope.

(** ** Python results *)

Inductive exn :=
| IndexError
| KeyError
| TypeError
| AttributeError
| AssertionError
| ValueError (msg : string)
| LoweringError
| CompileTimeAssertionFailure.

Inductive result (A : Type) :=
| Ok (a : A)
| Raise (e : exn).
Arguments Ok {A} a.
Arguments Raise {A} e.

#[global] Instance result_bind : MBind result := fun A B k r =>
  match r with
  | Ok a => k a
  | Raise e => Raise e
  end.

(** [seq[i]] on a Python tuple or list: a negative index counts from the
    end, an index out of range raises [IndexError]. *)
Definition py_getitem {A : Type} (l : list A) (i : Z) : result A :=
  let n := Z.of_nat (List.length l) in
  let j := if i <? 0 then i + n else i in
  if (0 <=? j) && (j <? n)
  then match nth_error l (Z.to_nat j) with
       | Some a => Ok a
       | None => Raise IndexError
       end
  else Raise IndexError.

(** ** The fx graph of a score modification *)

(** An argument of an fx node as [tree_map] sees it: a reference to a node,
    a constant leaf, or a container. *)
Inductive fx_arg :=
| ArgNode (name : string)
| ArgInt (z : Z)
| ArgNone
| ArgTuple (items : list fx_arg).

(** [node.op]; [other_op] stands for the kinds the loop has no branch for
    ([get_attr], [call_method], [call_module]). *)
Inductive node_op := placeholder | call_function | output | other_op.

(** An fx node.  The source keys [env] by the node object; fx keeps node
    names unique within a graph, so here the name stands for the node. *)
Record Node := mkNode {
  node_name : string;
  node_op_ : node_op;
  node_target : string;
  node_args : list fx_arg;
  node_kwargs : list (string * fx_arg)
}.

Definition node_op_eqb (a b : node_op) : bool :=
  match a, b with
  | placeholder, placeholder | call_function, call_function
  | output, output | other_op, other_op => true
  | _, _ => false
  end.

(** ** Inductor IR values and the other Python objects of the argument list *)

Inductive dtype := float32 | bfloat16 | float16 | int32.

Definition dtype_eqb (a b : dtype) : bool :=
  match a, b with
  | float32, float32 | bfloat16, bfloat16
  | float16, float16 | int32, int32 => true
  | _, _ => false
  end.

(** What the argument list and [env] hold: IR nodes ([TensorBox],
    [StorageBox], a [Buffer] with its layout, a [Loops] node such as the
    [Pointwise] or [Reduction] a lowering returns), constants, an fx node
    that [tree_map] left in place, and the [Subgraph] with the node list of
    its [graph_module.graph]. *)
Inductive obj :=
| TensorBox (data : obj)
| StorageBox (data : obj)
| Buffer (name device : string) (dtype : dtype) (size : list Z)
| Loops (fn : string) (operands : list obj) (device : string) (dtype : dtype)
    (size : list Z)
| PyInt (z : Z)
| PyNone
| PyTuple (items : list obj)
| PyNode (name : string)
| PySubgraph (nodes : list Node).

Record FlexibleLayout := mkFlexibleLayout {
  layout_device : string;
  layout_dtype : dtype;
  layout_size : list Z
}.

Record ComputedBuffer := mkComputedBuffer {
  cb_name : option string;
  cb_layout : FlexibleLayout;
  cb_data : obj
}.

Inductive SubgraphType := FWD | JOINT_FWD | JOINT_BWD.

Definition index_to_other_buffers (cnt : Z) (graph_type : SubgraphType) : Z :=
  match graph_type with
  | FWD => cnt - 1
  | JOINT_FWD => cnt + 3
  | JOINT_BWD => cnt + 2
  end.

(** [get_device()], [get_dtype()], [get_size()] of an IR node: the boxes
    forward them to what they hold. *)
Fixpoint get_layout (v : obj) : result FlexibleLayout :=
  match v with
  | TensorBox data => get_layout data
  | StorageBox data => get_layout data
  | Buffer _ device dtype size => Ok (mkFlexibleLayout device dtype size)
  | Loops _ _ device dtype size => Ok (mkFlexibleLayout device dtype size)
  | _ => Raise AttributeError
  end.

(** [create_placeholder]: an [InputBuffer] of layout
    [FixedLayout(device, dtype, [1], [1])] behind [TensorBox.create]. *)
Definition create_placeholder (name : string) (dtype : dtype)
    (device : string) : obj :=
  TensorBox (StorageBox (Buffer name device dtype [1])).

(** ** build_subgraph_buffer *)

Section Inliner.

(** The table of default lowerings: [lowerings target args kwargs] is the
    call of [lowerings[target]] on the unpacked [args] and [kwargs]. *)
Variable lowerings :
  string -> list obj -> list (string * obj) -> result obj.

(** The three locals the loop threads: [cnt], [env] and [args].  [args]
    is a local too: the [call_function] branch assigns to it. *)
Record state := mkState {
  cnt : Z;
  env : gmap string obj;
  cur_args : list obj
}.

(** [tree_map(lambda x: env[x] if x in env else x, ...)] on one leaf or
    container. *)
Fixpoint map_arg (e : gmap string obj) (a : fx_arg) : obj :=
  match a with
  | ArgNode n => match e !! n with Some v => v | None => PyNode n end
  | ArgInt z => PyInt z
  | ArgNone => PyNone
  | ArgTuple items => PyTuple (List.map (map_arg e) items)
  end.

Definition map_kwargs (e : gmap string obj)
    (kw : list (string * fx_arg)) : list (string * obj) :=
  List.map (fun p => (fst p, map_arg e (snd p))) kw.

(** [env[output_node]]: only a node that was bound is a key. *)
Definition env_getitem (e : gmap string obj) (a : fx_arg) : result obj :=
  match a with
  | ArgNode n => match e !! n with Some v => Ok v | None => Raise KeyError end
  | _ => Raise KeyError
  end.

(** [x[0]] on an fx argument. *)
Definition arg_getitem0 (a : fx_arg) : result fx_arg :=
  match a with
  | ArgTuple items => py_getitem items 0
  | _ => Raise TypeError
  end.


(** The body of the [output] branch once [output_buffer] is known: the
    two assertions, then the [ComputedBuffer]. *)
Definition make_subgraph_buffer (output_buffer : obj) : result ComputedBuffer :=
  match output_buffer with
  | TensorBox data =>
      match data with
      | StorageBox inner =>
          layout ← get_layout data;
          Ok (mkComputedBuffer None layout inner)
      | _ => Raise AssertionError
      end
  | _ => Raise AssertionError
  end.

Definition select_output_node (graph_type : SubgraphType) (node : Node)
    : result fx_arg :=
  match graph_type with
  | FWD | JOINT_FWD => py_getitem (node_args node) 0
  | JOINT_BWD => a0 ← py_getitem (node_args node) 0; arg_getitem0 a0
  end.

Inductive step_result :=
| Next (st : state)
| Finish (r : result ComputedBuffer).

Definition step (placeholder_inps : list obj) (graph_type : SubgraphType)
    (node : Node) (st : state) : step_result :=
  match node_op_ node with
  | placeholder =>
      let is_lifted_input := Z.of_nat (List.length placeholder_inps) <=? cnt st in
      let lifted_input_index := index_to_other_buffers (cnt st) graph_type in
      match (if is_lifted_input
             then py_getitem (cur_args st) lifted_input_index
             else py_getitem placeholder_inps (cnt st)) with
      | Ok v => Next (mkState (cnt st + 1) (<[node_name node := v]> (env st)) (cur_args st))
      | Raise e => Finish (Raise e)
      end
  | call_function =>
      let args := List.map (map_arg (env st)) (node_args node) in
      let kwargs := map_kwargs (env st) (node_kwargs node) in
      match lowerings (node_target node) args kwargs with
      | Ok v => Next (mkState (cnt st) (<[node_name node := v]> (env st)) args)
      | Raise e => Finish (Raise e)
      end
  | output =>
      Finish (output_node ← select_output_node graph_type node;
              output_buffer ← env_getitem (env st) output_node;
              make_subgraph_buffer output_buffer)
  | other_op => Next st
  end.

Fixpoint run_nodes (placeholder_inps : list obj) (graph_type : SubgraphType)
    (nodes : list Node) (st : state) : step_result :=
  match nodes with
  | [] => Next st
  | node :: rest =>
      match step placeholder_inps graph_type node st with
      | Next st' => run_nodes placeholder_inps graph_type rest st'
      | Finish r => Finish r
      end
  end.

Definition init_state (args : list obj) : state := mkState 0 ∅ args.

Definition no_output_msg : string :=
  "TemplatedAttention was passed a subgraph with no output node!".

Definition build_subgraph_buffer (args : list obj)
    (placeholder_inps : list obj) (subgraph : list Node)
    (graph_type : SubgraphType) : result ComputedBuffer :=
  match run_nodes placeholder_inps graph_type subgraph (init_state args) with
  | Next _ => Raise (ValueError no_output_msg)
  | Finish r => r
  end.

End Inliner.

(** ** Vocabulary for statements about node lists *)

Definition is_op (o : node_op) (n : Node) : bool := node_op_eqb (node_op_ n) o.

Definition count_placeholders (nodes : list Node) : Z :=
  Z.of_nat (List.length (List.filter (is_op placeholder) nodes)).

Definition no_call_function (nodes : list Node) : bool :=
  forallb (fun n => negb (is_op call_function n)) nodes.

Definition no_output (nodes : list Node) : bool :=
  forallb (fun n => negb (is_op output n)) nodes.

(** The offset of each graph role. *)
Definition role_offset (graph_type : SubgraphType) : Z :=
  match graph_type with
  | FWD => -1
  | JOINT_FWD => 3
  | JOINT_BWD => 2
  end.

(** ** A small concrete world for examples *)

Definition demo_tensor (name : string) (size : list Z) : obj :=
  TensorBox (StorageBox (Buffer name "cuda" float32 size)).

(** A lowering table that builds a [Loops] node over its operands, with the
    layout of the first one; [aten.sum] drops the last axis. *)
Definition demo_lowerings (target : string) (args : list obj)
    (kwargs : list (string * obj)) : result obj :=
  match args with
  | a :: _ =>
      l ← get_layout a;
      let size :=
        if String.eqb target "aten.sum"
        then removelast (layout_size l) else layout_size l in
      Ok (TensorBox (StorageBox
            (Loops target args (layout_device l) (layout_dtype l) size)))
  | [] => Raise LoweringError
  end.

Definition fwd_sentinels : list obj :=
  [ create_placeholder "score" float32 "cuda";
    create_placeholder "b" int32 "cuda";
    create_placeholder "h" int32 "cuda";
    create_placeholder "m" int32 "cuda";
    create_placeholder "n" int32 "cuda" ].

Definition ph (name : string) : Node := mkNode name placeholder name [] [].

Definition fwd_placeholders : list Node :=
  [ph "score"; ph "b"; ph "h"; ph "m"; ph "n"].

Definition demo_fwd_args : list obj :=
  [ demo_tensor "query" [1; 1; 4; 2];
    demo_tensor "key" [1; 1; 4; 2];
    demo_tensor "value" [1; 1; 4; 2];
    PySubgraph [];
    demo_tensor "bias0" [4];
    demo_tensor "bias1" [4] ].

(** A call that takes the five sentinels, followed by a lifted placeholder. *)
Definition mix_call : Node :=
  mkNode "mix" call_function "aten.mix"
    [ArgNode "score"; ArgNode "b"; ArgNode "h"; ArgNode "m"; ArgNode "n"] [].


(** The locals after a run of [nodes] that reaches the end of the list. *)
Definition state_after lowerings (placeholder_inps : list obj)
    (graph_type : SubgraphType) (nodes : list Node) (args : list obj) : state :=
  match run_nodes lowerings placeholder_inps graph_type nodes (init_state args) with
  | Next st => st
  | Finish _ => init_state args
  end.

(** ** Launch planner *)

(** [triton.cdiv(x, y)] is [(x + y - 1) // y]. *)
Definition cdiv (x y : Z) : Z := (x + y - 1) / y.

(** The constexpr keyword arguments of the forward template. *)
Record fwd_meta := mkFwdMeta {
  BLOCK_M : Z;
  BLOCK_N : Z;
  BLOCK_DMODEL : Z;
  SCORE_MOD_IS_LINEAR : bool;
  ROWS_GUARANTEED_SAFE : bool;
  OUTPUT_LOGSUMEXP : bool
}.

(** The constexpr keyword arguments of the backward template. *)
Record bwd_meta := mkBwdMeta {
  BLOCK_M1 : Z;
  BLOCK_N1 : Z;
  BLOCK_M2 : Z;
  BLOCK_N2 : Z;
  bwd_BLOCK_DMODEL : Z;
  bwd_SCORE_MOD_IS_LINEAR : bool
}.

Definition flex_attention_grid (batch_size num_heads num_queries d_model : Z)
    (meta : fwd_meta) : Z * Z * Z :=
  (cdiv num_queries (BLOCK_M meta), batch_size * num_heads, 1).

Definition flex_attention_backward_grid
    (batch_size num_heads num_queries d_model num_key_value : Z)
    (meta : bwd_meta) : Z * Z * Z :=
  (cdiv num_queries (BLOCK_M2 meta) + cdiv num_key_value (BLOCK_N1 meta),
   1,
   batch_size * num_heads).

(** *** The backward template: phase dispatch and static assertions *)

Inductive phase :=
| DQ_phase      (* "THIS BLOCK DOES DQ" *)
| DKDV_phase.   (* "THIS BLOCK DOES DK & DV" *)

Definition NUM_KV_BLOCKS (KV_LEN : Z) (meta : bwd_meta) : Z :=
  KV_LEN / BLOCK_N1 meta.

(** [if pid >= NUM_KV_BLOCKS: ... else: ...] *)
Definition backward_phase (KV_LEN : Z) (meta : bwd_meta) (pid : Z) : phase :=
  if NUM_KV_BLOCKS KV_LEN meta <=? pid then DQ_phase else DKDV_phase.

(** [off_pid = pid - NUM_KV_BLOCKS] and [start_m2 = off_pid * BLOCK_M2] of
    the DQ branch, [start_n1 = pid * BLOCK_N1] of the other. *)
Definition backward_tile_start (KV_LEN : Z) (meta : bwd_meta) (pid : Z) : Z :=
  match backward_phase KV_LEN meta pid with
  | DQ_phase => (pid - NUM_KV_BLOCKS KV_LEN meta) * BLOCK_M2 meta
  | DKDV_phase => pid * BLOCK_N1 meta
  end.

(** The two [tl.static_assert]s.  The branch on [pid] is a run-time branch,
    so the compiler visits both arms whenever it specialises the template
    on [meta]: the DQ arm first, then the DK/DV arm. *)
Definition backward_static_asserts (meta : bwd_meta) : result unit :=
  if BLOCK_M2 meta mod BLOCK_N2 meta =? 0
  then if BLOCK_N1 meta mod BLOCK_M1 meta =? 0
       then Ok tt
       else Raise CompileTimeAssertionFailure
  else Raise CompileTimeAssertionFailure.

(** What one program instance of the compiled backward kernel does first:
    none exists unless the template compiled. *)
Definition backward_program (KV_LEN : Z) (meta : bwd_meta) (pid : Z)
    : result (phase * Z) :=
  _ ← backward_static_asserts meta;
  Ok (backward_phase KV_LEN meta pid, backward_tile_start KV_LEN meta pid).

(** ** Tiling configuration policy *)

Definition config := (Z * Z * Z * Z)%type.

(** Python's [>=] on pairs. *)
Definition capability_ge (c : Z * Z) (major minor : Z) : bool :=
  (major <? fst c) || ((fst c =? major) && (minor <=? snd c)).

Definition _h100_default_config (d : dtype) (head_dim : Z) : option config :=
  match d with
  | float32 =>
      if head_dim =? 64 then Some (128, 32, 4, 3)
      else if head_dim =? 128 then Some (32, 64, 4, 3)
      else if head_dim =? 256 then Some (32, 32, 4, 3)
      else None
  | bfloat16 =>
      if head_dim =? 64 then Some (128, 64, 4, 3)
      else if head_dim =? 128 then Some (64, 32, 4, 3)
      else if head_dim =? 256 then Some (64, 32, 4, 3)
      else None
  | _ => None
  end.

Definition _a100_default_config (d : dtype) (head_dim : Z) : option config :=
  match d with
  | float32 =>
      if head_dim =? 64 then Some (128, 32, 4, 3)
      else if head_dim =? 128 then Some (128, 32, 4, 3)
      else if head_dim =? 256 then Some (64, 16, 4, 3)
      else None
  | bfloat16 =>
      if head_dim =? 64 then Some (128, 64, 4, 3)
      else if head_dim =? 128 then Some (128, 32, 4, 3)
      else if head_dim =? 256 then Some (32, 64, 4, 3)
      else None
  | _ => None
  end.

(** [table.get(key, default)] *)
Definition dict_get {A} (o : option A) (default : A) : A :=
  match o with Some a => a | None => default end.

Definition _get_default_config_fwd (capability : Z * Z) (d : dtype)
    (head_dim : Z) : config :=
  if (head_dim <=? 256) && capability_ge capability 9 0 then
    let default_config :=
      if dtype_eqb d float32 then (64, 64, 4, 3) else (128, 64, 4, 3) in
    dict_get (_h100_default_config d head_dim) default_config
  else if (head_dim <=? 256) && capability_ge capability 8 0 then
    let default_config :=
      if dtype_eqb d float32 then (64, 64, 4, 3) else (128, 64, 4, 3) in
    dict_get (_a100_default_config d head_dim) default_config
  else
    if dtype_eqb d float32 then (32, 16, 4, 3) else (64, 32, 4, 3).

Definition _get_default_config_bwd (capability : Z * Z) (d : dtype)
    (head_dim : Z) : config :=
  if (head_dim <=? 256) && capability_ge capability 9 0 then
    if dtype_eqb d float32 then (64, 64, 4, 1) else (128, 128, 4, 3)
  else if (head_dim <=? 256) && capability_ge capability 8 0 then
    (64, 64, 4, 1)
  else
    (16, 16, 4, 1).

Definition fwd_configs (max_autotune : bool) (capability : Z * Z) (d : dtype)
    (head_dim : Z) : list config :=
  [_get_default_config_fwd capability d head_dim] ++
  (if max_autotune
   then [ (128, 64, 4, 3); (128, 128, 4, 3); (128, 128, 8, 2);
          (64, 128, 4, 3); (64, 64, 4, 3) ]
   else []).

Definition bwd_configs (max_autotune : bool) (capability : Z * Z) (d : dtype)
    (head_dim : Z) : list config :=
  [_get_default_config_bwd capability d head_dim] ++
  (if max_autotune
   then BLOCK1 ← [32; 64]; BLOCK2 ← [32; 64]; w ← [4; 8]; s ← [1; 3];
        [(BLOCK1, BLOCK2, w, s)]
   else []).

(** ** The two lowerings *)

Record FixedLayout := mkFixedLayout {
  fixed_device : string;
  fixed_dtype : dtype;
  fixed_size : list Z;
  fixed_stride : list Z
}.

(** One call of [maybe_append_choice] on the forward template. *)
Record fwd_choice := mkFwdChoice {
  fwd_input_nodes : list obj;
  fwd_layout : FixedLayout;
  fwd_subgraphs : list ComputedBuffer;
  fwd_mutated_inputs : list obj;
  fwd_num_stages : Z;
  fwd_num_warps : Z;
  fwd_call_sizes : list Z;
  fwd_kwargs : fwd_meta
}.

(** One call of [maybe_append_choice] on the backward template. *)
Record bwd_choice := mkBwdChoice {
  bwd_input_nodes : list obj;
  bwd_layout : FixedLayout;
  bwd_subgraphs : list ComputedBuffer;
  bwd_mutated_inputs : list obj;
  bwd_call_sizes : list Z;
  bwd_num_stages : Z;
  bwd_num_warps : Z;
  bwd_kwargs : bwd_meta
}.

Inductive choice :=
| FwdChoice (c : fwd_choice)
| BwdChoice (c : bwd_choice).

(** The collaborators the lowerings call: the lowering table and the
    allocators of [..lowering], [FlexibleLayout.contiguous_strides],
    [config.max_autotune], [torch.cuda.get_device_capability()], whether
    [maybe_append_choice] appends the rendered template, and
    [autotune_select_algorithm]. *)
Record Host := mkHost {
  lowerings : string -> list obj -> list (string * obj) -> result obj;
  full : list Z -> Z -> dtype -> string -> obj;
  empty_strided : list Z -> dtype -> string -> obj;
  contiguous_strides : list Z -> list Z;
  max_autotune : bool;
  device_capability : Z * Z;
  template_generates : choice -> bool;
  autotune_select_algorithm :
    string -> list choice -> list obj -> FixedLayout -> obj
}.

Definition subgraph_nodes (v : obj) : result (list Node) :=
  match v with
  | PySubgraph nodes => Ok nodes
  | _ => Raise AttributeError
  end.

(** [str(n)] for a length. *)
Definition str_of_nat (n : nat) : string :=
  NilEmpty.string_of_uint (Nat.to_uint n).

(** What an unpacking with a starred target raises on a sequence of [got]
    items when [expected] names precede the star. *)
Definition unpack_error (expected got : nat) : exn :=
  ValueError
    (String.append "not enough values to unpack (expected at least "
       (String.append (str_of_nat expected)
          (String.append ", got "
             (String.append (str_of_nat got) ")")))).

Definition fwd_placeholder_inps (d : dtype) (device : string) : list obj :=
  [ create_placeholder "score" d device;
    create_placeholder "b" int32 device;
    create_placeholder "h" int32 device;
    create_placeholder "m" int32 device;
    create_placeholder "n" int32 device ].

(** [choices] after the loop over [configs]. *)
Definition maybe_append_choices (host : Host) (candidates : list choice)
    : list choice :=
  List.filter (template_generates host) candidates.

Definition fwd_candidate (query key value logsumexp : obj)
    (layout : FixedLayout) (subgraph_buffer : ComputedBuffer)
    (size : list Z) (head_dim : Z) (c : config) : choice :=
  let '(BLOCK_M, BLOCK_N, num_warps, num_stages) := c in
  FwdChoice
    (mkFwdChoice [query; key; value; logsumexp] layout [subgraph_buffer]
       [logsumexp] num_stages num_warps size
       (mkFwdMeta BLOCK_M BLOCK_N head_dim true true true)).

(** Everything [flex_attention] computes before it returns.  The calls of
    [realize()] only materialise IR nodes and are left out. *)
Record fwd_lowering := mkFwdLowering {
  fl_subgraph_buffer : ComputedBuffer;
  fl_layout : FixedLayout;
  fl_logsumexp : obj;
  fl_choices : list choice;
  fl_inputs_for_autotuning : list obj
}.

Definition flex_attention_body (host : Host) (args : list obj)
    : result fwd_lowering :=
  match args with
  | query :: key :: value :: subgraph :: other_buffers =>
      q ← get_layout query;
      nodes ← subgraph_nodes subgraph;
      let placeholder_inps :=
        fwd_placeholder_inps (layout_dtype q) (layout_device q) in
      subgraph_buffer ←
        build_subgraph_buffer (lowerings host) args placeholder_inps nodes FWD;
      let layout :=
        mkFixedLayout (layout_device q) (layout_dtype q) (layout_size q)
          (contiguous_strides host (layout_size q)) in
      let logsumexp :=
        empty_strided host (removelast (layout_size q)) float32
          (layout_device q) in
      head_dim ← py_getitem (layout_size q) (-1);
      let configs :=
        fwd_configs (max_autotune host) (device_capability host)
          (layout_dtype q) head_dim in
      let choices :=
        maybe_append_choices host
          (List.map (fwd_candidate query key value logsumexp layout
                       subgraph_buffer (layout_size q) head_dim) configs) in
      Ok (mkFwdLowering subgraph_buffer layout logsumexp choices
            ([query; key; value; logsumexp] ++ other_buffers)%list)
  | _ => Raise (unpack_error 4 (List.length args))
  end.

Definition flex_attention (host : Host) (args : list obj)
    : result (obj * obj) :=
  l ← flex_attention_body host args;
  Ok (autotune_select_algorithm host "flex_attention" (fl_choices l)
        (fl_inputs_for_autotuning l) (fl_layout l),
      fl_logsumexp l).

Definition bwd_candidate (input_nodes : list obj) (layout_k : FixedLayout)
    (fw_subgraph_buffer joint_subgraph_buffer : ComputedBuffer)
    (grad_query grad_value : obj) (call_sizes : list Z) (head_dim : Z)
    (c : config) : choice :=
  let '(BLOCK1, BLOCK2, num_warps, num_stages) := c in
  BwdChoice
    (mkBwdChoice input_nodes layout_k
       [fw_subgraph_buffer; joint_subgraph_buffer] [grad_query; grad_value]
       call_sizes num_stages num_warps
       (mkBwdMeta BLOCK1 BLOCK1 BLOCK2 BLOCK2 head_dim false)).

(** Everything [flex_attention_backward] computes before it returns. *)
Record bwd_lowering := mkBwdLowering {
  bl_fw_subgraph_buffer : ComputedBuffer;
  bl_joint_subgraph_buffer : ComputedBuffer;
  bl_layout_k : FixedLayout;
  bl_mul_delta : obj;
  bl_delta : obj;
  bl_grad_query : obj;
  bl_grad_value : obj;
  bl_choices : list choice;
  bl_inputs_for_autotuning : list obj
}.

Definition flex_attention_backward_body (host : Host) (args : list obj)
    : result bwd_lowering :=
  match args with
  | query :: key :: value :: out :: logsumexp :: grad_out :: fw_graph
      :: joint_graph :: other_buffers =>
      q ← get_layout query;
      let device := layout_device q in
      let dtype := layout_dtype q in
      let fwd_inps := fwd_placeholder_inps dtype device in
      fw_nodes ← subgraph_nodes fw_graph;
      fw_subgraph_buffer ←
        build_subgraph_buffer (lowerings host) args fwd_inps fw_nodes JOINT_FWD;
      let joint_placeholder_inps :=
        (fwd_inps ++ [create_placeholder "grad_score_mod" dtype device])%list in
      joint_nodes ← subgraph_nodes joint_graph;
      joint_subgraph_buffer ←
        build_subgraph_buffer (lowerings host) args joint_placeholder_inps
          joint_nodes JOINT_BWD;
      k ← get_layout key;
      let layout_k :=
        mkFixedLayout (layout_device k) (layout_dtype k) (layout_size k)
          (contiguous_strides host (layout_size k)) in
      mul_delta ← lowerings host "aten.mul" [out; grad_out] [];
      delta ← lowerings host "aten.sum" [mul_delta] [("axis", PyInt (-1))];
      let grad_query := full host (layout_size q) 0 dtype device in
      v ← get_layout value;
      let grad_value := empty_strided host (layout_size v) dtype device in
      head_dim ← py_getitem (layout_size q) (-1);
      let configs :=
        bwd_configs (max_autotune host) (device_capability host) dtype
          head_dim in
      kv_len ← py_getitem (layout_size k) 2;
      let input_nodes :=
        [query; key; value; out; logsumexp; delta; grad_out; grad_query;
         grad_value] in
      let choices :=
        maybe_append_choices host
          (List.map (bwd_candidate input_nodes layout_k fw_subgraph_buffer
                       joint_subgraph_buffer grad_query grad_value
                       (layout_size q ++ [kv_len])%list head_dim) configs) in
      Ok (mkBwdLowering fw_subgraph_buffer joint_subgraph_buffer layout_k
            mul_delta delta grad_query grad_value choices
            (input_nodes ++ other_buffers)%list)
  | _ => Raise (unpack_error 8 (List.length args))
  end.


(** ** [tl.float32]

    A float is one of the IEEE special values or a finite number.  Finite
    arithmetic is exact: rounding, overflow and the sign of zero are
    abstracted away, and so are the casts to [MATMUL_PRECISION].  What is
    kept is what the kernel's control flow and its special cases depend on:
    [-inf - -inf], [0 * inf] and [0 / 0] are NaN, [exp2(-inf)] is [0],
    [log2(0)] is [-inf]. *)

Inductive fp :=
| NaN
| NInf
| PInf
| Fin (r : R).

Definition Rsign (r : R) : comparison :=
  if Rlt_dec 0 r then Gt else if Rlt_dec r 0 then Lt else Eq.

Definition fsign (x : fp) : comparison :=
  match x with
  | NaN => Eq
  | NInf => Lt
  | PInf => Gt
  | Fin r => Rsign r
  end.

Definition sign_mul (a b : comparison) : comparison :=
  match a, b with
  | Eq, _ | _, Eq => Eq
  | Gt, Gt | Lt, Lt => Gt
  | _, _ => Lt
  end.

(** The infinity of a sign; [inf * 0] and [0 / 0] have none. *)
Definition inf_of_sign (c : comparison) : fp :=
  match c with
  | Gt => PInf
  | Lt => NInf
  | Eq => NaN
  end.

Definition fneg (x : fp) : fp :=
  match x with
  | NaN => NaN
  | NInf => PInf
  | PInf => NInf
  | Fin r => Fin (- r)
  end.

Definition fadd (x y : fp) : fp :=
  match x, y with
  | NaN, _ | _, NaN => NaN
  | PInf, NInf | NInf, PInf => NaN
  | PInf, _ | _, PInf => PInf
  | NInf, _ | _, NInf => NInf
  | Fin a, Fin b => Fin (a + b)
  end.

Definition fsub (x y : fp) : fp := fadd x (fneg y).

Definition fmul (x y : fp) : fp :=
  match x, y with
  | NaN, _ | _, NaN => NaN
  | Fin a, Fin b => Fin (a * b)
  | _, _ => inf_of_sign (sign_mul (fsign x) (fsign y))
  end.

Definition fdiv (x y : fp) : fp :=
  match x, y with
  | NaN, _ | _, NaN => NaN
  | Fin a, Fin b =>
      if Req_dec_T b 0 then inf_of_sign (Rsign a) else Fin (a / b)
  | Fin _, _ => Fin 0
  | _, Fin b => inf_of_sign (sign_mul (fsign x) (if Rlt_dec b 0 then Lt else Gt))
  | _, _ => NaN
  end.

(** [tl.maximum]: the operand that is not NaN wins. *)
Definition fmaximum (x y : fp) : fp :=
  match x, y with
  | NaN, _ => y
  | _, NaN => x
  | PInf, _ | _, PInf => PInf
  | NInf, _ => y
  | _, NInf => x
  | Fin a, Fin b => Fin (Rmax a b)
  end.

Definition exp2 (x : R) : R := exp (x * ln 2).
Definition log2 (x : R) : R := ln x / ln 2.

(** [tl.math.exp2] *)
Definition fexp2 (x : fp) : fp :=
  match x with
  | NaN => NaN
  | NInf => Fin 0
  | PInf => PInf
  | Fin r => Fin (exp2 r)
  end.

(** [tl.math.log2] *)
Definition flog2 (x : fp) : fp :=
  match x with
  | NaN | NInf => NaN
  | PInf => PInf
  | Fin r =>
      if Req_dec_T r 0 then NInf
      else if Rlt_dec r 0 then NaN
      else Fin (log2 r)
  end.

(** The natural exponential, for the reference computation only. *)
Definition fexp (x : fp) : fp :=
  match x with
  | NaN => NaN
  | NInf => Fin 0
  | PInf => PInf
  | Fin r => Fin (exp r)
  end.


(** [x == float("-inf")] *)
Definition eq_neg_inf (x : fp) : bool :=
  match x with
  | NInf => true
  | _ => false
  end.

(** [tl.where(c, a, b)] on one element. *)
Definition tl_where {A} (c : bool) (a b : A) : A := if c then a else b.

(** ** Blocks

    A block of shape [[n]] is a function on [0..n-1], one of shape [[n, k]] a
    function of two indices; the shape travels separately. *)

Definition block1 := nat -> fp.
Definition block2 := nat -> nat -> fp.

(** [tl.sum(x, 1)] on one row of [n] columns. *)
Fixpoint tl_sum (n : nat) (row : block1) : fp :=
  match n with
  | O => Fin 0
  | S k => fadd (tl_sum k row) (row k)
  end.

(** [tl.max(x, 1)] on one row of [n] columns. *)
Fixpoint tl_max (n : nat) (row : block1) : fp :=
  match n with
  | O => NInf
  | S k =>
      match k with
      | O => row O
      | S _ => fmaximum (tl_max k row) (row k)
      end
  end.

(** [tl.dot(a, b)] for [a] of shape [[_, k]] and [b] of shape [[k, _]]. *)
Definition tl_dot (k : nat) (a b : block2) : block2 :=
  fun i j => tl_sum k (fun d => fmul (a i d) (b d j)).

(** [range(lo, hi, step)] for a positive [step]. *)
Fixpoint range_from (fuel lo hi step : nat) : list nat :=
  match fuel with
  | O => []
  | S fuel' =>
      if (lo <? hi)%nat then lo :: range_from fuel' (lo + step) hi step else []
  end.

Definition py_range (lo hi step : nat) : list nat := range_from hi lo hi step.

(** ** The forward template *)

(** The constant [1.44269504] of the template, the decimal it writes for
    [log2(e)]. *)
Definition LOG2E : R := 1.44269504.

(** The storage behind a pointer argument of a kernel, read at an element
    offset: the templates address their operands by arithmetic on the
    strides. *)
Definition memory := nat -> fp.

(** [stride(T, 0)] to [stride(T, 3)] of a tensor [T]. *)
Record strides := mkStrides {
  stride_z : nat;
  stride_h : nat;
  stride_m : nat;
  stride_d : nat
}.

(** [tl.load] of a block pointer made by [tl.make_block_ptr] on [base] with
    [strides=(s0, s1)] and standing at the offsets [(o0, o1)]: element
    [[i, j]] of the block.  The loads of the template ask for no boundary
    check, so the [shape] of the block pointer plays no part. *)
Definition block_ptr_load (mem : memory) (base s0 s1 o0 o1 : nat) : block2 :=
  fun i j => mem (base + (o0 + i) * s0 + (o1 + j) * s1)%nat.

(** A tensor of shape [[Z, H, len, D]] by its elements [[b, h, row, d]]:
    what the untiled computations below are written over. *)
Definition tensor4 := nat -> nat -> nat -> nat -> fp.

(** The elements of a tensor stored in [mem] with the strides [s]. *)
Definition elem (mem : memory) (s : strides) : tensor4 :=
  fun b h r d =>
    mem (b * stride_z s + h * stride_h s + r * stride_m s + d * stride_d s)%nat.

(** What the forward template reads as element [[b, h, r, d]] of a tensor
    stored in [mem]: the program of batch [b] and head [h] is
    [off_hz = b * H + h], it moves the base by [off_hz * head_stride], and
    the block pointer steps by the row and column strides of [s].  For [Q]
    and [K] the head stride is the tensor's own [stride(T, 1)]; [V] is
    offset by the head stride of [K]. *)
Definition as_read (mem : memory) (head_stride : nat) (s : strides)
    (H : nat) : tensor4 :=
  fun b h r d =>
    mem ((b * H + h) * head_stride + r * stride_m s + d * stride_d s)%nat.

(** The inlined score modification: [score, b, h, m, n] to the modified
    score. *)
Definition score_mod := fp -> nat -> nat -> nat -> nat -> fp.

Record loop_state := mkLoop {
  m_i : block1;
  l_i : block1;
  acc : block2;
  K_block_ptr : nat;   (* the column offset of [K_block_ptr] *)
  V_block_ptr : nat    (* the row offset of [V_block_ptr] *)
}.

Record kernel_result := mkKernelResult {
  out_acc : block2;        (* [acc] as handed to [store_output] *)
  out_idx_m : nat -> nat;  (* [idx_m], the row each [acc] row is stored to *)
  out_mask : nat -> bool;  (* [mask = idx_m < Q_LEN] *)
  out_lse : option block1  (* [lse], stored at [LSE + off_hz * Q_LEN + offs_m]
                              when [OUTPUT_LOGSUMEXP] *)
}.

Section ForwardTemplate.

Variable modification : score_mod.
Variables Q K V : memory.
(** The strides of [Q], [K] and [V]. *)
Variables sq sk sv : strides.
Variables H Q_LEN KV_LEN : nat.
Variable meta : fwd_meta.
(** [tl.program_id(0)] and [tl.program_id(1)]. *)
Variables start_m off_hz : nat.

Definition BM : nat := Z.to_nat (BLOCK_M meta).
Definition BN : nat := Z.to_nat (BLOCK_N meta).
Definition DMODEL : nat := Z.to_nat (BLOCK_DMODEL meta).

Definition offs_m : nat -> nat := fun i => (start_m * BM + i)%nat.
Definition offs_n : nat -> nat := fun j => j.

Definition qk_scale : R :=
  if SCORE_MOD_IS_LINEAR meta then (1.0 * LOG2E)%R else 1.0%R.

Definition q_offset : nat := (off_hz * stride_h sq)%nat.
(** Both [K] and [V] are offset by [off_hz * stride_kh]. *)
Definition kv_offset : nat := (off_hz * stride_h sk)%nat.

(** [q = tl.load(Q_block_ptr)] then [q = (q * qk_scale)]. *)
Definition q_block : block2 :=
  fun i d =>
    fmul (block_ptr_load Q q_offset (stride_m sq) (stride_d sq)
            (start_m * BM) 0 i d)
         (Fin qk_scale).

(** [post_mod_scores *= 1.44269504] unless the scale was folded into [q]. *)
Definition change_base (s : fp) : fp :=
  if negb (SCORE_MOD_IS_LINEAR meta) then fmul s (Fin LOG2E) else s.

Definition loop_body (st : loop_state) (start_n : nat) : loop_state :=
  let k : block2 :=
    block_ptr_load K kv_offset (stride_d sk) (stride_m sk)
      0 (K_block_ptr st) in
  let qk := tl_dot DMODEL q_block k in
  let m := fun i => offs_m i in
  let n := fun j => (start_n + offs_n j)%nat in
  let post_mod_scores : block2 :=
    fun i j =>
      change_base
        (modification (qk i j) (off_hz / H)%nat (off_hz mod H)%nat (m i) (n j)) in
  let m_ij : block1 :=
    fun i => fmaximum (m_i st i) (tl_max BN (post_mod_scores i)) in
  let alpha : block1 := fun i => fexp2 (fsub (m_i st i) (m_ij i)) in
  let p : block2 := fun i j => fexp2 (fsub (post_mod_scores i j) (m_ij i)) in
  let masked_out_rows : nat -> bool := fun i => eq_neg_inf (m_ij i) in
  let alpha : block1 :=
    if negb (ROWS_GUARANTEED_SAFE meta)
    then fun i => tl_where (masked_out_rows i) (Fin 0) (alpha i)
    else alpha in
  let p : block2 :=
    if negb (ROWS_GUARANTEED_SAFE meta)
    then fun i j => tl_where (masked_out_rows i) (Fin 0) (p i j)
    else p in
  let l_i' : block1 :=
    fun i => fadd (fmul (l_i st i) (alpha i)) (tl_sum BN (p i)) in
  let acc' : block2 := fun i d => fmul (acc st i d) (alpha i) in
  let v : block2 :=
    block_ptr_load V kv_offset (stride_m sv) (stride_d sv)
      (V_block_ptr st) 0 in
  let acc'' : block2 := fun i d => fadd (acc' i d) (tl_dot BN p v i d) in
  mkLoop m_ij l_i' acc'' (K_block_ptr st + BN) (V_block_ptr st + BN).

Definition loop_init : loop_state :=
  mkLoop (fun _ => fsub (Fin 0) PInf) (fun _ => Fin 0) (fun _ _ => Fin 0) 0 0.

Definition kv_loop : loop_state :=
  fold_left loop_body (py_range 0 KV_LEN BN) loop_init.

Definition flex_attention_kernel : kernel_result :=
  let st := kv_loop in
  let acc := fun i d => fdiv (acc st i d) (l_i st i) in
  let idx_m := fun i => offs_m i in
  let mask := fun i => (idx_m i <? Q_LEN)%nat in
  let lse :=
    if OUTPUT_LOGSUMEXP meta
    then Some (fun i => fadd (m_i st i) (flog2 (l_i st i)))
    else None in
  mkKernelResult acc idx_m mask lse.

End ForwardTemplate.

(** What program [(m / BLOCK_M, b * H + h)] hands to [store_output] for row
    [m mod BLOCK_M] of its tile, the row of index [idx_m = m] of batch [b]
    and head [h].  The store is masked by [idx_m < Q_LEN] and each index
    belongs to the tile of one program, so for [m < Q_LEN] this is what a
    launch leaves at [[b, h, m, d]] of the output. *)
Definition forward_output (modification : score_mod) (Q K V : memory)
    (sq sk sv : strides) (H Q_LEN KV_LEN : nat) (meta : fwd_meta)
    (b h m d : nat) : fp :=
  out_acc
    (flex_attention_kernel modification Q K V sq sk sv H Q_LEN KV_LEN meta
       (m / BM meta)%nat (b * H + h)%nat)
    (m mod BM meta)%nat d.

(** What the same program stores for that row through [l_ptrs], at the
    offset [(b * H + h) * Q_LEN + m] of [LSE]; nothing without
    [OUTPUT_LOGSUMEXP].  This store has no mask: a program stores the
    logsumexp of every row of its tile, also of those from [Q_LEN] on, which
    land on the offsets of the next head.  [lse_written] below collects all
    the stores of a launch to one offset. *)
Definition forward_logsumexp (modification : score_mod) (Q K V : memory)
    (sq sk sv : strides) (H Q_LEN KV_LEN : nat) (meta : fwd_meta)
    (b h m : nat) : option fp :=
  match out_lse
          (flex_attention_kernel modification Q K V sq sk sv H Q_LEN KV_LEN
             meta (m / BM meta)%nat (b * H + h)%nat) with
  | Some lse => Some (lse (m mod BM meta)%nat)
  | None => None
  end.

(** [l_ptrs = LSE + off_hz * Q_LEN + offs_m], as an offset into [LSE]; the
    [tl.store] that follows carries no mask. *)
Definition l_ptrs (Q_LEN : nat) (meta : fwd_meta) (start_m off_hz : nat)
    : nat -> nat :=
  fun i => (off_hz * Q_LEN + offs_m meta start_m i)%nat.

(** A launch over the grid of [flex_attention_grid] stores [x] at [offset]
    of [LSE]: some program of the grid does, for some row of its tile. *)
Definition lse_written (modification : score_mod) (Q K V : memory)
    (sq sk sv : strides) (batch H Q_LEN KV_LEN : nat) (meta : fwd_meta)
    (offset : nat) (x : fp) : Prop :=
  exists start_m off_hz i lse,
    Z.of_nat start_m <
      fst (fst (flex_attention_grid (Z.of_nat batch) (Z.of_nat H)
                  (Z.of_nat Q_LEN) (BLOCK_DMODEL meta) meta)) /\
    Z.of_nat off_hz <
      snd (fst (flex_attention_grid (Z.of_nat batch) (Z.of_nat H)
                  (Z.of_nat Q_LEN) (BLOCK_DMODEL meta) meta)) /\
    (i < BM meta)%nat /\
    out_lse
      (flex_attention_kernel modification Q K V sq sk sv H Q_LEN KV_LEN meta
         start_m off_hz) = Some lse /\
    l_ptrs Q_LEN meta start_m off_hz i = offset /\
    lse i = x.

(** ** Direct, untiled computations to compare with *)

(** The score the template feeds to the softmax at the absolute indices
    [[b, h, m, n]]: the dot product of the scaled query row with the key row,
    modified, and moved to base 2 if the scale was not folded. *)
Definition scaled_score (modification : score_mod) (Q K : tensor4)
    (meta : fwd_meta) (b h m n : nat) : fp :=
  change_base meta
    (modification
       (tl_sum (DMODEL meta)
          (fun d => fmul (fmul (Q b h m d) (Fin (qk_scale meta))) (K b h n d)))
       b h m n).

(** Softmax-weighted sum of [V] over all [KV_LEN] keys, weights [2^score]. *)
Definition direct_attention (score : nat -> fp) (V : tensor4) (KV_LEN : nat)
    (b h d : nat) : fp :=
  fdiv (tl_sum KV_LEN (fun n => fmul (fexp2 (score n)) (V b h n d)))
       (tl_sum KV_LEN (fun n => fexp2 (score n))).

(** [log2] of the sum of [2^score] over all keys. *)
Definition direct_logsumexp2 (score : nat -> fp) (KV_LEN : nat) : fp :=
  flog2 (tl_sum KV_LEN (fun n => fexp2 (score n))).

(** The raw score [Q K^T] at [[b, h, m, n]]. *)
Definition raw_score (Q K : tensor4) (D b h m n : nat) : fp :=
  tl_sum D (fun d => fmul (Q b h m d) (K b h n d)).

(** The reference of the specification: the natural softmax of the modified
    raw scores, applied to [V]. *)
Definition reference_attention (modification : score_mod) (Q K V : tensor4)
    (D KV_LEN : nat) (b h m d : nat) : fp :=
  let s := fun n => modification (raw_score Q K D b h m n) b h m n in
  fdiv (tl_sum KV_LEN (fun n => fmul (fexp (s n)) (V b h n d)))
       (tl_sum KV_LEN (fun n => fexp (s n))).


(** The identity modification. *)
Definition identity_mod : score_mod := fun score _ _ _ _ => score.

(** ** Vocabulary for statements about rows of scores *)

(** The finite sum [f 0 + ... + f (n-1)] over the reals. *)
Fixpoint rsum (f : nat -> R) (n : nat) : R :=
  match n with
  | O => 0%R
  | S k => (rsum f k + f k)%R
  end.

(** The number a finite float stands for. *)
Definition fin_val (x : fp) : R :=
  match x with
  | Fin r => r
  | _ => 0%R
  end.

Definition is_fin (x : fp) : Prop := exists r, x = Fin r.

(** A score is a finite number or the mask value [-inf]. *)
Definition finite_or_masked (x : fp) : Prop := x = NInf \/ is_fin x.

(** The softmax weight [2^score] of a key, [0] for a masked one. *)
Definition weight2 (score : nat -> fp) (n : nat) : R :=
  fin_val (fexp2 (score n)).

(** What the loop has established about row [i] and column [d] of the tile
    when [t] key tiles are done: the block pointers stand at key [t * BN];
    [l_i] and [acc] hold the sums of the weights, and of the weighted values
    of column [d], over the keys seen so far, all divided by [2^m_i]; [m_i]
    is still [-inf] exactly while every key seen so far was masked. *)
Definition row_invariant (score : nat -> fp) (value : nat -> R)
    (safe : bool) (BN : nat) (t : nat) (st : loop_state) (i d : nat) : Prop :=
  K_block_ptr st = (t * BN)%nat /\
  V_block_ptr st = (t * BN)%nat /\
  exists c : R,
    l_i st i = Fin (rsum (weight2 score) (t * BN) * c) /\
    acc st i d =
      Fin (rsum (fun n => weight2 score n * value n) (t * BN) * c)%R /\
    ((m_i st i = NInf /\
      (forall n, (n < t * BN)%nat -> score n = NInf) /\
      (safe = true -> t = O)) \/
     (exists mu : R,
        m_i st i = Fin mu /\ c = exp2 (- mu) /\
        (0 < rsum (weight2 score) (t * BN))%R)).

(** The loop body as one row of the tile sees it: [post] is the row of
    modified scores over the key tile, [vt] the value tile, and [mi], [li],
    [ac] the row's entries of [m_i], [l_i] and [acc]. *)
Definition row_update (safe : bool) (BN : nat) (post : block1) (vt : block2)
    (mi li : fp) (ac : block1) : fp * fp * block1 :=
  let m_ij := fmaximum mi (tl_max BN post) in
  let alpha := fexp2 (fsub mi m_ij) in
  let p : block1 := fun j => fexp2 (fsub (post j) m_ij) in
  let masked_out_rows := eq_neg_inf m_ij in
  let alpha :=
    if negb safe then tl_where masked_out_rows (Fin 0) alpha else alpha in
  let p : block1 :=
    fun j => if negb safe then tl_where masked_out_rows (Fin 0) (p j) else p j in
  (m_ij,
   fadd (fmul li alpha) (tl_sum BN p),
   fun d => fadd (fmul (ac d) alpha) (tl_sum BN (fun j => fmul (p j) (vt j d)))).

(** ** A concrete host and concrete arguments for examples *)

Definition demo_contiguous_strides (size : list Z) : list Z :=
  List.map (fun k => fold_right Z.mul 1 (skipn (S k) size))
    (seq 0 (List.length size)).

Definition demo_host : Host :=
  mkHost demo_lowerings
    (fun size c d device =>
       TensorBox (StorageBox (Loops "full" [PyInt c] device d size)))
    (fun size d device => TensorBox (StorageBox (Buffer "empty" device d size)))
    demo_contiguous_strides
    true
    (8, 0)
    (fun _ => true)
    (fun name _ _ layout =>
       TensorBox (StorageBox
         (Buffer name (fixed_device layout) (fixed_dtype layout)
            (fixed_size layout)))).

(** [score_mod = lambda score, b, h, m, n: score]. *)
Definition identity_graph : list Node :=
  fwd_placeholders ++ [mkNode "output" output "output" [ArgNode "score"] []].

(** Its joint graph: the gradient of the score is the incoming gradient. *)
Definition identity_joint_graph : list Node :=
  fwd_placeholders ++
  [ ph "grad_score_mod";
    mkNode "output" output "output"
      [ArgTuple [ArgNode "grad_score_mod"; ArgNone; ArgNone; ArgNone; ArgNone]]
      [] ].

Definition demo_flex_args : list obj :=
  [ demo_tensor "query" [1; 1; 4; 2];
    demo_tensor "key" [1; 1; 4; 2];
    demo_tensor "value" [1; 1; 4; 2];
    PySubgraph identity_graph ].

Definition demo_bwd_args : list obj :=
  [ demo_tensor "query" [1; 1; 4; 2];
    demo_tensor "key" [1; 1; 4; 2];
    demo_tensor "value" [1; 1; 4; 2];
    demo_tensor "out" [1; 1; 4; 2];
    demo_tensor "logsumexp" [1; 1; 4];
    demo_tensor "grad_out" [1; 1; 4; 2];
    PySubgraph identity_graph;
    PySubgraph identity_joint_graph ].





(** The records the two lowerings build on the demo arguments. *)
Definition demo_fwd_lowering : fwd_lowering :=
  match flex_attention_body demo_host demo_flex_args with
  | Ok l => l
  | Raise _ =>
      mkFwdLowering (mkComputedBuffer None (mkFlexibleLayout "" float32 []) PyNone)
        (mkFixedLayout "" float32 [] []) PyNone [] []
  end.

Definition demo_bwd_lowering : bwd_lowering :=
  match flex_attention_backward_body demo_host demo_bwd_args with
  | Ok l => l
  | Raise _ =>
      let cb := mkComputedBuffer None (mkFlexibleLayout "" float32 []) PyNone in
      mkBwdLowering cb cb (mkFixedLayout "" float32 [] []) PyNone PyNone PyNone
        PyNone [] []
  end.


(** ** Concrete attention problems *)

(** The strides of a contiguous tensor of shape [[Z, H, len, D]]. *)
Definition contiguous (H len D : nat) : strides :=
  mkStrides (H * len * D) (len * D) D 1.

(** Storage that holds [0] at every offset. *)
Definition zeros : memory := fun _ => Fin 0.

(** The storage of a contiguous [V] of shape [[1, 1, N, 16]] with
    [V[0, 0, 0, :] = 1] and [V[0, 0, n, :] = 0] for the other keys. *)
Definition first_key_only : memory :=
  fun a => if (a <? 16)%nat then Fin 1 else Fin 0.

(** [score_mod = lambda score, b, h, m, n: score + bias[n]] with
    [bias = [1, 0, 0, ...]]. *)
Definition bias_mod : score_mod :=
  fun score _ _ _ n => fadd score (if (n =? 0)%nat then Fin 1 else Fin 0).

(** [score_mod = lambda score, b, h, m, n: where(m < 2, score, -inf)]: the
    query rows from 2 on are padding and attend to no key. *)
Definition padding_mod : score_mod :=
  fun score _ _ m _ => if (m <? 2)%nat then score else NInf.

(** ** The callers' side of the positional contract *)

(** The number of sentinel placeholders each caller passes: five for the
    forward graph and for the recompute of the joint graph, six (with
    [grad_score_mod]) for the backward pass of the joint graph. *)
Definition n_sentinels (graph_type : SubgraphType) : nat :=
  match graph_type with
  | JOINT_BWD => 6
  | _ => 5
  end.

(** The number of arguments before [*other_buffers] in the caller's
    signature: [query, key, value, score_mod] for [flex_attention],
    [q, k, v, out, lse, grad_out, fw_graph, joint_graph] for
    [flex_attention_backward]. *)
Definition n_leading_args (graph_type : SubgraphType) : nat :=
  match graph_type with
  | FWD => 4
  | _ => 8
  end.

Definition node_names (nodes : list Node) : list string :=
  List.map node_name nodes.

Definition demo_leading : list obj :=
  [ demo_tensor "query" [1; 1; 4; 2];
    demo_tensor "key" [1; 1; 4; 2];
    demo_tensor "value" [1; 1; 4; 2];
    PySubgraph [] ].

Definition demo_other_buffers : list obj :=
  [demo_tensor "bias0" [4]; demo_tensor "bias1" [4]].

(** The output node of a graph that returns the node [x]. *)
Definition output_of (x : string) : Node :=
  mkNode "output" output "output" [ArgNode x] [].

(** A table in which no operation is registered. *)
Definition no_lowerings (target : string) (args : list obj)
    (kwargs : list (string * obj)) : result obj :=
  Raise KeyError.

(** ** The stores of the forward template, and masks *)

(** [idx_z = tl.program_id(1) // H] and [idx_h = tl.program_id(1) % H]. *)
Definition idx_z (H off_hz : nat) : nat := (off_hz / H)%nat.
Definition idx_h (H off_hz : nat) : nat := (off_hz mod H)%nat.

(** [score_mod = lambda score, b, h, m, n:
       where(keep(b, h, m, n), inner(score, b, h, m, n), -inf)] *)
Definition mask_mod (keep : nat -> nat -> nat -> nat -> bool)
    (inner : score_mod) : score_mod :=
  fun score b h m n => if keep b h m n then inner score b h m n else NInf.

(** The causal mask, [keep = m >= n]. *)
Definition causal (b h m n : nat) : bool := (n <=? m)%nat.

(** The storage of a contiguous tensor of shape [[1, 1, N, D]] whose rows
    are [1] up to row [limit] and [fill] from there on. *)
Definition ones_until (D limit : nat) (fill : fp) : memory :=
  fun a => if (a / D <? limit)%nat then Fin 1 else fill.

(** The layouts on which the head offsets of the forward template,
    [off_hz * stride(Q, 1)] for [Q] and [off_hz * stride(K, 1)] for both [K]
    and [V], land on the slice [[off_hz // H, off_hz % H]] of each tensor: the
    batch stride is [H] times the head stride, and [V] has the head stride
    of [K]. *)
Definition batch_major (H : nat) (sq sk sv : strides) : Prop :=
  stride_z sq = (H * stride_h sq)%nat /\
  stride_z sk = (H * stride_h sk)%nat /\
  stride_z sv = (H * stride_h sv)%nat /\
  stride_h sv = stride_h sk.

(** Storage that holds [0] below the offset [limit] and [1] from there on. *)
Definition ones_from (limit : nat) : memory :=
  fun a => if (a <? limit)%nat then Fin 0 else Fin 1.

(** ** The backward template *)

(** The inlined joint graph: [score, b, h, m, n, grad_score_mod] to the
    gradient of the score. *)
Definition joint_mod := fp -> nat -> nat -> nat -> nat -> fp -> fp.

(** [tl.trans] *)
Definition tl_trans (a : block2) : block2 := fun i j => a j i.

(** The loop-carried variables of the DQ branch; [kT_ptrs] and [vT_ptrs]
    are blocks of offsets of shape [[BLOCK_DMODEL, BLOCK_N2]]. *)
Record dq_state := mkDqState {
  dq : block2;
  curr_n : nat;
  kT_ptrs : nat -> nat -> nat;
  vT_ptrs : nat -> nat -> nat
}.

(** The loop-carried variables of the DK/DV branch; [qT_ptrs] has shape
    [[BLOCK_DMODEL, BLOCK_M1]] and [do_ptrs] shape
    [[BLOCK_M1, BLOCK_DMODEL]]. *)
Record dkdv_state := mkDkdvState {
  dv : block2;
  dk : block2;
  curr_m : nat;
  qT_ptrs : nat -> nat -> nat;
  do_ptrs : nat -> nat -> nat
}.

(** What a program instance stores: [dq] through [dq_ptrs] into [DQ], or
    [dv] through [dv_ptrs] into [DV] and [dk] through [store_output] at
    [(off_z, off_h, index_n, index_k)] under [mask]. *)
Inductive backward_stores :=
| StoreDQ (dq_ptrs : nat -> nat -> nat) (dq : block2)
| StoreDKDV (dv_ptrs : nat -> nat -> nat) (dv : block2)
    (index_n index_k : nat -> nat) (mask : nat -> nat -> bool) (dk : block2).

Definition BM1 (meta : bwd_meta) : nat := Z.to_nat (BLOCK_M1 meta).
Definition BN1 (meta : bwd_meta) : nat := Z.to_nat (BLOCK_N1 meta).
Definition BM2 (meta : bwd_meta) : nat := Z.to_nat (BLOCK_M2 meta).
Definition BN2 (meta : bwd_meta) : nat := Z.to_nat (BLOCK_N2 meta).
Definition bwd_DMODEL (meta : bwd_meta) : nat :=
  Z.to_nat (bwd_BLOCK_DMODEL meta).

(** [post_mod_scores *= 1.44269504] unless [SCORE_MOD_IS_LINEAR]. *)
Definition bwd_change_base (meta : bwd_meta) (s : fp) : fp :=
  if negb (bwd_SCORE_MOD_IS_LINEAR meta) then fmul s (Fin LOG2E) else s.

Section BackwardTemplate.

Variable modification : score_mod.
Variable joint_modification : joint_mod.
Variables Q K V LSE DELTA DO : memory.
(** The strides of [Q], [K] and [V]. *)
Variables sq sk sv : strides.
Variables H Q_LEN KV_LEN : nat.
Variable meta : bwd_meta.
(** [tl.program_id(0)] and [tl.program_id(2)]. *)
Variables pid off_hz : nat.

Definition off_z : nat := (off_hz / H)%nat.
Definition off_h : nat := (off_hz mod H)%nat.
Definition off_chz : nat := (off_hz * Q_LEN)%nat.
Definition q_adj : nat :=
  (stride_h sq * (off_hz mod H) + stride_z sq * (off_hz / H))%nat.
Definition k_adj : nat :=
  (stride_h sk * (off_hz mod H) + stride_z sk * (off_hz / H))%nat.
Definition v_adj : nat :=
  (stride_h sv * (off_hz mod H) + stride_z sv * (off_hz / H))%nat.

(** [start_m2] in the DQ branch, [start_n1] in the other. *)
Definition tile_start : nat :=
  Z.to_nat (backward_tile_start (Z.of_nat KV_LEN) meta (Z.of_nat pid)).

(** *** "THIS BLOCK DOES DQ" *)

Definition offs_m2 : nat -> nat := fun i => (tile_start + i)%nat.

Definition dq_q : block2 :=
  fun i d => Q (q_adj + offs_m2 i * stride_m sq + d * stride_d sq)%nat.
Definition dq_do : block2 :=
  fun i d => DO (q_adj + offs_m2 i * stride_m sq + d * stride_d sq)%nat.
Definition dq_lse : block1 := fun i => LSE (off_chz + offs_m2 i)%nat.
Definition dq_Di : block1 := fun i => DELTA (off_chz + offs_m2 i)%nat.

Definition dq_init : dq_state :=
  mkDqState (fun _ _ => Fin 0) 0
    (fun d j => (k_adj + (0 + j) * stride_m sk + d * stride_d sk)%nat)
    (fun d j => (v_adj + (0 + j) * stride_m sv + d * stride_d sv)%nat).

Definition dq_body (st : dq_state) (blk_idx : nat) : dq_state :=
  let offs_n2 := fun j => (curr_n st + j)%nat in
  let kT : block2 := fun d j => K (kT_ptrs st d j) in
  let vT : block2 := fun d j => V (vT_ptrs st d j) in
  let qk := tl_dot (bwd_DMODEL meta) dq_q kT in
  let pre_mod_scores := qk in
  let m := offs_m2 in
  let n := offs_n2 in
  let post_mod_scores : block2 :=
    fun i j =>
      bwd_change_base meta (modification (qk i j) off_z off_h (m i) (n j)) in
  let p : block2 := fun i j => fexp2 (fsub (post_mod_scores i j) (dq_lse i)) in
  let dp := tl_dot (bwd_DMODEL meta) dq_do vT in
  let ds : block2 := fun i j => fmul (p i j) (fsub (dp i j) (dq_Di i)) in
  let grad_scores : block2 :=
    fun i j =>
      joint_modification (pre_mod_scores i j) off_z off_h (m i) (n j)
        (ds i j) in
  let ds := grad_scores in
  let dq' : block2 :=
    fun i d => fadd (dq st i d) (tl_dot (BN2 meta) ds (tl_trans kT) i d) in
  mkDqState dq' (curr_n st + BN2 meta)
    (fun d j => (kT_ptrs st d j + BN2 meta * stride_m sk)%nat)
    (fun d j => (vT_ptrs st d j + BN2 meta * stride_m sk)%nat).

(** [for blk_idx in range(num_steps)] with [num_steps = KV_LEN // BLOCK_N2]. *)
Definition dq_loop : dq_state :=
  fold_left dq_body (py_range 0 (KV_LEN / BN2 meta) 1) dq_init.

Definition dq_ptrs : nat -> nat -> nat :=
  fun i d => (q_adj + offs_m2 i * stride_m sq + d * stride_d sq)%nat.

(** *** "THIS BLOCK DOES DK & DV" *)

Definition offs_n1 : nat -> nat := fun j => (tile_start + j)%nat.

Definition dkdv_k : block2 :=
  fun j d => K (k_adj + offs_n1 j * stride_m sk + d * stride_d sk)%nat.
Definition dkdv_v : block2 :=
  fun j d => V (v_adj + offs_n1 j * stride_m sv + d * stride_d sv)%nat.

Definition dkdv_init : dkdv_state :=
  mkDkdvState (fun _ _ => Fin 0) (fun _ _ => Fin 0) 0
    (fun d i => (q_adj + (0 + i) * stride_m sq + d * stride_d sq)%nat)
    (fun i d => (q_adj + (0 + i) * stride_m sq + d * stride_d sq)%nat).

Definition dkdv_body (st : dkdv_state) (blk_idx : nat) : dkdv_state :=
  let qT : block2 := fun d i => Q (qT_ptrs st d i) in
  let offs_m1 := fun i => (curr_m st + i)%nat in
  let lse : block1 := fun i => LSE (off_chz + offs_m1 i)%nat in
  let qkT := tl_dot (bwd_DMODEL meta) dkdv_k qT in
  let m := offs_m1 in
  let n := offs_n1 in
  let pre_mod_scores := qkT in
  let post_mod_scores : block2 :=
    fun j i =>
      bwd_change_base meta (modification (qkT j i) off_z off_h (m i) (n j)) in
  let pT : block2 := fun j i => fexp2 (fsub (post_mod_scores j i) (lse i)) in
  let do : block2 := fun i d => DO (do_ptrs st i d) in
  let ppT := pT in
  let dv' : block2 :=
    fun j d => fadd (dv st j d) (tl_dot (BM1 meta) ppT do j d) in
  let Di : block1 := fun i => DELTA (off_chz + offs_m1 i)%nat in
  let dpT := tl_dot (bwd_DMODEL meta) dkdv_v (tl_trans do) in
  let dsT : block2 := fun j i => fmul (pT j i) (fsub (dpT j i) (Di i)) in
  let grad_scores : block2 :=
    fun j i =>
      joint_modification (pre_mod_scores j i) off_z off_h (m i) (n j)
        (dsT j i) in
  let dsT := grad_scores in
  let dk' : block2 :=
    fun j d => fadd (dk st j d) (tl_dot (BM1 meta) dsT (tl_trans qT) j d) in
  mkDkdvState dv' dk' (curr_m st + BM1 meta)
    (fun d i => (qT_ptrs st d i + BM1 meta * stride_m sq)%nat)
    (fun i d => (do_ptrs st i d + BM1 meta * stride_m sq)%nat).

(** [for blk_idx in range(num_steps)] with [num_steps = Q_LEN // BLOCK_M1]. *)
Definition dkdv_loop : dkdv_state :=
  fold_left dkdv_body (py_range 0 (Q_LEN / BM1 meta) 1) dkdv_init.

Definition dv_ptrs : nat -> nat -> nat :=
  fun j d => (v_adj + offs_n1 j * stride_m sv + d * stride_d sv)%nat.

(** [mask = (index_n != -1) & (index_k != -1)] *)
Definition dk_mask (index_n index_k : nat -> nat) : nat -> nat -> bool :=
  fun j d =>
    negb (Z.of_nat (index_n j) =? -1) && negb (Z.of_nat (index_k d) =? -1).

(** One program instance of the compiled template.  The two static
    assertions are checked when the template is compiled; the branch on
    [pid] is taken at run time. *)
Definition flex_attention_backward_kernel : result backward_stores :=
  _ ← backward_static_asserts meta;
  match backward_phase (Z.of_nat KV_LEN) meta (Z.of_nat pid) with
  | DQ_phase => Ok (StoreDQ dq_ptrs (dq dq_loop))
  | DKDV_phase =>
      let index_n := offs_n1 in
      let index_k := fun d : nat => d in
      Ok (StoreDKDV dv_ptrs (dv dkdv_loop) index_n index_k
            (dk_mask index_n index_k) (dk dkdv_loop))
  end.

End BackwardTemplate.

(** ** Direct, untiled computations for the backward template *)

(** Row [r] of a tensor's slice for one batch and head: the elements at
    [base + r * stride_m + d * stride_d]. *)
Definition row_of (mem : memory) (base : nat) (s : strides) (r : nat)
    : block1 :=
  fun d => mem (base + r * stride_m s + d * stride_d s)%nat.

(** The probability [2^(score - lse)] of key [n] for query [m], from the
    query row [q] and the key row [k]. *)
Definition direct_prob (modification : score_mod) (meta : bwd_meta)
    (b h m n : nat) (q k : block1) (lse : fp) : fp :=
  let qk := tl_sum (bwd_DMODEL meta) (fun d => fmul (q d) (k d)) in
  fexp2 (fsub (bwd_change_base meta (modification qk b h m n)) lse).

(** The gradient of the unmodified score of key [n] for query [m]:
    [p * (dp - delta)] with [dp] the dot product of the rows [do] and [v],
    passed through the joint graph. *)
Definition direct_score_grad (modification : score_mod)
    (joint_modification : joint_mod) (meta : bwd_meta) (b h m n : nat)
    (q k v do : block1) (lse delta : fp) : fp :=
  let qk := tl_sum (bwd_DMODEL meta) (fun d => fmul (q d) (k d)) in
  let p := direct_prob modification meta b h m n q k lse in
  let dp := tl_sum (bwd_DMODEL meta) (fun d => fmul (do d) (v d)) in
  joint_modification qk b h m n (fmul p (fsub dp delta)).

(** Where the DQ loop finds the value row of key [n]: the rows of one tile
    are [stride(V, 2)] apart, and consecutive tiles
    [BLOCK_N2 * stride(K, 2)]. *)
Definition dq_value_row (V : memory) (base : nat) (sk sv : strides)
    (BN2 : nat) (n : nat) : block1 :=
  fun d =>
    V (base + n mod BN2 * stride_m sv + d * stride_d sv
       + n / BN2 * (BN2 * stride_m sk))%nat.

(** ** A concrete backward launch *)

(** Storage that holds [1] at every offset. *)
Definition ones_memory : memory := fun _ => Fin 1.

(** The strides of a contiguous [[1, 1, 4, 2]] tensor. *)
Definition demo_strides : strides := mkStrides 8 8 2 1.

(** The joint graph of a score modification that leaves the score alone:
    the gradient passes through. *)
Definition identity_joint : joint_mod := fun _ _ _ _ _ grad => grad.

(** Four queries and four keys in tiles of two, as the backward lowering
    flags them. *)
Definition demo_bwd_meta : bwd_meta := mkBwdMeta 2 2 2 2 2 false.

(** * The score-modification inliner *)

Section InlinerFacts.

Variable lowerings :
  string -> list obj -> list (string * obj) -> result obj.
Variable placeholder_inps : list obj.
Variable graph_type : SubgraphType.

#[local] Abbreviation step' := (step lowerings placeholder_inps graph_type).
#[local] Abbreviation run' := (run_nodes lowerings placeholder_inps graph_type).

Lemma run_nodes_app nodes1 nodes2 st :
  run' (nodes1 ++ nodes2)%list st =
  match run' nodes1 st with
  | Next st' => run' nodes2 st'
  | Finish r => Finish r
  end.
Proof.
  revert st. induction nodes1 as [|n ns IH]; intros st; simpl; [reflexivity|].
  destruct (step' n st); [apply IH | reflexivity].
Qed.

Lemma run_nodes_snoc nodes n st st' :
  run' (nodes ++ [n])%list st = Next st' ->
  exists st1, run' nodes st = Next st1 /\ step' n st1 = Next st'.
Proof.
  rewrite run_nodes_app. destruct (run' nodes st) as [st1|r]; [|discriminate].
  simpl. destruct (step' n st1) eqn:E; [|discriminate].
  intros [= <-]. eauto.
Qed.

(** One step moves [cnt] by one exactly on a placeholder. *)
Lemma step_cnt n st st' :
  step' n st = Next st' ->
  cnt st' = cnt st + (if is_op placeholder n then 1 else 0).
Proof.
  unfold step, is_op. destruct (node_op_ n); simpl.
  - destruct (if _ <=? _ then _ else _); intros [= <-]; reflexivity.
  - destruct (lowerings _ _ _); intros [= <-]; simpl; lia.
  - discriminate.
  - intros [= <-]; lia.
Qed.

Lemma run_cnt nodes st st' :
  run' nodes st = Next st' ->
  cnt st' = cnt st + count_placeholders nodes.
Proof.
  revert st. induction nodes as [|n ns IH]; intros st; simpl.
  - intros [= <-]. unfold count_placeholders. simpl. lia.
  - destruct (step' n st) as [st1|] eqn:E; [|discriminate].
    intros H. rewrite (IH _ H), (step_cnt _ _ _ E).
    unfold count_placeholders. simpl.
    destruct (is_op placeholder n); simpl; lia.
Qed.

(** Only the [call_function] branch assigns to [args]. *)
Lemma step_args n st st' :
  step' n st = Next st' ->
  cur_args st' =
    if is_op call_function n
    then List.map (map_arg (env st)) (node_args n)
    else cur_args st.
Proof.
  unfold step, is_op. destruct (node_op_ n); simpl.
  - destruct (if _ <=? _ then _ else _); intros [= <-]; reflexivity.
  - destruct (lowerings _ _ _); intros [= <-]; reflexivity.
  - discriminate.
  - intros [= <-]; reflexivity.
Qed.

Lemma run_args_unchanged nodes st st' :
  forallb (fun n => negb (is_op call_function n)) nodes = true ->
  run' nodes st = Next st' ->
  cur_args st' = cur_args st.
Proof.
  revert st. induction nodes as [|n ns IH]; intros st; simpl.
  - intros _ [= <-]. reflexivity.
  - intros [Hn Hns]%andb_prop.
    destruct (step' n st) as [st1|] eqn:E; [|discriminate].
    intros H. rewrite (IH _ Hns H), (step_args _ _ _ E).
    apply negb_true_iff in Hn. rewrite Hn. reflexivity.
Qed.

(** What the placeholder branch does, in terms of the current [args]. *)
Lemma step_placeholder n st :
  node_op_ n = placeholder ->
  step' n st =
    match (if Z.of_nat (List.length placeholder_inps) <=? cnt st
           then py_getitem (cur_args st)
                  (index_to_other_buffers (cnt st) graph_type)
           else py_getitem placeholder_inps (cnt st)) with
    | Ok v => Next (mkState (cnt st + 1) (<[node_name n := v]> (env st))
                      (cur_args st))
    | Raise e => Finish (Raise e)
    end.
Proof. intros H. unfold step. rewrite H. reflexivity. Qed.

Lemma py_getitem_in_range {A} (l : list A) (i : Z) :
  0 <= i < Z.of_nat (List.length l) ->
  exists a, nth_error l (Z.to_nat i) = Some a /\ py_getitem l i = Ok a.
Proof.
  intros H. unfold py_getitem.
  destruct (i <? 0) eqn:E1; [apply Z.ltb_lt in E1; lia|].
  destruct (0 <=? i) eqn:E2; [|apply Z.leb_gt in E2; lia].
  destruct (i <? Z.of_nat (List.length l)) eqn:E3; [|apply Z.ltb_ge in E3; lia].
  simpl. destruct (nth_error l (Z.to_nat i)) eqn:E.
  - eauto.
  - apply nth_error_None in E. lia.
Qed.


(** X29: as long as no [call_function] node precedes it, the placeholder of
    running index [k] (the number of placeholders before it) is bound to the
    sentinel [placeholder_inps[k]] when [k < len(placeholder_inps)], and
    otherwise to [args[k + offset]] of the kernel's argument list, with
    offset -1 (forward), +3 (joint forward recompute) and +2 (joint
    backward); an index out of the argument list raises [IndexError]. *)
Theorem X29_placeholder_binding_before_calls (args : list obj) (pre : list Node)
    (node : Node) (st : state) :
  no_call_function pre = true ->
  run' pre (init_state args) = Next st ->
  node_op_ node = placeholder ->
  let k := count_placeholders pre in
  cnt st = k /\
  index_to_other_buffers k graph_type = k + role_offset graph_type /\
  (k < Z.of_nat (List.length placeholder_inps) ->
     exists v, nth_error placeholder_inps (Z.to_nat k) = Some v /\
       step' node st =
         Next (mkState (k + 1) (<[node_name node := v]> (env st)) args)) /\
  (Z.of_nat (List.length placeholder_inps) <= k ->
     step' node st =
       match py_getitem args (k + role_offset graph_type) with
       | Ok v => Next (mkState (k + 1) (<[node_name node := v]> (env st)) args)
       | Raise e => Finish (Raise e)
       end).
Proof.
  intros Hnc Hrun Hop k.
  assert (Hcnt : cnt st = k).
  { rewrite (run_cnt _ _ _ Hrun). simpl. reflexivity. }
  assert (Hargs : cur_args st = args).
  { rewrite (run_args_unchanged _ _ _ Hnc Hrun). reflexivity. }
  assert (Hk : 0 <= k) by (unfold k, count_placeholders; lia).
  assert (Hoff : index_to_other_buffers k graph_type = k + role_offset graph_type).
  { destruct graph_type; simpl; lia. }
  repeat split; [exact Hcnt | exact Hoff | |].
  - intros Hlt. destruct (py_getitem_in_range placeholder_inps k) as (v & Hn & Hv).
    { lia. }
    exists v. split; [exact Hn|].
    rewrite (step_placeholder _ _ Hop), Hcnt, Hargs.
    destruct (_ <=? k) eqn:E; [apply Z.leb_le in E; lia|].
    rewrite Hv. reflexivity.
  - intros Hge. rewrite (step_placeholder _ _ Hop), Hcnt, Hargs, Hoff.
    destruct (_ <=? k) eqn:E; [|apply Z.leb_gt in E; lia].
    reflexivity.
Qed.

(** C10: a lifted placeholder is resolved against the current obj of the
    local [args].  That is the kernel's argument list while no
    [call_function] node has been processed; after one, it is the mapped
    argument tuple of the last [call_function] node. *)
Theorem C10_args_shadowed_by_call (args : list obj) (pre : list Node)
    (st : state) :
  run' pre (init_state args) = Next st ->
  (no_call_function pre = true -> cur_args st = args) /\
  (forall pre1 call pre2 st1,
     pre = (pre1 ++ call :: pre2)%list ->
     node_op_ call = call_function ->
     no_call_function pre2 = true ->
     run' pre1 (init_state args) = Next st1 ->
     cur_args st = List.map (map_arg (env st1)) (node_args call)) /\
  (forall node,
     node_op_ node = placeholder ->
     Z.of_nat (List.length placeholder_inps) <= cnt st ->
     step' node st =
       match py_getitem (cur_args st)
               (index_to_other_buffers (cnt st) graph_type) with
       | Ok v => Next (mkState (cnt st + 1) (<[node_name node := v]> (env st))
                         (cur_args st))
       | Raise e => Finish (Raise e)
       end).
Proof.
  intros Hrun. repeat split.
  - intros Hnc. apply (run_args_unchanged _ _ _ Hnc Hrun).
  - intros pre1 call pre2 st1 -> Hop Hnc H1.
    rewrite run_nodes_app, H1 in Hrun. simpl in Hrun.
    destruct (step' call st1) as [st2|] eqn:E; [|discriminate].
    rewrite (run_args_unchanged _ _ _ Hnc Hrun), (step_args _ _ _ E).
    unfold is_op. rewrite Hop. reflexivity.
  - intros node Hop Hge. rewrite (step_placeholder _ _ Hop).
    destruct (_ <=? cnt st) eqn:E; [reflexivity|apply Z.leb_gt in E; lia].
Qed.

(** The traversal of a graph whose first output node is [out] returns
    what the output branch computes in the state the nodes before it leave. *)
Lemma build_at_output (args : list obj) (pre rest : list Node) (out : Node)
    (st : state) :
  run' pre (init_state args) = Next st ->
  node_op_ out = output ->
  build_subgraph_buffer lowerings args placeholder_inps
    (pre ++ out :: rest)%list graph_type =
    (output_node ← select_output_node graph_type out;
     output_buffer ← env_getitem (env st) output_node;
     make_subgraph_buffer output_buffer).
Proof.
  intros Hrun Hop. unfold build_subgraph_buffer.
  rewrite run_nodes_app, Hrun. cbn [run_nodes]. unfold step. rewrite Hop.
  reflexivity.
Qed.

(** The two assertions on the output buffer. *)
Lemma make_subgraph_buffer_boxed (inner : obj) (layout : FlexibleLayout) :
  get_layout inner = Ok layout ->
  make_subgraph_buffer (TensorBox (StorageBox inner)) =
    Ok (mkComputedBuffer None layout inner).
Proof. intros Hl. simpl. rewrite Hl. reflexivity. Qed.

Lemma make_subgraph_buffer_unboxed (v : obj) :
  (forall d, v <> TensorBox (StorageBox d)) ->
  make_subgraph_buffer v = Raise AssertionError.
Proof.
  intros Hv. destruct v as [d| | | | | | | |]; try reflexivity.
  destruct d; try reflexivity. exfalso. eapply Hv. reflexivity.
Qed.

(** A traversal that meets no output node never finishes with a buffer. *)
Lemma run_without_output (nodes : list Node) (st : state)
    (b : ComputedBuffer) :
  no_output nodes = true -> run' nodes st <> Finish (Ok b).
Proof.
  revert st. induction nodes as [|n ns IH]; intros st Hno.
  - simpl. discriminate.
  - simpl in *. apply andb_prop in Hno as [Hn Hns].
    unfold step at 1. unfold is_op in Hn.
    destruct (node_op_ n); simpl in Hn; try discriminate.
    + destruct (if _ <=? _ then _ else _); [apply (IH _ Hns)|discriminate].
    + destruct (lowerings _ _ _); [apply (IH _ Hns)|discriminate].
    + apply (IH _ Hns).
Qed.

(** C4: the output node.  Let [out] be the first output node of the graph
    and [st] the locals when the traversal reaches it.  For the forward and
    joint-forward roles the fused expression is the node [x] that is the
    first argument of [out]; for the joint-backward role it is the node [x]
    that is the first element of the tuple that is the first argument of
    [out].  When [env] holds [TensorBox(StorageBox(inner))] for [x], the
    call returns the [ComputedBuffer] over [inner] with the device, dtype
    and size of [inner]; when it holds anything else, the call raises
    [AssertionError].  A graph without an output node never returns a
    buffer, and raises the [ValueError] when the traversal runs to its
    end. *)
Theorem C4_output_node (args : list obj) :
  let build nodes :=
    build_subgraph_buffer lowerings args placeholder_inps nodes graph_type in
  (forall (pre rest : list Node) (out : Node) (st : state) (x : string)
          (others : list fx_arg) (v : obj),
     run' pre (init_state args) = Next st ->
     node_op_ out = output ->
     match graph_type with
     | FWD | JOINT_FWD => node_args out = ArgNode x :: others
     | JOINT_BWD =>
         exists items, node_args out = ArgTuple (ArgNode x :: items) :: others
     end ->
     env st !! x = Some v ->
     (forall inner layout,
        v = TensorBox (StorageBox inner) -> get_layout inner = Ok layout ->
        build (pre ++ out :: rest)%list =
          Ok (mkComputedBuffer None layout inner)) /\
     ((forall d, v <> TensorBox (StorageBox d)) ->
        build (pre ++ out :: rest)%list = Raise AssertionError)) /\
  (forall nodes : list Node,
     no_output nodes = true ->
     (forall b, build nodes <> Ok b) /\
     (forall st, run' nodes (init_state args) = Next st ->
        build nodes = Raise (ValueError no_output_msg))).
Proof.
  intros build. split.
  - intros pre rest out st x others v Hrun Hop Hargs Hx.
    assert (Hsel : select_output_node graph_type out = Ok (ArgNode x)).
    { unfold select_output_node.
      destruct graph_type; try (rewrite Hargs; reflexivity).
      destruct Hargs as [items ->]. reflexivity. }
    assert (Hb : build (pre ++ out :: rest)%list = make_subgraph_buffer v).
    { unfold build. rewrite (build_at_output args pre rest out st Hrun Hop).
      rewrite Hsel. cbn [mbind result_bind env_getitem]. rewrite Hx.
      reflexivity. }
    split.
    + intros inner layout -> Hl. rewrite Hb.
      apply make_subgraph_buffer_boxed, Hl.
    + intros Hv. rewrite Hb. apply make_subgraph_buffer_unboxed, Hv.
  - intros nodes Hno. split.
    + intros b. unfold build, build_subgraph_buffer.
      pose proof (run_without_output nodes (init_state args) b Hno) as Hne.
      destruct (run' nodes (init_state args)) as [st|r]; [discriminate|].
      intros ->. apply Hne. reflexivity.
    + intros st Hrun. unfold build, build_subgraph_buffer. rewrite Hrun.
      reflexivity.
Qed.

End InlinerFacts.

(** Witness of X29: the sixth placeholder of a forward graph. *)
Lemma X29_placeholder_binding_before_calls_witness :
  let st := state_after demo_lowerings fwd_sentinels FWD fwd_placeholders
              demo_fwd_args in
  no_call_function fwd_placeholders = true /\
  step demo_lowerings fwd_sentinels FWD (ph "late") st =
    Next (mkState 6 (<["late" := demo_tensor "bias0" [4]]> (env st))
            demo_fwd_args).
Proof.
  intros st. split; [reflexivity|].
  destruct (X29_placeholder_binding_before_calls demo_lowerings fwd_sentinels FWD
              demo_fwd_args fwd_placeholders (ph "late") st
              eq_refl eq_refl eq_refl) as (_ & _ & _ & H).
  rewrite H; [reflexivity | vm_compute; discriminate].
Defined.

(** Witness of C10: after the call [mix], the local [args] is its operand
    tuple. *)
Lemma C10_args_shadowed_by_call_witness :
  cur_args (state_after demo_lowerings fwd_sentinels FWD
              (fwd_placeholders ++ [mix_call]) demo_fwd_args) = fwd_sentinels.
Proof.
  destruct (C10_args_shadowed_by_call demo_lowerings fwd_sentinels FWD
              demo_fwd_args (fwd_placeholders ++ [mix_call])
              (state_after demo_lowerings fwd_sentinels FWD
                 (fwd_placeholders ++ [mix_call]) demo_fwd_args)
              eq_refl) as (_ & H & _).
  rewrite (H fwd_placeholders mix_call []
             (state_after demo_lowerings fwd_sentinels FWD fwd_placeholders
                demo_fwd_args) eq_refl eq_refl eq_refl eq_refl).
  reflexivity.
Defined.

(** The six sentinels of the joint graph. *)
Lemma joint_sentinels_run :
  run_nodes demo_lowerings
    (fwd_sentinels ++ [create_placeholder "grad_score_mod" float32 "cuda"])
    JOINT_BWD (fwd_placeholders ++ [ph "grad_score_mod"])
    (init_state demo_bwd_args) =
  Next (state_after demo_lowerings
          (fwd_sentinels ++ [create_placeholder "grad_score_mod" float32 "cuda"])
          JOINT_BWD (fwd_placeholders ++ [ph "grad_score_mod"]) demo_bwd_args).
Proof. vm_compute. reflexivity. Qed.

(** Witness of C4: the joint graph of the identity modification, whose
    output node returns the tuple [(grad_score_mod, None, None, None, None)],
    inlines to the placeholder buffer of [grad_score_mod]; the same graph
    under a table of sentinels that binds [grad_score_mod] to an integer
    raises [AssertionError]; and a graph of placeholders only raises the
    [ValueError]. *)
Lemma C4_output_node_witness :
  build_subgraph_buffer demo_lowerings demo_bwd_args
    (fwd_sentinels ++ [create_placeholder "grad_score_mod" float32 "cuda"])
    identity_joint_graph JOINT_BWD =
    Ok (mkComputedBuffer None (mkFlexibleLayout "cuda" float32 [1])
          (Buffer "grad_score_mod" "cuda" float32 [1])) /\
  build_subgraph_buffer demo_lowerings demo_bwd_args
    (fwd_sentinels ++ [PyInt 0]) identity_joint_graph JOINT_BWD =
    Raise AssertionError /\
  build_subgraph_buffer demo_lowerings demo_fwd_args fwd_sentinels
    fwd_placeholders FWD = Raise (ValueError no_output_msg).
Proof.
  split; [|split].
  - destruct (C4_output_node demo_lowerings
                (fwd_sentinels
                 ++ [create_placeholder "grad_score_mod" float32 "cuda"])
                JOINT_BWD demo_bwd_args) as [H _].
    destruct (H (fwd_placeholders ++ [ph "grad_score_mod"])%list []
                (mkNode "output" output "output"
                   [ArgTuple [ArgNode "grad_score_mod"; ArgNone; ArgNone;
                              ArgNone; ArgNone]] [])
                _ "grad_score_mod" []
                (create_placeholder "grad_score_mod" float32 "cuda")
                joint_sentinels_run eq_refl
                (ex_intro _ [ArgNone; ArgNone; ArgNone; ArgNone] eq_refl)
                eq_refl) as [Hok _].
    apply (Hok (Buffer "grad_score_mod" "cuda" float32 [1])
               (mkFlexibleLayout "cuda" float32 [1]) eq_refl eq_refl).
  - destruct (C4_output_node demo_lowerings (fwd_sentinels ++ [PyInt 0])
                JOINT_BWD demo_bwd_args) as [H _].
    destruct (H (fwd_placeholders ++ [ph "grad_score_mod"])%list []
                (mkNode "output" output "output"
                   [ArgTuple [ArgNode "grad_score_mod"; ArgNone; ArgNone;
                              ArgNone; ArgNone]] [])
                (state_after demo_lowerings (fwd_sentinels ++ [PyInt 0])
                   JOINT_BWD (fwd_placeholders ++ [ph "grad_score_mod"])
                   demo_bwd_args)
                "grad_score_mod" [] (PyInt 0)
                eq_refl eq_refl
                (ex_intro _ [ArgNone; ArgNone; ArgNone; ArgNone] eq_refl)
                eq_refl) as [_ Hbad].
    apply Hbad. intros d. discriminate.
  - destruct (C4_output_node demo_lowerings fwd_sentinels FWD demo_fwd_args)
      as [_ H].
    destruct (H fwd_placeholders eq_refl) as [_ H2].
    apply (H2 (state_after demo_lowerings fwd_sentinels FWD fwd_placeholders
                 demo_fwd_args)).
    reflexivity.
Defined.

(** * Launch planner *)

Lemma cdiv_bounds (x y : Z) :
  0 < y -> (cdiv x y - 1) * y < x <= cdiv x y * y.
Proof.
  intros Hy. unfold cdiv.
  pose proof (Z.div_mod (x + y - 1) y ltac:(lia)) as E.
  pose proof (Z.mod_pos_bound (x + y - 1) y Hy) as B.
  nia.
Qed.

Lemma cdiv_exact (x y : Z) :
  0 < y -> x mod y = 0 -> cdiv x y = x / y.
Proof.
  intros Hy Hm. unfold cdiv.
  pose proof (Z.div_mod x y ltac:(lia)) as E. rewrite Hm in E.
  symmetry. apply (Z.div_unique _ _ _ (y - 1)); [lia|].
  rewrite E at 1. lia.
Qed.

(** C6: the dispatch of the backward template does not follow the split of
    the first grid axis that [flex_attention_backward_grid] makes.  The grid
    allots [cdiv(kv_length, BLOCK_N1)] units to the key/value phase, the
    template sends [pid] to it only below [KV_LEN // BLOCK_N1].  With 64
    queries, 48 keys and tiles of 32 the grid is [(2 + 2, 1, 1)]: the unit of
    index 1, one of the two key/value units of the grid, runs the query
    phase; unit 0 alone runs the key/value phase, on the keys from 0, so that
    no unit computes the gradients of keys 32 to 47; and unit 3 runs the
    query phase on the rows from 64, past the last query. *)
Lemma C6_partial_kv_tile_runs_dq :
  let meta := mkBwdMeta 32 32 32 32 64 false in
  flex_attention_backward_grid 1 1 64 64 48 meta = (2 + 2, 1, 1) /\
  cdiv 48 (BLOCK_N1 meta) = 2 /\
  1 < cdiv 48 (BLOCK_N1 meta) /\
  backward_phase 48 meta 1 = DQ_phase /\
  List.map (fun pid => backward_program 48 meta pid) [0; 1; 2; 3] =
    [Ok (DKDV_phase, 0); Ok (DQ_phase, 0); Ok (DQ_phase, 32);
     Ok (DQ_phase, 64)] /\
  (forall pid, 0 <= pid < 4 ->
     backward_phase 48 meta pid = DKDV_phase ->
     backward_tile_start 48 meta pid + BLOCK_N1 meta <= 32).
Proof.
  cbv zeta. split; [reflexivity|]. split; [reflexivity|].
  split; [reflexivity|]. split; [reflexivity|]. split; [reflexivity|].
  intros pid Hpid.
  assert (Hc : pid = 0 \/ pid = 1 \/ pid = 2 \/ pid = 3) by lia.
  destruct Hc as [-> | [-> | [-> | ->]]]; vm_compute; congruence.
Qed.

(** X30: the forward grid is
    [(ceil(query_length / BLOCK_M), batch * heads, 1)], the backward grid is
    [(ceil(query_length / BLOCK_M2) + ceil(kv_length / BLOCK_N1), 1,
    batch * heads)], and a backward unit runs the key/value phase exactly
    when its first-axis index is below [kv_length // BLOCK_N1]; that is the
    grid's count of key/value units when [BLOCK_N1] divides [kv_length]. *)
Theorem X30_launch_grids (batch_size num_heads num_queries d_model
    num_key_value : Z) (fmeta : fwd_meta) (bmeta : bwd_meta) (pid : Z) :
  0 < BLOCK_M fmeta -> 0 < BLOCK_M2 bmeta -> 0 < BLOCK_N1 bmeta ->
  (exists gm,
     flex_attention_grid batch_size num_heads num_queries d_model fmeta =
       (gm, batch_size * num_heads, 1) /\
     (gm - 1) * BLOCK_M fmeta < num_queries <= gm * BLOCK_M fmeta) /\
  (exists gq gk,
     flex_attention_backward_grid batch_size num_heads num_queries d_model
       num_key_value bmeta = (gq + gk, 1, batch_size * num_heads) /\
     (gq - 1) * BLOCK_M2 bmeta < num_queries <= gq * BLOCK_M2 bmeta /\
     (gk - 1) * BLOCK_N1 bmeta < num_key_value <= gk * BLOCK_N1 bmeta /\
     (num_key_value mod BLOCK_N1 bmeta = 0 ->
        gk = num_key_value / BLOCK_N1 bmeta)) /\
  (backward_phase num_key_value bmeta pid = DKDV_phase <->
     pid < num_key_value / BLOCK_N1 bmeta) /\
  (backward_phase num_key_value bmeta pid = DQ_phase <->
     num_key_value / BLOCK_N1 bmeta <= pid).
Proof.
  intros HM HM2 HN1. split; [|split; [|split]].
  - eexists. split; [reflexivity|]. apply cdiv_bounds, HM.
  - exists (cdiv num_queries (BLOCK_M2 bmeta)),
           (cdiv num_key_value (BLOCK_N1 bmeta)).
    split; [reflexivity|]. split; [apply cdiv_bounds, HM2|].
    split; [apply cdiv_bounds, HN1|]. apply cdiv_exact, HN1.
  - unfold backward_phase, NUM_KV_BLOCKS.
    destruct (_ <=? pid) eqn:E.
    + apply Z.leb_le in E. split; [discriminate|lia].
    + apply Z.leb_gt in E. split; [lia|reflexivity].
  - unfold backward_phase, NUM_KV_BLOCKS.
    destruct (_ <=? pid) eqn:E.
    + apply Z.leb_le in E. split; [lia|reflexivity].
    + apply Z.leb_gt in E. split; [discriminate|lia].
Qed.

(** Witness of X30: 128 queries and 128 keys in tiles of 64. *)
Lemma X30_launch_grids_witness :
  backward_phase 128 (mkBwdMeta 64 64 64 64 64 false) 1 = DKDV_phase <->
  1 < 128 / 64.
Proof.
  destruct (X30_launch_grids 2 4 128 64 128
              (mkFwdMeta 64 64 64 true true true)
              (mkBwdMeta 64 64 64 64 64 false) 1
              eq_refl eq_refl eq_refl) as (_ & _ & H & _).
  exact H.
Defined.

(** * Tiling policy and lowerings *)

Lemma in_maybe_append_choices host candidates c :
  In c (maybe_append_choices host candidates) -> In c candidates.
Proof. unfold maybe_append_choices. intros H. apply filter_In in H. tauto. Qed.

(** A bind that returned went through both of its halves. *)
Lemma bind_ok_inv {A B} (r : result A) (k : A -> result B) (b : B) :
  r ≫= k = Ok b -> exists a, r = Ok a /\ k a = Ok b.
Proof. destruct r as [a|e]; simpl; [eauto | discriminate]. Qed.

Tactic Notation "bind_ok" ident(a) ident(E) "in" hyp(H) :=
  cbv zeta in H; apply bind_ok_inv in H as (a & E & H).

(** The shape of a successful run of [flex_attention_body]. *)
Lemma flex_attention_body_ok host args l :
  flex_attention_body host args = Ok l ->
  exists query key value subgraph other_buffers q nodes head_dim,
    args = query :: key :: value :: subgraph :: other_buffers /\
    get_layout query = Ok q /\
    subgraph_nodes subgraph = Ok nodes /\
    build_subgraph_buffer (lowerings host) args
      (fwd_placeholder_inps (layout_dtype q) (layout_device q)) nodes FWD =
      Ok (fl_subgraph_buffer l) /\
    py_getitem (layout_size q) (-1) = Ok head_dim /\
    fl_layout l =
      mkFixedLayout (layout_device q) (layout_dtype q) (layout_size q)
        (contiguous_strides host (layout_size q)) /\
    fl_logsumexp l =
      empty_strided host (removelast (layout_size q)) float32 (layout_device q) /\
    fl_choices l =
      maybe_append_choices host
        (List.map (fwd_candidate query key value (fl_logsumexp l) (fl_layout l)
                     (fl_subgraph_buffer l) (layout_size q) head_dim)
           (fwd_configs (max_autotune host) (device_capability host)
              (layout_dtype q) head_dim)) /\
    fl_inputs_for_autotuning l =
      ([query; key; value; fl_logsumexp l] ++ other_buffers)%list.
Proof.
  unfold flex_attention_body.
  destruct args as [|query [|key [|value [|subgraph other_buffers]]]];
    try discriminate.
  intros H.
  bind_ok q Eq in H.
  bind_ok nodes En in H.
  bind_ok sb Eb in H.
  bind_ok hd Eh in H.
  cbv zeta in H. injection H as <-. simpl.
  exists query, key, value, subgraph, other_buffers, q, nodes, hd.
  repeat split; assumption.
Qed.

(** The shape of a successful run of [flex_attention_backward_body]. *)
Lemma flex_attention_backward_body_ok host args l :
  flex_attention_backward_body host args = Ok l ->
  exists query key value out logsumexp grad_out fw_graph joint_graph
         other_buffers q k v head_dim kv_len,
    args = query :: key :: value :: out :: logsumexp :: grad_out :: fw_graph
             :: joint_graph :: other_buffers /\
    get_layout query = Ok q /\ get_layout key = Ok k /\
    get_layout value = Ok v /\
    py_getitem (layout_size q) (-1) = Ok head_dim /\
    py_getitem (layout_size k) 2 = Ok kv_len /\
    lowerings host "aten.mul" [out; grad_out] [] = Ok (bl_mul_delta l) /\
    lowerings host "aten.sum" [bl_mul_delta l] [("axis", PyInt (-1))] =
      Ok (bl_delta l) /\
    bl_grad_query l = full host (layout_size q) 0 (layout_dtype q) (layout_device q) /\
    bl_grad_value l =
      empty_strided host (layout_size v) (layout_dtype q) (layout_device q) /\
    bl_choices l =
      maybe_append_choices host
        (List.map
           (bwd_candidate
              [query; key; value; out; logsumexp; bl_delta l; grad_out;
               bl_grad_query l; bl_grad_value l]
              (bl_layout_k l) (bl_fw_subgraph_buffer l)
              (bl_joint_subgraph_buffer l) (bl_grad_query l) (bl_grad_value l)
              (layout_size q ++ [kv_len])%list head_dim)
           (bwd_configs (max_autotune host) (device_capability host)
              (layout_dtype q) head_dim)) /\
    bl_inputs_for_autotuning l =
      ([query; key; value; out; logsumexp; bl_delta l; grad_out;
        bl_grad_query l; bl_grad_value l] ++ other_buffers)%list.
Proof.
  unfold flex_attention_backward_body.
  destruct args as [|query [|key [|value [|out [|logsumexp [|grad_out
    [|fw_graph [|joint_graph other_buffers]]]]]]]]; try discriminate.
  intros H.
  bind_ok q Eq in H.
  bind_ok fw_nodes E1 in H.
  bind_ok fsb E2 in H.
  bind_ok joint_nodes E3 in H.
  bind_ok jsb E4 in H.
  bind_ok k Ek in H.
  bind_ok md Em in H.
  bind_ok dl Es in H.
  bind_ok v Ev in H.
  bind_ok hd Eh in H.
  bind_ok kv Ekv in H.
  cbv zeta in H. injection H as <-. simpl.
  exists query, key, value, out, logsumexp, grad_out, fw_graph, joint_graph,
    other_buffers, q, k, v, hd, kv.
  repeat split; assumption.
Qed.












(** * The forward template *)

Local Open Scope R_scope.

(** ** Exact arithmetic on finite floats *)

Lemma exp2_add (a b : R) : exp2 (a + b) = exp2 a * exp2 b.
Proof. unfold exp2. rewrite <- exp_plus. f_equal. ring. Qed.

Lemma exp2_0 : exp2 0 = 1.
Proof. unfold exp2. rewrite Rmult_0_l. apply exp_0. Qed.

Lemma exp2_pos (a : R) : 0 < exp2 a.
Proof. apply exp_pos. Qed.

Lemma exp2_neg (a : R) : exp2 a * exp2 (- a) = 1.
Proof. rewrite <- exp2_add, Rplus_opp_r. apply exp2_0. Qed.

Lemma ln2_pos : 0 < ln 2.
Proof. rewrite <- ln_1. apply ln_increasing; lra. Qed.

Lemma log2_exp2 (a : R) : log2 (exp2 a) = a.
Proof.
  unfold log2, exp2. rewrite ln_exp. field. pose proof ln2_pos. lra.
Qed.

Lemma log2_mult (a b : R) : 0 < a -> 0 < b -> log2 (a * b) = log2 a + log2 b.
Proof.
  intros Ha Hb. unfold log2. rewrite ln_mult by assumption.
  field. pose proof ln2_pos. lra.
Qed.

Lemma fdiv_fin (a b : R) : b <> 0 -> fdiv (Fin a) (Fin b) = Fin (a / b).
Proof. intros Hb. simpl. destruct (Req_dec_T b 0); [contradiction|reflexivity]. Qed.

Lemma fdiv_zero_zero (a b : R) : a = 0 -> b = 0 -> fdiv (Fin a) (Fin b) = NaN.
Proof.
  intros -> ->. simpl. destruct (Req_dec_T 0 0) as [_|N]; [|contradiction].
  unfold Rsign. destruct (Rlt_dec 0 0) as [L|_]; [lra|]. reflexivity.
Qed.

Lemma flog2_pos (a : R) : 0 < a -> flog2 (Fin a) = Fin (log2 a).
Proof.
  intros Ha. simpl. destruct (Req_dec_T a 0); [lra|].
  destruct (Rlt_dec a 0); [lra|reflexivity].
Qed.

Lemma flog2_zero (a : R) : a = 0 -> flog2 (Fin a) = NInf.
Proof. intros ->. simpl. destruct (Req_dec_T 0 0); [reflexivity|contradiction]. Qed.

Lemma Fin_eq (a b : R) : a = b -> Fin a = Fin b.
Proof. congruence. Qed.

(** ** Reductions over finite rows *)

Lemma rsum_ext (f g : nat -> R) (n : nat) :
  (forall k, (k < n)%nat -> f k = g k) -> rsum f n = rsum g n.
Proof.
  induction n as [|n IH]; intros H; simpl; [reflexivity|].
  rewrite IH, (H n); [reflexivity | lia | intros; apply H; lia].
Qed.

Lemma rsum_app (f : nat -> R) (a b : nat) :
  rsum f (a + b) = rsum f a + rsum (fun j => f (a + j)%nat) b.
Proof.
  induction b as [|b IH]; simpl.
  - rewrite Nat.add_0_r. ring.
  - rewrite Nat.add_succ_r. simpl. rewrite IH. ring.
Qed.

Lemma rsum_scale (f : nat -> R) (c : R) (n : nat) :
  rsum (fun k => f k * c) n = rsum f n * c.
Proof. induction n as [|n IH]; simpl; [ring|]. rewrite IH. ring. Qed.

Lemma rsum_zero (f : nat -> R) (n : nat) :
  (forall k, (k < n)%nat -> f k = 0) -> rsum f n = 0.
Proof.
  induction n as [|n IH]; intros H; simpl; [reflexivity|].
  rewrite IH, (H n); [ring | lia | intros; apply H; lia].
Qed.

Lemma rsum_nonneg (f : nat -> R) (n : nat) :
  (forall k, (k < n)%nat -> 0 <= f k) -> 0 <= rsum f n.
Proof.
  induction n as [|n IH]; intros H; simpl; [lra|].
  assert (0 <= rsum f n) by (apply IH; intros; apply H; lia).
  assert (0 <= f n) by (apply H; lia). lra.
Qed.

Lemma rsum_pos (f : nat -> R) (n k : nat) :
  (forall j, (j < n)%nat -> 0 <= f j) -> (k < n)%nat -> 0 < f k ->
  0 < rsum f n.
Proof.
  induction n as [|n IH]; intros H Hk Hpos; [lia|]. simpl.
  assert (0 <= rsum f n) by (apply rsum_nonneg; intros; apply H; lia).
  assert (0 <= f n) by (apply H; lia).
  destruct (Nat.eq_dec k n) as [->|Hne]; [lra|].
  assert (0 < rsum f n) by (apply IH; [intros; apply H; lia | lia | assumption]).
  lra.
Qed.

(** A row of finite floats sums to the finite float of the real sum. *)
Lemma tl_sum_fin (n : nat) (row : block1) (f : nat -> R) :
  (forall k, (k < n)%nat -> row k = Fin (f k)) ->
  tl_sum n row = Fin (rsum f n).
Proof.
  induction n as [|n IH]; intros H; simpl; [reflexivity|].
  rewrite IH, (H n); [reflexivity | lia | intros; apply H; lia].
Qed.

(** The maximum of a row of finite or masked scores is [-inf] only when the
    whole row is masked, and is finite otherwise. *)
Lemma tl_max_cases (n : nat) (row : block1) :
  (forall k, (k < n)%nat -> finite_or_masked (row k)) ->
  (tl_max n row = NInf /\ forall k, (k < n)%nat -> row k = NInf) \/
  (is_fin (tl_max n row) /\ exists k, (k < n)%nat /\ is_fin (row k)).
Proof.
  induction n as [|n IH]; intros H.
  - left. split; [reflexivity | intros; lia].
  - destruct n as [|n'].
    + simpl. destruct (H O ltac:(lia)) as [E|E].
      * left. split; [exact E|]. intros k Hk. replace k with O by lia. exact E.
      * right. split; [exact E|]. exists O. split; [lia|exact E].
    + change (tl_max (S (S n')) row)
        with (fmaximum (tl_max (S n') row) (row (S n'))).
      destruct (IH ltac:(intros; apply H; lia))
        as [[E Hall]|[[x E] (k0 & Hk0 & Hf0)]];
        rewrite E;
        destruct (H (S n') ltac:(lia)) as [E'|[y E']]; rewrite E'.
      * left. split; [reflexivity|]. intros k Hk.
        destruct (Nat.eq_dec k (S n')) as [->|]; [exact E'|apply Hall; lia].
      * right. split; [exists y; reflexivity|].
        exists (S n'). split; [lia|]. exists y. exact E'.
      * right. split; [exists x; reflexivity|].
        exists k0. split; [lia|exact Hf0].
      * right. split; [exists (Rmax x y); reflexivity|].
        exists k0. split; [lia|exact Hf0].
Qed.

(** ** The loop of [range(0, KV_LEN, BLOCK_N)] *)

Lemma range_from_tiles (BN T fuel t0 : nat) :
  (0 < BN)%nat -> (t0 <= T)%nat -> (T - t0 <= fuel)%nat ->
  range_from fuel (t0 * BN) (T * BN) BN =
    List.map (fun t => (t * BN)%nat) (seq t0 (T - t0)).
Proof.
  intros HBN. revert t0. induction fuel as [|fuel IH]; intros t0 Ht Hf.
  - replace (T - t0)%nat with O by lia. reflexivity.
  - simpl. destruct (t0 * BN <? T * BN)%nat eqn:E.
    + apply Nat.ltb_lt in E.
      assert (t0 < T)%nat by nia.
      replace (T - t0)%nat with (S (T - S t0)) by lia. simpl. f_equal.
      replace (t0 * BN + BN)%nat with (S t0 * BN)%nat by lia.
      apply IH; lia.
    + apply Nat.ltb_ge in E.
      assert (T <= t0)%nat by nia.
      replace (T - t0)%nat with O by lia. reflexivity.
Qed.

Lemma py_range_tiles (BN T : nat) :
  (0 < BN)%nat ->
  py_range 0 (T * BN) BN = List.map (fun t => (t * BN)%nat) (seq 0 T).
Proof.
  intros HBN. unfold py_range.
  pose proof (range_from_tiles BN T (T * BN) 0 HBN ltac:(lia) ltac:(nia)) as E.
  rewrite Nat.sub_0_r in E. exact E.
Qed.

Local Close Scope R_scope.

(** [range(0, hi, BN)] visits the tile starts below [hi]: one tile more than
    [hi // BN] when [BN] does not divide [hi]. *)
Lemma range_from_ceil (BN hi T fuel t0 : nat) :
  (0 < BN)%nat -> (forall t, (t * BN < hi)%nat <-> (t < T)%nat) ->
  (t0 <= T)%nat -> (T - t0 <= fuel)%nat ->
  range_from fuel (t0 * BN) hi BN =
    List.map (fun t => (t * BN)%nat) (seq t0 (T - t0)).
Proof.
  intros HBN Hiff. revert t0. induction fuel as [|fuel IH]; intros t0 Ht Hf.
  - replace (T - t0)%nat with O by lia. reflexivity.
  - simpl. destruct (t0 * BN <? hi)%nat eqn:E.
    + apply Nat.ltb_lt, Hiff in E.
      replace (T - t0)%nat with (S (T - S t0)) by lia. simpl. f_equal.
      replace (t0 * BN + BN)%nat with (S t0 * BN)%nat by lia.
      apply IH; lia.
    + apply Nat.ltb_ge in E.
      assert (~ (t0 < T)%nat) by (intros C; apply Hiff in C; lia).
      replace (T - t0)%nat with O by lia. reflexivity.
Qed.

Lemma ceil_tiles (BN hi t : nat) :
  (0 < BN)%nat -> ((t * BN < hi)%nat <-> (t < (hi + BN - 1) / BN)%nat).
Proof.
  intros HBN. split; intros Ht.
  - apply (Nat.lt_le_trans _ (S t)); [lia|].
    apply Nat.div_le_lower_bound; lia.
  - pose proof (Nat.Div0.mul_div_le (hi + BN - 1) BN). nia.
Qed.

Lemma py_range_ceil (BN hi : nat) :
  (0 < BN)%nat ->
  py_range 0 hi BN = py_range 0 ((hi + BN - 1) / BN * BN) BN.
Proof.
  intros HBN. rewrite (py_range_tiles _ _ HBN). unfold py_range.
  pose proof (range_from_ceil BN hi ((hi + BN - 1) / BN) hi 0 HBN
                (fun t => ceil_tiles BN hi t HBN) ltac:(lia)) as E.
  rewrite Nat.sub_0_r in E. apply E.
  destruct ((hi + BN - 1) / BN)%nat as [|T'] eqn:ET; [lia|].
  pose proof (proj2 (ceil_tiles BN hi T' HBN) ltac:(lia)). nia.
Qed.


Local Open Scope R_scope.

(** ** The online softmax, one row at a time *)

Lemma weight2_nonneg (score : nat -> fp) (n : nat) : 0 <= weight2 score n.
Proof.
  unfold weight2. destruct (score n); simpl; try lra.
  pose proof (exp2_pos r). lra.
Qed.

Lemma weight2_masked (score : nat -> fp) (n : nat) :
  score n = NInf -> weight2 score n = 0.
Proof. unfold weight2. intros ->. reflexivity. Qed.

Lemma weight2_fin (score : nat -> fp) (n : nat) :
  is_fin (score n) -> 0 < weight2 score n.
Proof. unfold weight2. intros [r ->]. simpl. apply exp2_pos. Qed.

Lemma fexp2_weight2 (score : nat -> fp) (n : nat) :
  finite_or_masked (score n) -> fexp2 (score n) = Fin (weight2 score n).
Proof. unfold weight2. intros [->|[r ->]]; reflexivity. Qed.

(** [exp2(x - m)] for a finite [m] and a finite or masked [x]. *)
Lemma fexp2_shift (x : fp) (mu : R) :
  finite_or_masked x ->
  fexp2 (fsub x (Fin mu)) = Fin (fin_val (fexp2 x) * exp2 (- mu)).
Proof.
  intros [->|[r ->]]; simpl; apply Fin_eq; [ring|].
  apply exp2_add.
Qed.

(** One update of a row whose new running maximum is finite. *)
Lemma row_update_finite (safe : bool) (BN : nat) (post : block1) (vt : block2)
    (mi li : fp) (ac : block1) (W c mu' : R) (A : nat -> R) :
  (forall j, (j < BN)%nat -> finite_or_masked (post j)) ->
  (forall j d, (j < BN)%nat -> is_fin (vt j d)) ->
  fmaximum mi (tl_max BN post) = Fin mu' ->
  finite_or_masked mi ->
  li = Fin (W * c) ->
  (forall d, ac d = Fin (A d * c)) ->
  W * (c * fin_val (fexp2 mi)) = W ->
  (forall d, A d * (c * fin_val (fexp2 mi)) = A d) ->
  let r := row_update safe BN post vt mi li ac in
  fst (fst r) = Fin mu' /\
  snd (fst r) = Fin ((W + rsum (weight2 post) BN) * exp2 (- mu')) /\
  forall d,
    snd r d =
      Fin ((A d + rsum (fun j => weight2 post j * fin_val (vt j d)) BN)
           * exp2 (- mu')).
Proof.
  intros Hpost Hvt Hmax Hmi Hli Hac HW HA r.
  assert (Halpha :
    (if negb safe
     then tl_where (eq_neg_inf (Fin mu')) (Fin 0) (fexp2 (fsub mi (Fin mu')))
     else fexp2 (fsub mi (Fin mu'))) =
    Fin (fin_val (fexp2 mi) * exp2 (- mu'))).
  { rewrite <- (fexp2_shift mi mu' Hmi). destruct safe; reflexivity. }
  assert (Hp : forall j, (j < BN)%nat ->
    (if negb safe
     then tl_where (eq_neg_inf (Fin mu')) (Fin 0)
            (fexp2 (fsub (post j) (Fin mu')))
     else fexp2 (fsub (post j) (Fin mu'))) =
    Fin (weight2 post j * exp2 (- mu'))).
  { intros j Hj. unfold weight2.
    rewrite <- (fexp2_shift (post j) mu' (Hpost j Hj)).
    destruct safe; reflexivity. }
  subst r. unfold row_update. rewrite Hmax. cbn [fst snd].
  split; [reflexivity|]. rewrite Halpha, Hli. split.
  - rewrite (tl_sum_fin BN _ (fun j => weight2 post j * exp2 (- mu')) Hp).
    simpl. apply Fin_eq. rewrite rsum_scale.
    transitivity (W * (c * fin_val (fexp2 mi)) * exp2 (- mu')
                  + rsum (weight2 post) BN * exp2 (- mu')); [ring|].
    rewrite HW. ring.
  - intros d. rewrite Hac.
    rewrite (tl_sum_fin BN _
               (fun j => weight2 post j * fin_val (vt j d) * exp2 (- mu'))).
    + simpl. apply Fin_eq. rewrite rsum_scale.
      transitivity (A d * (c * fin_val (fexp2 mi)) * exp2 (- mu')
                    + rsum (fun j => weight2 post j * fin_val (vt j d)) BN
                      * exp2 (- mu')); [ring|].
      rewrite HA. ring.
    + intros j Hj. rewrite (Hp j Hj).
      destruct (Hvt j d Hj) as [x ->]. simpl. apply Fin_eq. ring.
Qed.

(** One update of a row that has seen only masked keys and sees only masked
    keys again, with the safety check compiled in. *)
Lemma row_update_masked (BN : nat) (post : block1) (vt : block2)
    (li : fp) (ac : block1) (l0 : R) (a0 : nat -> R) :
  (forall j, (j < BN)%nat -> post j = NInf) ->
  (forall j d, (j < BN)%nat -> is_fin (vt j d)) ->
  li = Fin l0 -> (forall d, ac d = Fin (a0 d)) ->
  let r := row_update false BN post vt NInf li ac in
  fst (fst r) = NInf /\ snd (fst r) = Fin 0 /\ forall d, snd r d = Fin 0.
Proof.
  intros Hpost Hvt Hli Hac r.
  assert (Hmax : tl_max BN post = NInf).
  { destruct (tl_max_cases BN post) as [[E _]|[_ (k & Hk & [x Hx])]].
    - intros k Hk. left. apply Hpost, Hk.
    - exact E.
    - rewrite (Hpost k Hk) in Hx. discriminate. }
  subst r. unfold row_update. rewrite Hmax. cbn [fst snd fmaximum negb eq_neg_inf tl_where].
  split; [reflexivity|]. rewrite Hli. split.
  - rewrite (tl_sum_fin BN _ (fun _ => 0)) by reflexivity.
    simpl. apply Fin_eq. rewrite rsum_zero by reflexivity. ring.
  - intros d. rewrite Hac.
    rewrite (tl_sum_fin BN _ (fun j => 0 * fin_val (vt j d))).
    + simpl. apply Fin_eq. rewrite rsum_zero by (intros; ring). ring.
    + intros j Hj. destruct (Hvt j d Hj) as [x ->]. reflexivity.
Qed.

(** One update of a row, in every case the loop can be in. *)
Lemma row_update_inv (safe : bool) (BN : nat) (post : block1) (vt : block2)
    (mi li : fp) (ac : block1) (W c : R) (A : nat -> R) :
  (forall j, (j < BN)%nat -> finite_or_masked (post j)) ->
  (forall j d, (j < BN)%nat -> is_fin (vt j d)) ->
  li = Fin (W * c) ->
  (forall d, ac d = Fin (A d * c)) ->
  (mi = NInf /\ W = 0 /\ (forall d, A d = 0) /\
   (safe = true -> exists j, (j < BN)%nat /\ is_fin (post j))) \/
  (exists mu, mi = Fin mu /\ c = exp2 (- mu) /\ 0 < W) ->
  let r := row_update safe BN post vt mi li ac in
  exists c',
    snd (fst r) = Fin ((W + rsum (weight2 post) BN) * c') /\
    (forall d,
       snd r d =
         Fin ((A d + rsum (fun j => weight2 post j * fin_val (vt j d)) BN) * c')) /\
    ((fst (fst r) = NInf /\ mi = NInf /\ safe = false /\
      forall j, (j < BN)%nat -> post j = NInf) \/
     (exists mu', fst (fst r) = Fin mu' /\ c' = exp2 (- mu') /\
        0 < W + rsum (weight2 post) BN)).
Proof.
  intros Hpost Hvt Hli Hac Hst r.
  assert (Hnn : 0 <= rsum (weight2 post) BN).
  { apply rsum_nonneg. intros. apply weight2_nonneg. }
  destruct (tl_max_cases BN post Hpost)
    as [[Emax Hall]|[[x Emax] (k & Hk & Hfin)]];
    destruct Hst as [(Emi & HW & HA & Hs1)|(mu & Emi & Ec & HWpos)].
  - (* masked so far, masked tile *)
    destruct safe.
    { destruct (Hs1 eq_refl) as (j & Hj & [y Hy]).
      rewrite (Hall j Hj) in Hy. discriminate. }
    subst mi.
    destruct (row_update_masked BN post vt li ac (W * c) (fun d => A d * c)
                Hall Hvt Hli Hac) as (E1 & E2 & E3).
    exists 1. fold r in E1, E2, E3. split; [|split].
    + rewrite E2. apply Fin_eq.
      rewrite (rsum_zero (weight2 post)) by (intros; apply weight2_masked, Hall; assumption).
      rewrite HW. ring.
    + intros d. rewrite E3. apply Fin_eq.
      rewrite rsum_zero, HA; [ring|].
      intros j Hj. rewrite weight2_masked by (apply Hall, Hj). ring.
    + left. repeat split; assumption.
  - (* finite maximum so far, masked tile *)
    destruct (row_update_finite safe BN post vt mi li ac W c mu A Hpost Hvt)
      as (E1 & E2 & E3); try assumption.
    { rewrite Emi, Emax. reflexivity. }
    { right. exists mu. exact Emi. }
    { rewrite Emi, Ec. simpl. rewrite (Rmult_comm (exp2 (- mu))), exp2_neg. ring. }
    { intros d. rewrite Emi, Ec. simpl.
      rewrite (Rmult_comm (exp2 (- mu))), exp2_neg. ring. }
    exists (exp2 (- mu)). fold r in E1, E2, E3.
    split; [exact E2|]. split; [exact E3|].
    right. exists mu. repeat split; [exact E1 | lra].
  - (* masked so far, a finite score in the tile *)
    destruct (row_update_finite safe BN post vt mi li ac W c x A Hpost Hvt)
      as (E1 & E2 & E3); try assumption.
    { rewrite Emi, Emax. reflexivity. }
    { left. exact Emi. }
    { rewrite HW. ring. }
    { intros d. rewrite HA. ring. }
    exists (exp2 (- x)). fold r in E1, E2, E3.
    split; [exact E2|]. split; [exact E3|].
    right. exists x. repeat split; [exact E1|].
    assert (0 < rsum (weight2 post) BN).
    { apply (rsum_pos _ _ k); [intros; apply weight2_nonneg | exact Hk |].
      apply weight2_fin, Hfin. }
    lra.
  - (* finite maximum so far, a finite score in the tile *)
    destruct (row_update_finite safe BN post vt mi li ac W c (Rmax mu x) A
                Hpost Hvt) as (E1 & E2 & E3); try assumption.
    { rewrite Emi, Emax. reflexivity. }
    { right. exists mu. exact Emi. }
    { rewrite Emi, Ec. simpl. rewrite (Rmult_comm (exp2 (- mu))), exp2_neg. ring. }
    { intros d. rewrite Emi, Ec. simpl.
      rewrite (Rmult_comm (exp2 (- mu))), exp2_neg. ring. }
    exists (exp2 (- Rmax mu x)). fold r in E1, E2, E3.
    split; [exact E2|]. split; [exact E3|].
    right. exists (Rmax mu x). repeat split; [exact E1 | lra].
Qed.

(** The same for one column of the accumulator: only the values of that
    column enter it. *)
Lemma row_update_inv_col (safe : bool) (BN : nat) (post : block1) (vt : block2)
    (mi li : fp) (ac : block1) (W c A : R) (d : nat) :
  (forall j, (j < BN)%nat -> finite_or_masked (post j)) ->
  (forall j, (j < BN)%nat -> is_fin (vt j d)) ->
  li = Fin (W * c) ->
  ac d = Fin (A * c) ->
  (mi = NInf /\ W = 0 /\ A = 0 /\
   (safe = true -> exists j, (j < BN)%nat /\ is_fin (post j))) \/
  (exists mu, mi = Fin mu /\ c = exp2 (- mu) /\ 0 < W) ->
  let r := row_update safe BN post vt mi li ac in
  exists c',
    snd (fst r) = Fin ((W + rsum (weight2 post) BN) * c') /\
    snd r d =
      Fin ((A + rsum (fun j => weight2 post j * fin_val (vt j d)) BN) * c') /\
    ((fst (fst r) = NInf /\ mi = NInf /\ safe = false /\
      forall j, (j < BN)%nat -> post j = NInf) \/
     (exists mu', fst (fst r) = Fin mu' /\ c' = exp2 (- mu') /\
        0 < W + rsum (weight2 post) BN)).
Proof.
  intros Hpost Hvt Hli Hac Hst r.
  destruct (row_update_inv safe BN post (fun j _ => vt j d) mi li
              (fun _ => ac d) W c (fun _ => A)) as (c' & E1 & E2 & E3).
  - exact Hpost.
  - intros j _ Hj. apply Hvt, Hj.
  - exact Hli.
  - intros _. exact Hac.
  - destruct Hst as [(Emi & HW & HA & Hs1)|Hst]; [left|right; exact Hst].
    repeat split; auto.
  - exists c'. split; [exact E1|]. split; [exact (E2 d)|exact E3].
Qed.

(** ** From the tile to its rows, and through the loop *)

Section OnlineSoftmax.

Variable modification : score_mod.
Variables Q K V : memory.
Variables sq sk sv : strides.
Variables H Q_LEN KV_LEN : nat.
Variable meta : fwd_meta.
Variables start_m off_hz : nat.
(** The row and the column of the tile that are followed, and the number
    of key tiles. *)
Variables i col T : nat.

#[local] Abbreviation b := (off_hz / H)%nat.
#[local] Abbreviation h := (off_hz mod H)%nat.
#[local] Abbreviation m := (start_m * BM meta + i)%nat.
(** The tensors as the program reads them. *)
#[local] Abbreviation Qr := (as_read Q (stride_h sq) sq H).
#[local] Abbreviation Kr := (as_read K (stride_h sk) sk H).
#[local] Abbreviation Vr := (as_read V (stride_h sk) sv H).
#[local] Abbreviation s := (scaled_score modification Qr Kr meta b h m).
#[local] Abbreviation v := (fun n => fin_val (Vr b h n col)).
#[local] Abbreviation body :=
  (loop_body modification Q K V sq sk sv H meta start_m off_hz).
#[local] Abbreviation inv :=
  (fun t st => row_invariant s v (ROWS_GUARANTEED_SAFE meta) (BN meta) t st
                 i col).

Lemma head_of_program : (b * H + h)%nat = off_hz.
Proof. pose proof (Nat.div_mod_eq off_hz H). lia. Qed.

(** The three loads, at the indices of the tensors as read. *)
Lemma q_block_as_read :
  q_block Q sq meta start_m off_hz =
  fun i' d => fmul (Qr b h (start_m * BM meta + i')%nat d) (Fin (qk_scale meta)).
Proof.
  apply functional_extensionality. intros i'.
  apply functional_extensionality. intros d.
  unfold q_block, block_ptr_load, as_read, q_offset.
  rewrite head_of_program. reflexivity.
Qed.

Lemma k_load_as_read (start_n : nat) :
  block_ptr_load K (kv_offset sk off_hz) (stride_d sk) (stride_m sk) 0 start_n =
  fun d j => Kr b h (start_n + j)%nat d.
Proof.
  apply functional_extensionality. intros d.
  apply functional_extensionality. intros j.
  unfold block_ptr_load, as_read, kv_offset.
  rewrite head_of_program. f_equal. lia.
Qed.

Lemma v_load_as_read (start_n : nat) :
  block_ptr_load V (kv_offset sk off_hz) (stride_m sv) (stride_d sv) start_n 0 =
  fun j d => Vr b h (start_n + j)%nat d.
Proof.
  apply functional_extensionality. intros j.
  apply functional_extensionality. intros d.
  unfold block_ptr_load, as_read, kv_offset.
  rewrite head_of_program. reflexivity.
Qed.

(** Row [i] of the state after the loop body is the row update of row [i]
    of the state before, on the scores and values at the absolute key
    indices [start_n + j]: the block pointers and [start_n] agree. *)
Lemma loop_body_row (st : loop_state) (start_n : nat) :
  K_block_ptr st = start_n -> V_block_ptr st = start_n ->
  let r := row_update (ROWS_GUARANTEED_SAFE meta) (BN meta)
             (fun j => s (start_n + j)%nat)
             (fun j d => Vr b h (start_n + j)%nat d)
             (m_i st i) (l_i st i) (acc st i) in
  m_i (body st start_n) i = fst (fst r) /\
  l_i (body st start_n) i = snd (fst r) /\
  (forall d, acc (body st start_n) i d = snd r d) /\
  K_block_ptr (body st start_n) = (start_n + BN meta)%nat /\
  V_block_ptr (body st start_n) = (start_n + BN meta)%nat.
Proof.
  intros HK HVp. destruct st as [mi li ac kp vp]. simpl in HK, HVp. subst kp vp.
  unfold loop_body, row_update.
  cbn [m_i l_i acc K_block_ptr V_block_ptr fst snd].
  rewrite q_block_as_read, k_load_as_read, v_load_as_read.
  destruct (ROWS_GUARANTEED_SAFE meta); cbn [negb];
    repeat split; reflexivity.
Qed.

Hypothesis HBN : (0 < BN meta)%nat.
Hypothesis HKV : KV_LEN = (T * BN meta)%nat.
Hypothesis Hs : forall n, (n < KV_LEN)%nat -> finite_or_masked (s n).
Hypothesis HV : forall n, (n < KV_LEN)%nat -> is_fin (Vr b h n col).
Hypothesis Hsafe :
  ROWS_GUARANTEED_SAFE meta = true ->
  exists j, (j < BN meta)%nat /\ is_fin (s j).

Lemma inv_init : inv O loop_init.
Proof.
  unfold row_invariant, loop_init. simpl.
  split; [reflexivity|]. split; [reflexivity|].
  exists 1. split; [apply Fin_eq; ring|]. split; [apply Fin_eq; ring|].
  left. split; [reflexivity|]. split; [intros; lia | reflexivity].
Qed.

Lemma inv_step (t : nat) (st : loop_state) :
  (t < T)%nat -> inv t st -> inv (S t) (body st (t * BN meta)%nat).
Proof.
  intros Ht (HK & HVp & c & Hl & Hacc & Hm).
  destruct (loop_body_row st (t * BN meta)%nat HK HVp)
    as (Em & El & Ea & EK & EV).
  assert (Hin : forall j, (j < BN meta)%nat -> (t * BN meta + j < KV_LEN)%nat).
  { intros j Hj. rewrite HKV. nia. }
  assert (Hst :
    (m_i st i = NInf /\ rsum (weight2 s) (t * BN meta) = 0 /\
     rsum (fun n => weight2 s n * v n) (t * BN meta) = 0 /\
     (ROWS_GUARANTEED_SAFE meta = true ->
      exists j, (j < BN meta)%nat /\ is_fin (s (t * BN meta + j)%nat))) \/
    (exists mu, m_i st i = Fin mu /\ c = exp2 (- mu) /\
       0 < rsum (weight2 s) (t * BN meta))).
  { destruct Hm as [(E & Hall & Hz)|Hm]; [left|right; exact Hm].
    split; [exact E|]. split; [|split].
    - apply rsum_zero. intros n Hn. apply weight2_masked, Hall, Hn.
    - apply rsum_zero. intros n Hn.
      rewrite weight2_masked by (apply Hall, Hn). ring.
    - intros Hsf. rewrite (Hz Hsf). exact (Hsafe Hsf). }
  destruct (row_update_inv_col (ROWS_GUARANTEED_SAFE meta) (BN meta)
              (fun j => s (t * BN meta + j)%nat)
              (fun j d => Vr b h (t * BN meta + j)%nat d)
              (m_i st i) (l_i st i) (acc st i)
              (rsum (weight2 s) (t * BN meta)) c
              (rsum (fun n => weight2 s n * v n) (t * BN meta)) col)
    as (c' & El' & Ea' & Hm'); try assumption.
  { intros j Hj. apply Hs, Hin, Hj. }
  { intros j Hj. apply HV, Hin, Hj. }
  unfold row_invariant.
  replace (S t * BN meta)%nat with (t * BN meta + BN meta)%nat by lia.
  split; [exact EK|]. split; [exact EV|].
  exists c'. split; [|split].
  - rewrite El, El'. apply Fin_eq. rewrite rsum_app. reflexivity.
  - rewrite Ea, Ea'. apply Fin_eq. rewrite rsum_app. reflexivity.
  - rewrite Em. destruct Hm' as [(E1 & E2 & E3 & E4)|(mu' & E1 & E2 & E3)].
    + left. split; [exact E1|]. split.
      * intros n Hn.
        destruct Hm as [(_ & Hall & _)|(mu & Emu & _)];
          [|rewrite Emu in E2; discriminate].
        destruct (Nat.lt_ge_cases n (t * BN meta)) as [Hlt|Hge];
          [apply Hall, Hlt|].
        replace n with (t * BN meta + (n - t * BN meta))%nat by lia.
        apply E4. lia.
      * intros Hsf. rewrite E3 in Hsf. discriminate.
    + right. exists mu'. split; [exact E1|]. split; [exact E2|].
      rewrite rsum_app. exact E3.
Qed.

Lemma inv_loop (t0 n : nat) (st : loop_state) :
  (t0 + n <= T)%nat -> inv t0 st ->
  inv (t0 + n)%nat
    (fold_left body (List.map (fun t => (t * BN meta)%nat) (seq t0 n)) st).
Proof.
  revert t0 st. induction n as [|n IH]; intros t0 st Hle Hinv.
  - rewrite Nat.add_0_r. exact Hinv.
  - simpl. replace (t0 + S n)%nat with (S t0 + n)%nat by lia.
    apply IH; [lia|]. apply inv_step; [lia|exact Hinv].
Qed.

Lemma inv_kv_loop :
  inv T (kv_loop modification Q K V sq sk sv H KV_LEN meta start_m off_hz).
Proof.
  unfold kv_loop. rewrite HKV, (py_range_tiles _ _ HBN).
  apply (inv_loop O T); [lia|apply inv_init].
Qed.

(** The tiled loop computes, for its row, the untiled softmax in base 2 of
    the scores at the absolute indices, and the base-2 logarithm of the sum
    of their weights. *)
Lemma kernel_row_is_direct :
  let r := flex_attention_kernel modification Q K V sq sk sv H Q_LEN KV_LEN
             meta start_m off_hz in
  out_acc r i col = direct_attention s Vr KV_LEN b h col /\
  match out_lse r with
  | Some lse => OUTPUT_LOGSUMEXP meta = true /\
                lse i = direct_logsumexp2 s KV_LEN
  | None => OUTPUT_LOGSUMEXP meta = false
  end /\
  out_idx_m r i = m /\
  out_mask r i = (m <? Q_LEN)%nat.
Proof.
  intros r. subst r. unfold flex_attention_kernel.
  cbn [out_acc out_lse out_idx_m out_mask].
  destruct inv_kv_loop as (_ & _ & c & Hl & Hacc & Hm).
  rewrite <- HKV in Hl, Hacc, Hm.
  assert (HW : tl_sum KV_LEN (fun n => fexp2 (s n)) =
               Fin (rsum (weight2 s) KV_LEN)).
  { apply tl_sum_fin. intros n Hn. apply fexp2_weight2, Hs, Hn. }
  assert (HA : tl_sum KV_LEN (fun n => fmul (fexp2 (s n)) (Vr b h n col)) =
               Fin (rsum (fun n => weight2 s n * v n) KV_LEN)).
  { apply tl_sum_fin. intros n Hn.
    rewrite (fexp2_weight2 s n (Hs n Hn)).
    destruct (HV n Hn) as [x ->]. reflexivity. }
  unfold direct_attention, direct_logsumexp2. rewrite HW, HA, Hacc.
  split; [|split; [|split; reflexivity]].
  - destruct Hm as [(_ & Hall & _)|(mu & _ & -> & Hpos)].
    + assert (E0 : rsum (weight2 s) KV_LEN = 0).
      { apply rsum_zero. intros n Hn. apply weight2_masked, Hall, Hn. }
      assert (E1 : rsum (fun n => weight2 s n * v n) KV_LEN = 0).
      { apply rsum_zero. intros n Hn.
        rewrite weight2_masked by (apply Hall, Hn). ring. }
      rewrite Hl.
      rewrite !fdiv_zero_zero; [reflexivity|assumption..|rewrite E1; ring
                               |rewrite E0; ring].
    + pose proof (exp2_pos (- mu)). rewrite Hl.
      rewrite !fdiv_fin by nra. apply Fin_eq. field. lra.
  - destruct (OUTPUT_LOGSUMEXP meta); [split; [reflexivity|]|reflexivity].
    rewrite Hl.
    destruct Hm as [(-> & Hall & _)|(mu & -> & -> & Hpos)].
    + assert (E0 : rsum (weight2 s) KV_LEN = 0).
      { apply rsum_zero. intros n Hn. apply weight2_masked, Hall, Hn. }
      rewrite !flog2_zero; [reflexivity | exact E0 | rewrite E0; ring].
    + pose proof (exp2_pos (- mu)).
      rewrite !flog2_pos by nra. simpl. apply Fin_eq.
      rewrite log2_mult by assumption. rewrite log2_exp2. ring.
Qed.

End OnlineSoftmax.

(** ** The whole grid *)

(** Row [m] of batch [b] and head [h] is row [m mod BLOCK_M] of program
    [(m / BLOCK_M, b * H + h)]. *)
Lemma program_of_row (H BMv b h m : nat) :
  (h < H)%nat ->
  ((b * H + h) / H)%nat = b /\ ((b * H + h) mod H)%nat = h /\
  (m / BMv * BMv + m mod BMv)%nat = m.
Proof.
  intros Hh. split; [|split].
  - rewrite Nat.div_add_l by lia. rewrite Nat.div_small by lia. lia.
  - rewrite Nat.add_comm, Nat.Div0.mod_add. apply Nat.mod_small, Hh.
  - pose proof (Nat.div_mod_eq m BMv). lia.
Qed.

Section WholeGrid.

Variable modification : score_mod.
Variables Q K V : memory.
Variables sq sk sv : strides.
Variables H Q_LEN KV_LEN : nat.
Variable meta : fwd_meta.

#[local] Abbreviation Qr := (as_read Q (stride_h sq) sq H).
#[local] Abbreviation Kr := (as_read K (stride_h sk) sk H).
#[local] Abbreviation Vr := (as_read V (stride_h sk) sv H).

(** Program [(m / BLOCK_M, b * H + h)] handles row [m] of batch [b] and head
    [h], and what it stores for it is the direct computation on that row of
    the tensors as the program reads them. *)
Lemma forward_is_direct (b h m d T : nat) :
  (0 < BM meta)%nat -> (0 < BN meta)%nat -> (h < H)%nat ->
  KV_LEN = (T * BN meta)%nat ->
  (forall n, (n < KV_LEN)%nat ->
     finite_or_masked (scaled_score modification Qr Kr meta b h m n)) ->
  (forall n, (n < KV_LEN)%nat -> is_fin (Vr b h n d)) ->
  (ROWS_GUARANTEED_SAFE meta = true ->
   exists j, (j < BN meta)%nat /\
     is_fin (scaled_score modification Qr Kr meta b h m j)) ->
  forward_output modification Q K V sq sk sv H Q_LEN KV_LEN meta b h m d =
    direct_attention (scaled_score modification Qr Kr meta b h m) Vr KV_LEN
      b h d /\
  forward_logsumexp modification Q K V sq sk sv H Q_LEN KV_LEN meta b h m =
    if OUTPUT_LOGSUMEXP meta
    then Some (direct_logsumexp2 (scaled_score modification Qr Kr meta b h m)
                 KV_LEN)
    else None.
Proof.
  intros HBM HBN Hh HKV Hs HV Hsafe.
  destruct (program_of_row H (BM meta) b h m Hh) as (Eb & Eh & Em).
  pose proof (kernel_row_is_direct modification Q K V sq sk sv H Q_LEN KV_LEN
                meta (m / BM meta)%nat (b * H + h)%nat (m mod BM meta)%nat d T)
    as Hrow.
  rewrite Eb, Eh, Em in Hrow.
  destruct (Hrow HBN HKV Hs HV Hsafe) as (E1 & E2 & _).
  split; [exact E1|]. unfold forward_logsumexp.
  destruct (out_lse _) as [lse|].
  - destruct E2 as [-> ->]. reflexivity.
  - rewrite E2. reflexivity.
Qed.

(** A row whose scores are all masked, under the safety check: the loop
    keeps [m_i = -inf], [l_i = 0] and [acc = 0], the stored logsumexp is
    [-inf], and the normalisation [acc / l_i] is [0 / 0]. *)
Lemma fully_masked_row (b h m d T : nat) :
  (0 < BM meta)%nat -> (0 < BN meta)%nat -> (h < H)%nat ->
  KV_LEN = (T * BN meta)%nat ->
  ROWS_GUARANTEED_SAFE meta = false ->
  (forall n, (n < KV_LEN)%nat ->
     scaled_score modification Qr Kr meta b h m n = NInf) ->
  (forall n, (n < KV_LEN)%nat -> is_fin (Vr b h n d)) ->
  forward_output modification Q K V sq sk sv H Q_LEN KV_LEN meta b h m d =
    NaN /\
  forward_logsumexp modification Q K V sq sk sv H Q_LEN KV_LEN meta b h m =
    if OUTPUT_LOGSUMEXP meta then Some NInf else None.
Proof.
  intros HBM HBN Hh HKV Hsf Hs HV.
  destruct (forward_is_direct b h m d T) as [E1 E2]; try assumption.
  { intros n Hn. left. apply Hs, Hn. }
  { rewrite Hsf. discriminate. }
  rewrite E1, E2. unfold direct_attention, direct_logsumexp2.
  rewrite (tl_sum_fin KV_LEN
             (fun n => fexp2 (scaled_score modification Qr Kr meta b h m n))
             (fun _ => 0)).
  2:{ intros n Hn. rewrite (Hs n Hn). reflexivity. }
  rewrite (tl_sum_fin KV_LEN _ (fun n => 0 * fin_val (Vr b h n d))).
  2:{ intros n Hn. rewrite (Hs n Hn). destruct (HV n Hn) as [x ->]. reflexivity. }
  split.
  - apply fdiv_zero_zero; apply rsum_zero; intros; ring.
  - rewrite flog2_zero; [reflexivity|]. apply rsum_zero. reflexivity.
Qed.

(** What the loop leaves in its state for a fully masked row, under the
    safety check: the zeroed [alpha] and [p] keep [l_i] and [acc] at 0. *)
Lemma masked_row_state (b h m d T : nat) :
  (0 < BM meta)%nat -> (0 < BN meta)%nat -> (h < H)%nat ->
  KV_LEN = (T * BN meta)%nat ->
  ROWS_GUARANTEED_SAFE meta = false ->
  (forall n, (n < KV_LEN)%nat ->
     scaled_score modification Qr Kr meta b h m n = NInf) ->
  (forall n, (n < KV_LEN)%nat -> is_fin (Vr b h n d)) ->
  let st := kv_loop modification Q K V sq sk sv H KV_LEN meta
              (m / BM meta)%nat (b * H + h)%nat in
  m_i st (m mod BM meta)%nat = NInf /\
  l_i st (m mod BM meta)%nat = Fin 0 /\
  acc st (m mod BM meta)%nat d = Fin 0.
Proof.
  intros HBM HBN Hh HKV Hsf Hs HV st.
  destruct (program_of_row H (BM meta) b h m Hh) as (Eb & Eh & Em).
  pose proof (inv_kv_loop modification Q K V sq sk sv H KV_LEN meta
                (m / BM meta)%nat (b * H + h)%nat (m mod BM meta)%nat d T)
    as Hinv.
  rewrite Eb, Eh, Em in Hinv.
  destruct Hinv as (_ & _ & c & Hl & Hacc & Hm); try assumption.
  { intros n Hn. left. apply Hs, Hn. }
  { rewrite Hsf. discriminate. }
  rewrite <- HKV in Hl, Hacc, Hm.
  assert (E0 : rsum (weight2 (scaled_score modification Qr Kr meta b h m))
                 KV_LEN = 0).
  { apply rsum_zero. intros n Hn. apply weight2_masked, Hs, Hn. }
  fold st in Hl, Hacc, Hm. split; [|split].
  - destruct Hm as [(E & _)|(mu & _ & _ & Hpos)]; [exact E|lra].
  - rewrite Hl, E0. apply Fin_eq. ring.
  - rewrite Hacc. apply Fin_eq.
    rewrite rsum_zero; [ring|]. intros n Hn.
    rewrite weight2_masked by (apply Hs, Hn). ring.
Qed.

End WholeGrid.

(** ** Who stores to an offset of [LSE] *)

Local Close Scope R_scope.

Lemma BM_of_nat (meta : fwd_meta) :
  (0 < BM meta)%nat -> Z.of_nat (BM meta) = BLOCK_M meta /\ 0 < BLOCK_M meta.
Proof. unfold BM. intros Hpos. split; lia. Qed.

(** The first coordinate of the launch grid covers the query rows. *)
Lemma row_tile_in_grid (meta : fwd_meta) (Q_LEN m : nat) :
  (0 < BM meta)%nat -> (m < Q_LEN)%nat ->
  Z.of_nat (m / BM meta) < cdiv (Z.of_nat Q_LEN) (BLOCK_M meta).
Proof.
  intros HBM Hm. destruct (BM_of_nat meta HBM) as [E Hpos].
  pose proof (cdiv_bounds (Z.of_nat Q_LEN) (BLOCK_M meta) Hpos) as [_ Hc].
  pose proof (Nat.Div0.mul_div_le m (BM meta)) as Hd.
  set (c := cdiv (Z.of_nat Q_LEN) (BLOCK_M meta)) in *.
  rewrite <- E in Hc. nia.
Qed.

(** With one batch and head, or with [BLOCK_M] dividing [Q_LEN], the only
    store of a launch to the offset of [LSE[b, h, m]] is that of the program
    whose tile holds row [m]. *)
Lemma lse_written_owner (modification : score_mod) (Q K V : memory)
    (sq sk sv : strides) (batch H Q_LEN KV_LEN : nat) (meta : fwd_meta)
    (b h m : nat) (x : fp) :
  (0 < BM meta)%nat -> (b < batch)%nat -> (h < H)%nat -> (m < Q_LEN)%nat ->
  (batch * H = 1)%nat \/ (exists k, Q_LEN = (k * BM meta)%nat) ->
  lse_written modification Q K V sq sk sv batch H Q_LEN KV_LEN meta
    ((b * H + h) * Q_LEN + m)%nat x <->
  forward_logsumexp modification Q K V sq sk sv H Q_LEN KV_LEN meta b h m =
    Some x.
Proof.
  intros HBM Hb Hh Hm Hone. destruct (BM_of_nat meta HBM) as [EBM Hpos].
  unfold lse_written, forward_logsumexp, flex_attention_grid. cbn [fst snd].
  split.
  - intros (sm & hz & i & lse & Hsm & Hhz & Hi & Hlse & Hptr & Hx).
    unfold l_ptrs, offs_m in Hptr.
    assert (Ehz : hz = (b * H + h)%nat /\ (sm * BM meta + i)%nat = m).
    { destruct Hone as [H1|[k Hk]].
      - assert (hz = O) by nia. assert ((b * H + h)%nat = O) by nia.
        subst hz. split; [lia|]. nia.
      - assert (Hrow : (sm * BM meta + i < Q_LEN)%nat).
        { assert (Ec : cdiv (Z.of_nat Q_LEN) (BLOCK_M meta) = Z.of_nat k).
          { rewrite cdiv_exact; [|exact Hpos|].
            - rewrite Hk, Nat2Z.inj_mul, EBM. apply Z.div_mul. lia.
            - rewrite Hk, Nat2Z.inj_mul, EBM. apply Z.mod_mul. lia. }
          rewrite Ec in Hsm. nia. }
        assert (hz = (b * H + h)%nat) by nia. subst hz. split; [reflexivity|].
        lia. }
    destruct Ehz as [-> Erow].
    assert (Esm : (m / BM meta)%nat = sm).
    { rewrite <- Erow. rewrite Nat.div_add_l by lia.
      rewrite Nat.div_small by exact Hi. lia. }
    assert (Ei : (m mod BM meta)%nat = i).
    { rewrite <- Erow. rewrite Nat.add_comm, Nat.Div0.mod_add.
      apply Nat.mod_small, Hi. }
    rewrite Esm, Ei, Hlse, Hx. reflexivity.
  - destruct (out_lse _) as [lse|] eqn:Hlse; [|discriminate].
    intros [= <-].
    exists (m / BM meta)%nat, (b * H + h)%nat, (m mod BM meta)%nat, lse.
    split; [apply row_tile_in_grid; assumption|].
    split; [nia|].
    split; [apply Nat.mod_upper_bound; lia|].
    split; [exact Hlse|]. split; [|reflexivity].
    unfold l_ptrs, offs_m.
    pose proof (Nat.div_mod_eq m (BM meta)). lia.
Qed.

Local Open Scope R_scope.

(** ** The template at concrete problems *)

Lemma exp2_1 : exp2 1 = 2.
Proof. unfold exp2. rewrite Rmult_1_l. apply exp_ln. lra. Qed.

Lemma exp_1_gt_2 : 2 < exp 1.
Proof. pose proof (exp_ineq1 1 ltac:(lra)). lra. Qed.


Lemma zero_dot (D : nat) (c : R) :
  tl_sum D (fun _ => fmul (fmul (Fin 0) (Fin c)) (Fin 0)) = Fin 0.
Proof.
  rewrite (tl_sum_fin D _ (fun _ => 0 * c * 0)) by reflexivity.
  apply Fin_eq, rsum_zero. intros. ring.
Qed.

Lemma zero_raw_score (s s' : strides) (D b h m n : nat) :
  raw_score (elem zeros s) (elem zeros s') D b h m n = Fin 0.
Proof.
  unfold raw_score, elem, zeros.
  rewrite (tl_sum_fin D _ (fun _ => 0 * 0)) by reflexivity.
  apply Fin_eq, rsum_zero. intros. ring.
Qed.

(** The scores of zero queries: the program computes 0 for every key,
    whatever the configuration. *)
Lemma zero_scaled_score (modification : score_mod) (hs hs' : nat)
    (s s' : strides) (H : nat) (meta : fwd_meta) (b h m n : nat) :
  scaled_score modification (as_read zeros hs s H) (as_read zeros hs' s' H)
    meta b h m n =
  change_base meta (modification (Fin 0) b h m n).
Proof.
  unfold scaled_score, as_read, zeros. rewrite zero_dot. reflexivity.
Qed.

(** Row 0 of [first_key_only], read with the strides of a contiguous
    [[1, 1, N, 16]] tensor, is 1 and the other rows are 0. *)
Lemma first_key_only_rows (N n d : nat) :
  (d < 16)%nat ->
  as_read first_key_only (stride_h (contiguous 1 N 16)) (contiguous 1 N 16) 1
    0%nat 0%nat n d = (if (n =? 0)%nat then Fin 1 else Fin 0) /\
  elem first_key_only (contiguous 1 N 16) 0%nat 0%nat n d =
    (if (n =? 0)%nat then Fin 1 else Fin 0).
Proof.
  intros Hd. unfold as_read, elem, first_key_only, contiguous.
  cbn [stride_z stride_h stride_m stride_d].
  split.
  - destruct (Nat.ltb_spec ((0 * 1 + 0) * (N * 16) + n * 16 + d * 1) 16)%nat,
             (Nat.eqb_spec n 0); try reflexivity; lia.
  - destruct (Nat.ltb_spec
                (0 * (1 * N * 16) + 0 * (N * 16) + n * 16 + d * 1) 16)%nat,
             (Nat.eqb_spec n 0); try reflexivity; lia.
Qed.

(** C1 fails on the kernel the forward lowering emits
    ([SCORE_MOD_IS_LINEAR=True]) for a modification that adds a bias: with
    one batch and head, 32 queries, 16 keys and contiguous tensors, zero
    queries and keys, bias 1 on key 0 and [V] selecting key 0, the kernel
    returns [2 / 17] where the reference softmax gives [e / (e + 15)]. *)
Theorem C1_bias_under_linear_flag :
  let meta := mkFwdMeta 32 16 16 true true true in
  let sq := contiguous 1 32 16 in
  let sk := contiguous 1 16 16 in
  forward_output bias_mod zeros zeros first_key_only sq sk sk 1 32 16 meta
    0 0 0 0 = Fin (2 / 17) /\
  reference_attention bias_mod (elem zeros sq) (elem zeros sk)
    (elem first_key_only sk) 16 16 0 0 0 0 = Fin (exp 1 / (exp 1 + 15)) /\
  forward_output bias_mod zeros zeros first_key_only sq sk sk 1 32 16 meta
    0 0 0 0 <>
    reference_attention bias_mod (elem zeros sq) (elem zeros sk)
      (elem first_key_only sk) 16 16 0 0 0 0.
Proof.
  intros meta sq sk.
  assert (Hscore : forall n,
    scaled_score bias_mod (as_read zeros (stride_h sq) sq 1)
      (as_read zeros (stride_h sk) sk 1) meta 0 0 0 n =
      Fin (if (n =? 0)%nat then 1 else 0)).
  { intros n. rewrite zero_scaled_score. unfold change_base, bias_mod. simpl.
    destruct (n =? 0)%nat; apply Fin_eq; ring. }
  assert (HVr : forall n,
    as_read first_key_only (stride_h sk) sk 1 0%nat 0%nat n 0%nat =
      (if (n =? 0)%nat then Fin 1 else Fin 0)).
  { intros n. apply first_key_only_rows. lia. }
  assert (HVe : forall n,
    elem first_key_only sk 0%nat 0%nat n 0%nat =
      (if (n =? 0)%nat then Fin 1 else Fin 0)).
  { intros n. apply first_key_only_rows. lia. }
  assert (Hk : forward_output bias_mod zeros zeros first_key_only sq sk sk
                 1 32 16 meta 0 0 0 0 = Fin (2 / 17)).
  { destruct (forward_is_direct bias_mod zeros zeros first_key_only sq sk sk
                1 32 16 meta 0 0 0 0 1) as [E _].
    - unfold BM. simpl. lia.
    - unfold BN. simpl. lia.
    - lia.
    - reflexivity.
    - intros n _. right. rewrite Hscore. eexists. reflexivity.
    - intros n _. unfold as_read, first_key_only.
      destruct (_ <? 16)%nat; eexists; reflexivity.
    - intros _. exists O. split; [unfold BN; simpl; lia|].
      rewrite Hscore. eexists. reflexivity.
    - rewrite E. unfold direct_attention.
      rewrite (tl_sum_fin 16
                 (fun n => fexp2 (scaled_score bias_mod
                                    (as_read zeros (stride_h sq) sq 1)
                                    (as_read zeros (stride_h sk) sk 1)
                                    meta 0 0 0 n))
                 (fun n => if (n =? 0)%nat then 2 else 1)).
      2:{ intros n _. rewrite Hscore. destruct (n =? 0)%nat; simpl;
          apply Fin_eq; [apply exp2_1|apply exp2_0]. }
      rewrite (tl_sum_fin 16 _ (fun n => if (n =? 0)%nat then 2 else 0)).
      2:{ intros n _. rewrite Hscore, HVr.
          destruct (n =? 0)%nat; simpl; apply Fin_eq;
            [rewrite exp2_1|rewrite exp2_0]; ring. }
      cbn [rsum Nat.eqb]. rewrite fdiv_fin by lra. apply Fin_eq. lra. }
  assert (Hr : reference_attention bias_mod (elem zeros sq) (elem zeros sk)
                 (elem first_key_only sk) 16 16 0 0 0 0 =
               Fin (exp 1 / (exp 1 + 15))).
  { unfold reference_attention.
    rewrite (tl_sum_fin 16
               (fun n => fexp (bias_mod
                                 (raw_score (elem zeros sq) (elem zeros sk)
                                    16 0 0 0 n) 0 0 0 n)%nat)
               (fun n => if (n =? 0)%nat then exp 1 else 1)).
    2:{ intros n _. rewrite zero_raw_score. unfold bias_mod.
        destruct (n =? 0)%nat; simpl; apply Fin_eq.
        - f_equal. ring.
        - rewrite Rplus_0_l. apply exp_0. }
    rewrite (tl_sum_fin 16 _ (fun n => if (n =? 0)%nat then exp 1 else 0)).
    2:{ intros n _. rewrite zero_raw_score, HVe. unfold bias_mod.
        destruct (n =? 0)%nat; simpl; apply Fin_eq.
        - rewrite Rmult_1_r. f_equal. ring.
        - ring. }
    cbn [rsum Nat.eqb]. pose proof exp_1_gt_2.
    rewrite fdiv_fin by lra. apply Fin_eq. f_equal; lra. }
  split; [exact Hk|]. split; [exact Hr|].
  rewrite Hk, Hr. intros E. injection E as E.
  pose proof exp_1_gt_2 as He.
  apply (f_equal (fun x => x * (17 * (exp 1 + 15)))) in E.
  field_simplify in E; lra.
Qed.

Lemma LOG2E_pos : 0 < LOG2E.
Proof. unfold LOG2E. lra. Qed.

Lemma fmul_ninf_pos (c : R) : 0 < c -> fmul NInf (Fin c) = NInf.
Proof.
  intros Hc. simpl. unfold Rsign. destruct (Rlt_dec 0 c); [reflexivity|contradiction].
Qed.

(** C5 fails on the template with the safety check compiled in
    ([ROWS_GUARANTEED_SAFE=False]): for a modification that masks every key
    of query row 2, the loop does keep [m_i = -inf], [l_i = 0] and [acc = 0]
    for that row and the stored logsumexp is [-inf], but the output is
    [0 / 0], NaN, not 0. *)
Theorem C5_fully_masked_row_is_nan :
  let meta := mkFwdMeta 32 16 16 false false true in
  let sq := contiguous 1 32 16 in
  let sk := contiguous 1 16 16 in
  let st := kv_loop padding_mod zeros zeros first_key_only sq sk sk 1 16 meta
              0 0 in
  m_i st 2%nat = NInf /\ l_i st 2%nat = Fin 0 /\ acc st 2%nat 0%nat = Fin 0 /\
  forward_logsumexp padding_mod zeros zeros first_key_only sq sk sk 1 32 16
    meta 0 0 2 = Some NInf /\
  forward_output padding_mod zeros zeros first_key_only sq sk sk 1 32 16 meta
    0 0 2 0 = NaN /\
  forward_output padding_mod zeros zeros first_key_only sq sk sk 1 32 16 meta
    0 0 2 0 <> Fin 0.
Proof.
  intros meta sq sk st.
  assert (HBM : (0 < BM meta)%nat) by (unfold BM; simpl; lia).
  assert (HBN : (0 < BN meta)%nat) by (unfold BN; simpl; lia).
  assert (Hscore : forall n, (n < 16)%nat ->
    scaled_score padding_mod (as_read zeros (stride_h sq) sq 1)
      (as_read zeros (stride_h sk) sk 1) meta 0 0 2 n = NInf).
  { intros n _. unfold scaled_score, change_base, padding_mod. simpl.
    apply fmul_ninf_pos, LOG2E_pos. }
  assert (HV : forall n, (n < 16)%nat ->
    is_fin (as_read first_key_only (stride_h sk) sk 1 0%nat 0%nat n 0%nat)).
  { intros n _. unfold as_read, first_key_only.
    destruct (_ <? 16)%nat; eexists; reflexivity. }
  destruct (masked_row_state padding_mod zeros zeros first_key_only sq sk sk
              1 16 meta 0 0 2 0 1 HBM HBN ltac:(lia) eq_refl eq_refl Hscore HV)
    as (E1 & E2 & E3).
  destruct (fully_masked_row padding_mod zeros zeros first_key_only sq sk sk
              1 32 16 meta 0 0 2 0 1 HBM HBN ltac:(lia) eq_refl eq_refl
              Hscore HV)
    as (E4 & E5).
  split; [exact E1|]. split; [exact E2|]. split; [exact E3|].
  split; [exact E5|]. split; [exact E4|].
  rewrite E4. discriminate.
Qed.


Lemma ln_4 : ln 4 = 2 * ln 2.
Proof. replace 4 with (2 * 2) by lra. rewrite ln_mult by lra. ring. Qed.


Lemma ln_16 : ln 16 = 4 * ln 2.
Proof. replace 16 with (4 * 4) by lra. rewrite ln_mult, ln_4 by lra. ring. Qed.

Lemma log2_16 : log2 16 = 4.
Proof. unfold log2. rewrite ln_16. field. pose proof ln2_pos. lra. Qed.

Lemma rsum_const (c : R) (n : nat) : rsum (fun _ => c) n = INR n * c.
Proof.
  induction n as [|n IH]; [simpl; ring|].
  rewrite S_INR. simpl. rewrite IH. ring.
Qed.

Lemma tl_sum_ext_lt (n : nat) (f g : block1) :
  (forall k, (k < n)%nat -> f k = g k) -> tl_sum n f = tl_sum n g.
Proof.
  induction n as [|n IH]; intros E; simpl; [reflexivity|].
  rewrite IH, (E n); [reflexivity | lia | intros; apply E; lia].
Qed.

(** The dot product of two finite rows, one of them scaled. *)
Lemma scaled_dot_fin (D : nat) (q k : block1) (c : R) :
  (forall d, (d < D)%nat -> is_fin (q d)) ->
  (forall d, (d < D)%nat -> is_fin (k d)) ->
  tl_sum D (fun d => fmul (fmul (q d) (Fin c)) (k d)) =
    Fin (rsum (fun d => fin_val (q d) * fin_val (k d)) D * c).
Proof.
  intros Hq Hk.
  rewrite (tl_sum_fin D _ (fun d => fin_val (q d) * fin_val (k d) * c)).
  - rewrite rsum_scale. reflexivity.
  - intros d Hd. destruct (Hq d Hd) as [x ->], (Hk d Hd) as [y ->].
    simpl. apply Fin_eq. ring.
Qed.

Lemma dot_fin (D : nat) (q k : block1) :
  (forall d, (d < D)%nat -> is_fin (q d)) ->
  (forall d, (d < D)%nat -> is_fin (k d)) ->
  tl_sum D (fun d => fmul (q d) (k d)) =
    Fin (rsum (fun d => fin_val (q d) * fin_val (k d)) D).
Proof.
  intros Hq Hk. apply tl_sum_fin.
  intros d Hd. destruct (Hq d Hd) as [x ->], (Hk d Hd) as [y ->]. reflexivity.
Qed.

(** The score the template computes under the identity modification is the
    raw score times the constant [1.44269504], whether the constant goes
    into the query or onto the score. *)
Lemma identity_scaled_score (Q K : tensor4) (meta : fwd_meta) (b h m n : nat) :
  (forall d, (d < DMODEL meta)%nat -> is_fin (Q b h m d)) ->
  (forall d, (d < DMODEL meta)%nat -> is_fin (K b h n d)) ->
  scaled_score identity_mod Q K meta b h m n =
    Fin (LOG2E *
         rsum (fun d => fin_val (Q b h m d) * fin_val (K b h n d))
           (DMODEL meta)).
Proof.
  intros HQ HK. unfold scaled_score, change_base, identity_mod, qk_scale.
  rewrite scaled_dot_fin by assumption.
  destruct (SCORE_MOD_IS_LINEAR meta); simpl; apply Fin_eq; lra.
Qed.

(** The running maximum and the running sum do not depend on [V]. *)
Lemma loop_body_scores (modification : score_mod) (Q K V V' : memory)
    (sq sk sv sv' : strides) (H : nat) (meta : fwd_meta)
    (start_m off_hz : nat) (st st' : loop_state) (start_n : nat) :
  m_i st = m_i st' -> l_i st = l_i st' -> K_block_ptr st = K_block_ptr st' ->
  let r := loop_body modification Q K V sq sk sv H meta start_m off_hz
             st start_n in
  let r' := loop_body modification Q K V' sq sk sv' H meta start_m off_hz
              st' start_n in
  m_i r = m_i r' /\ l_i r = l_i r' /\ K_block_ptr r = K_block_ptr r'.
Proof.
  intros Em El Ek. unfold loop_body. cbn [m_i l_i K_block_ptr].
  rewrite Em, El, Ek. repeat split; reflexivity.
Qed.

Lemma kv_loop_scores (modification : score_mod) (Q K V V' : memory)
    (sq sk sv sv' : strides) (H KV_LEN : nat) (meta : fwd_meta)
    (start_m off_hz : nat) :
  let r := kv_loop modification Q K V sq sk sv H KV_LEN meta start_m off_hz in
  let r' := kv_loop modification Q K V' sq sk sv' H KV_LEN meta start_m
              off_hz in
  m_i r = m_i r' /\ l_i r = l_i r'.
Proof.
  unfold kv_loop. generalize (py_range 0 KV_LEN (BN meta)).
  assert (G : forall l st st',
    m_i st = m_i st' -> l_i st = l_i st' -> K_block_ptr st = K_block_ptr st' ->
    m_i (fold_left (loop_body modification Q K V sq sk sv H meta start_m
                      off_hz) l st) =
    m_i (fold_left (loop_body modification Q K V' sq sk sv' H meta start_m
                      off_hz) l st') /\
    l_i (fold_left (loop_body modification Q K V sq sk sv H meta start_m
                      off_hz) l st) =
    l_i (fold_left (loop_body modification Q K V' sq sk sv' H meta start_m
                      off_hz) l st')).
  { induction l as [|n l IH]; intros st st' Em El Ek; [split; assumption|].
    simpl.
    destruct (loop_body_scores modification Q K V V' sq sk sv sv' H meta
                start_m off_hz st st' n Em El Ek) as (Em' & El' & Ek').
    apply IH; assumption. }
  intros l. apply G; reflexivity.
Qed.

(** The logsumexp a program stores does not depend on [V]. *)
Lemma forward_logsumexp_without_V (modification : score_mod)
    (Q K V V' : memory) (sq sk sv sv' : strides) (H Q_LEN KV_LEN : nat)
    (meta : fwd_meta) (b h m : nat) :
  forward_logsumexp modification Q K V sq sk sv H Q_LEN KV_LEN meta b h m =
  forward_logsumexp modification Q K V' sq sk sv' H Q_LEN KV_LEN meta b h m.
Proof.
  unfold forward_logsumexp, flex_attention_kernel. cbn [out_lse].
  destruct (kv_loop_scores modification Q K V V' sq sk sv sv' H KV_LEN meta
              (m / BM meta)%nat (b * H + h)%nat) as [Em El].
  cbv zeta in Em, El. rewrite Em, El. reflexivity.
Qed.

(** The loop over the keys runs over whole tiles. *)
Lemma kv_loop_padded (modification : score_mod) (Q K V : memory)
    (sq sk sv : strides) (H KV_LEN : nat) (meta : fwd_meta)
    (start_m off_hz : nat) :
  (0 < BN meta)%nat ->
  kv_loop modification Q K V sq sk sv H KV_LEN meta start_m off_hz =
  kv_loop modification Q K V sq sk sv H
    ((KV_LEN + BN meta - 1) / BN meta * BN meta)%nat meta start_m off_hz.
Proof.
  intros HBN. unfold kv_loop.
  rewrite (py_range_ceil (BN meta) KV_LEN HBN). reflexivity.
Qed.

(** With one batch and head, the identity modification and finite queries
    and keys, the program that owns row [m] stores the base-2 logsumexp of
    the raw scores times [1.44269504]. *)
Lemma identity_logsumexp (Q K V : memory) (sq sk sv : strides)
    (Q_LEN KV_LEN : nat) (meta : fwd_meta) (m T : nat) :
  (0 < BM meta)%nat -> (0 < BN meta)%nat ->
  KV_LEN = (T * BN meta)%nat -> (0 < KV_LEN)%nat ->
  OUTPUT_LOGSUMEXP meta = true ->
  (forall d, (d < DMODEL meta)%nat -> is_fin (elem Q sq 0%nat 0%nat m d)) ->
  (forall n d, (n < KV_LEN)%nat -> (d < DMODEL meta)%nat ->
     is_fin (elem K sk 0%nat 0%nat n d)) ->
  forward_logsumexp identity_mod Q K V sq sk sv 1 Q_LEN KV_LEN meta 0 0 m =
    Some (Fin (log2
                 (rsum
                    (fun n =>
                       exp2 (LOG2E *
                             rsum (fun d =>
                                     fin_val (elem Q sq 0%nat 0%nat m d)
                                     * fin_val (elem K sk 0%nat 0%nat n d))
                               (DMODEL meta)))
                    KV_LEN))).
Proof.
  intros HBM HBN HKV Hpos Hout HQ HK.
  rewrite (forward_logsumexp_without_V identity_mod Q K V zeros sq sk sv sv).
  assert (Hscore : forall n, (n < KV_LEN)%nat ->
    scaled_score identity_mod (as_read Q (stride_h sq) sq 1)
      (as_read K (stride_h sk) sk 1) meta 0 0 m n =
      Fin (LOG2E * rsum (fun d => fin_val (elem Q sq 0%nat 0%nat m d)
                                  * fin_val (elem K sk 0%nat 0%nat n d))
                     (DMODEL meta))).
  { intros n Hn.
    apply (identity_scaled_score (as_read Q (stride_h sq) sq 1)
             (as_read K (stride_h sk) sk 1) meta 0 0 m n).
    - exact HQ.
    - intros d Hd. apply (HK n d Hn Hd). }
  destruct (forward_is_direct identity_mod Q K zeros sq sk sv 1 Q_LEN KV_LEN
              meta 0 0 m 0 T) as [_ E]; try assumption.
  - lia.
  - intros n Hn. right. rewrite (Hscore n Hn). eexists. reflexivity.
  - intros n _. exists 0. reflexivity.
  - intros _. exists O. split; [exact HBN|].
    rewrite (Hscore O Hpos). eexists. reflexivity.
  - rewrite E, Hout. unfold direct_logsumexp2.
    rewrite (tl_sum_fin KV_LEN _
               (fun n => exp2 (LOG2E * rsum (fun d =>
                                     fin_val (elem Q sq 0%nat 0%nat m d)
                                     * fin_val (elem K sk 0%nat 0%nat n d))
                                   (DMODEL meta)))).
    2:{ intros n Hn. rewrite (Hscore n Hn). reflexivity. }
    f_equal. apply flog2_pos.
    apply (rsum_pos _ KV_LEN 0); [|exact Hpos|apply exp2_pos].
    intros j _. apply Rlt_le, exp2_pos.
Qed.






(** * More on the score-modification inliner *)

Local Close Scope R_scope.

Lemma py_getitem_nonneg {A} (l : list A) (i : Z) :
  0 <= i ->
  py_getitem l i =
    match nth_error l (Z.to_nat i) with
    | Some a => Ok a
    | None => Raise IndexError
    end.
Proof.
  intros Hi. unfold py_getitem.
  destruct (i <? 0) eqn:E1; [apply Z.ltb_lt in E1; lia|].
  destruct (0 <=? i) eqn:E2; [|apply Z.leb_gt in E2; lia]. simpl.
  destruct (i <? Z.of_nat (List.length l)) eqn:E3; [reflexivity|].
  apply Z.ltb_ge in E3.
  destruct (nth_error l (Z.to_nat i)) eqn:E; [|reflexivity].
  assert (nth_error l (Z.to_nat i) <> None) as N by congruence.
  apply nth_error_Some in N. lia.
Qed.

Section InlinerMore.

Variable lowerings :
  string -> list obj -> list (string * obj) -> result obj.
Variable placeholder_inps : list obj.
Variable graph_type : SubgraphType.

#[local] Abbreviation step' := (step lowerings placeholder_inps graph_type).
#[local] Abbreviation run' := (run_nodes lowerings placeholder_inps graph_type).
#[local] Abbreviation build' :=
  (fun args nodes =>
     build_subgraph_buffer lowerings args placeholder_inps nodes graph_type).

(** X1: with the argument lists the two lowerings pass, the lifted
    placeholders read [other_buffers] in order: the placeholder of running
    index [n_sentinels + j] is bound to [other_buffers[j]], and raises
    [IndexError] when there is no such buffer. *)
Theorem X1_lifted_placeholders_read_other_buffers
    (leading other_buffers : list obj) (pre : list Node) (node : Node)
    (st : state) :
  List.length leading = n_leading_args graph_type ->
  List.length placeholder_inps = n_sentinels graph_type ->
  no_call_function pre = true ->
  run' pre (init_state (leading ++ other_buffers)%list) = Next st ->
  node_op_ node = placeholder ->
  let k := count_placeholders pre in
  Z.of_nat (n_sentinels graph_type) <= k ->
  step' node st =
    match nth_error other_buffers (Z.to_nat k - n_sentinels graph_type) with
    | Some v =>
        Next (mkState (k + 1) (<[node_name node := v]> (env st))
                (leading ++ other_buffers)%list)
    | None => Finish (Raise IndexError)
    end.
Proof.
  intros Hlead Hinps Hnc Hrun Hop k Hk.
  assert (Hcnt : cnt st = k) by (rewrite (run_cnt _ _ _ _ _ _ Hrun); reflexivity).
  assert (Hargs : cur_args st = (leading ++ other_buffers)%list)
    by (rewrite (run_args_unchanged _ _ _ _ _ _ Hnc Hrun); reflexivity).
  rewrite (step_placeholder _ _ _ _ _ Hop), Hcnt, Hargs, Hinps.
  destruct (_ <=? k) eqn:E; [|apply Z.leb_gt in E; lia].
  assert (Hidx : index_to_other_buffers k graph_type =
                 Z.of_nat (List.length leading
                           + (Z.to_nat k - n_sentinels graph_type))).
  { rewrite Hlead. destruct graph_type; simpl in *; lia. }
  rewrite Hidx, py_getitem_nonneg by lia. rewrite Nat2Z.id.
  rewrite nth_error_app2 by lia.
  replace (List.length leading + (Z.to_nat k - n_sentinels graph_type)
           - List.length leading)%nat
    with (Z.to_nat k - n_sentinels graph_type)%nat by lia.
  destruct (nth_error other_buffers _); reflexivity.
Qed.

(** X2: the traversal returns at the first output node; the nodes after it
    are never visited. *)
Theorem X2_nodes_after_output_are_ignored (args : list obj)
    (pre rest rest' : list Node) (out : Node) :
  node_op_ out = output ->
  build' args (pre ++ out :: rest)%list = build' args (pre ++ out :: rest')%list.
Proof.
  intros Hop. unfold build_subgraph_buffer.
  rewrite !run_nodes_app.
  destruct (run' pre (init_state args)) as [st|r]; [|reflexivity].
  simpl. unfold step. rewrite Hop. reflexivity.
Qed.

(** X3: nodes of the other kinds ([get_attr], [call_method],
    [call_module]) are skipped: dropping them from the graph changes
    nothing. *)
Theorem X3_other_nodes_are_skipped (args : list obj) (nodes : list Node) :
  build' args (List.filter (fun n => negb (is_op other_op n)) nodes) =
  build' args nodes.
Proof.
  unfold build_subgraph_buffer. generalize (init_state args).
  induction nodes as [|n ns IH]; intros st; [reflexivity|].
  cbn [List.filter]. unfold is_op at 1.
  destruct (node_op_ n) eqn:Hop; cbn [node_op_eqb negb run_nodes];
    try (destruct (step' n st); [apply IH|reflexivity]).
  unfold step. rewrite Hop. apply IH.
Qed.

(** A step keeps the bindings of the other nodes. *)
Lemma step_env_other (n : Node) (st st' : state) (x : string) :
  step' n st = Next st' -> x <> node_name n -> env st' !! x = env st !! x.
Proof.
  unfold step. destruct (node_op_ n).
  - destruct (if _ <=? _ then _ else _); intros [= <-] Hx; simpl.
    apply lookup_insert_ne. congruence.
  - destruct (lowerings _ _ _); intros [= <-] Hx; simpl.
    apply lookup_insert_ne. congruence.
  - discriminate.
  - intros [= <-] _. reflexivity.
Qed.

Lemma run_env_other (nodes : list Node) (st st' : state) (x : string) :
  run' nodes st = Next st' -> ~ In x (node_names nodes) ->
  env st' !! x = env st !! x.
Proof.
  revert st. induction nodes as [|n ns IH]; intros st; simpl.
  - intros [= <-] _. reflexivity.
  - destruct (step' n st) as [st1|] eqn:E; [|discriminate].
    intros Hrun Hx. rewrite (IH _ Hrun) by tauto.
    apply (step_env_other _ _ _ _ E). intros ->. tauto.
Qed.

(** Only processed nodes are keys of [env]. *)
Lemma run_env_dom (nodes : list Node) (st st' : state) (x : string) :
  run' nodes st = Next st' -> env st !! x = None ->
  ~ In x (node_names nodes) -> env st' !! x = None.
Proof.
  intros Hrun Hnone Hx. rewrite (run_env_other _ _ _ _ Hrun Hx). exact Hnone.
Qed.

(** In a graph whose node names are distinct, what a placeholder was bound
    to by its own step is what [env] holds for it at the end. *)
Lemma placeholder_step_at_end (args : list obj) (pre post : list Node)
    (node : Node) (st : state) :
  List.NoDup (node_names (pre ++ node :: post)) ->
  no_call_function pre = true ->
  run' (pre ++ node :: post)%list (init_state args) = Next st ->
  exists st1 st2,
    run' pre (init_state args) = Next st1 /\
    cnt st1 = count_placeholders pre /\
    cur_args st1 = args /\
    step' node st1 = Next st2 /\
    env st !! node_name node = env st2 !! node_name node.
Proof.
  intros Hnd Hnc Hrun.
  rewrite run_nodes_app in Hrun.
  destruct (run' pre (init_state args)) as [st1|] eqn:E1; [|discriminate].
  cbn [run_nodes] in Hrun.
  destruct (step' node st1) as [st2|] eqn:E2; [|discriminate].
  exists st1, st2. split; [reflexivity|].
  split; [rewrite (run_cnt _ _ _ _ _ _ E1); reflexivity|].
  split; [rewrite (run_args_unchanged _ _ _ _ _ _ Hnc E1); reflexivity|].
  split; [exact E2|].
  apply (run_env_other _ _ _ _ Hrun).
  unfold node_names in *. rewrite map_app in Hnd. simpl in Hnd.
  apply NoDup_remove_2 in Hnd. intros Hin. apply Hnd, in_or_app. tauto.
Qed.

(** X5: in a graph whose node names are distinct, a placeholder that no
    [call_function] node precedes is still bound, when the traversal reaches
    the end of the list, to what it was bound to: its sentinel, or the
    external argument at its offset. *)
Theorem X5_placeholder_bindings_persist (args : list obj)
    (pre post : list Node) (node : Node) (st : state) :
  List.NoDup (node_names (pre ++ node :: post)) ->
  no_call_function pre = true ->
  node_op_ node = placeholder ->
  run' (pre ++ node :: post)%list (init_state args) = Next st ->
  let k := count_placeholders pre in
  (k < Z.of_nat (List.length placeholder_inps) ->
     env st !! node_name node = nth_error placeholder_inps (Z.to_nat k) /\
     is_Some (env st !! node_name node)) /\
  (Z.of_nat (List.length placeholder_inps) <= k ->
     exists v, py_getitem args (index_to_other_buffers k graph_type) = Ok v /\
       env st !! node_name node = Some v).
Proof.
  intros Hnd Hnc Hop Hrun k.
  destruct (placeholder_step_at_end args pre post node st Hnd Hnc Hrun)
    as (st1 & st2 & _ & Hcnt & Hargs & E2 & ->).
  fold k in Hcnt.
  rewrite (step_placeholder _ _ _ _ _ Hop), Hcnt, Hargs in E2.
  assert (Hk : 0 <= k) by (unfold k, count_placeholders; lia).
  split.
  - intros Hlt. destruct (_ <=? k) eqn:E; [apply Z.leb_le in E; lia|].
    destruct (py_getitem_in_range placeholder_inps k ltac:(lia)) as (v & Hn & Hv).
    rewrite Hv in E2. injection E2 as <-. simpl.
    rewrite lookup_insert_eq, Hn. split; [reflexivity|eauto].
  - intros Hge. destruct (_ <=? k) eqn:E; [|apply Z.leb_gt in E; lia].
    destruct (py_getitem args _) as [v|] eqn:Hv; [|discriminate].
    injection E2 as <-. simpl. exists v. split; [reflexivity|].
    apply lookup_insert_eq.
Qed.

(** X6: an output node that returns a node the traversal has not bound
    raises [KeyError]; one without arguments raises [IndexError]. *)
Theorem X6_unbound_output_raises (args : list obj) (pre rest : list Node)
    (out : Node) (st : state) :
  node_op_ out = output ->
  run' pre (init_state args) = Next st ->
  (node_args out = [] ->
     build' args (pre ++ out :: rest)%list = Raise IndexError) /\
  (forall x, select_output_node graph_type out = Ok (ArgNode x) ->
     ~ In x (node_names pre) ->
     build' args (pre ++ out :: rest)%list = Raise KeyError).
Proof.
  intros Hop Hrun.
  assert (Hb : build' args (pre ++ out :: rest)%list =
               (output_node ← select_output_node graph_type out;
                output_buffer ← env_getitem (env st) output_node;
                make_subgraph_buffer output_buffer)).
  { unfold build_subgraph_buffer. rewrite run_nodes_app, Hrun.
    cbn [run_nodes]. unfold step. rewrite Hop. reflexivity. }
  split.
  - intros Hargs. rewrite Hb. unfold select_output_node. rewrite Hargs.
    destruct graph_type; reflexivity.
  - intros x Hsel Hx. rewrite Hb, Hsel. cbn [mbind result_bind env_getitem].
    rewrite (run_env_dom _ _ _ _ Hrun (lookup_empty x) Hx). reflexivity.
Qed.

(** X7: a modification that returns one of its scalar inputs unchanged
    inlines to that input's placeholder buffer, under a [FlexibleLayout] of
    size [[1]] with the placeholder's device and dtype. *)
Theorem X7_returning_a_sentinel (args : list obj) (pre post rest : list Node)
    (node out : Node) (st : state) (name device : string) (d : dtype) :
  List.NoDup (node_names (pre ++ node :: post)) ->
  no_call_function pre = true ->
  node_op_ node = placeholder ->
  run' (pre ++ node :: post)%list (init_state args) = Next st ->
  nth_error placeholder_inps (Z.to_nat (count_placeholders pre)) =
    Some (create_placeholder name d device) ->
  node_op_ out = output ->
  select_output_node graph_type out = Ok (ArgNode (node_name node)) ->
  build' args ((pre ++ node :: post) ++ out :: rest)%list =
    Ok (mkComputedBuffer None (mkFlexibleLayout device d [1])
          (Buffer name device d [1])).
Proof.
  intros Hnd Hnc Hop Hrun Hnth Hout Hsel.
  destruct (placeholder_step_at_end args pre post node st Hnd Hnc Hrun)
    as (st1 & st2 & _ & Hcnt & Hargs & E2 & Henv).
  assert (Hk : count_placeholders pre < Z.of_nat (List.length placeholder_inps)).
  { assert (N : nth_error placeholder_inps (Z.to_nat (count_placeholders pre))
                <> None) by congruence.
    apply nth_error_Some in N. unfold count_placeholders in *. lia. }
  rewrite (step_placeholder _ _ _ _ _ Hop), Hcnt in E2.
  destruct (_ <=? count_placeholders pre) eqn:E; [apply Z.leb_le in E; lia|].
  destruct (py_getitem_in_range placeholder_inps (count_placeholders pre))
    as (v & Hn & Hv); [unfold count_placeholders in *; lia|].
  rewrite Hv in E2. injection E2 as <-. simpl in Henv.
  rewrite lookup_insert_eq in Henv. rewrite Hnth in Hn. injection Hn as <-.
  unfold build_subgraph_buffer. rewrite run_nodes_app, Hrun.
  cbn [run_nodes]. unfold step. rewrite Hout, Hsel.
  cbn [mbind result_bind env_getitem]. rewrite Henv. reflexivity.
Qed.

End InlinerMore.

(** X4: the lowering table is consulted at [call_function] nodes only: on a
    graph without one, the result is the same under any two tables. *)
Theorem X4_lowerings_only_at_calls
    (lowerings1 lowerings2 :
       string -> list obj -> list (string * obj) -> result obj)
    (args placeholder_inps : list obj) (nodes : list Node)
    (graph_type : SubgraphType) :
  no_call_function nodes = true ->
  build_subgraph_buffer lowerings1 args placeholder_inps nodes graph_type =
  build_subgraph_buffer lowerings2 args placeholder_inps nodes graph_type.
Proof.
  intros Hnc. unfold build_subgraph_buffer.
  assert (E : forall st,
    run_nodes lowerings1 placeholder_inps graph_type nodes st =
    run_nodes lowerings2 placeholder_inps graph_type nodes st).
  { induction nodes as [|n ns IH]; intros st; [reflexivity|].
    simpl in Hnc. apply andb_prop in Hnc as [Hn Hns].
    cbn [run_nodes].
    assert (Es : step lowerings1 placeholder_inps graph_type n st =
                 step lowerings2 placeholder_inps graph_type n st).
    { unfold step. unfold is_op in Hn.
      destruct (node_op_ n); try reflexivity. discriminate. }
    rewrite Es. destruct (step lowerings2 _ _ n st); [apply IH, Hns|reflexivity]. }
  rewrite E. reflexivity.
Qed.

(** Witness of X1: the sixth placeholder of a forward graph reads
    [other_buffers[0]]. *)
Lemma X1_lifted_placeholders_read_other_buffers_witness :
  let st := state_after demo_lowerings fwd_sentinels FWD fwd_placeholders
              (demo_leading ++ demo_other_buffers) in
  step demo_lowerings fwd_sentinels FWD (ph "late") st =
    Next (mkState 6 (<["late" := demo_tensor "bias0" [4]]> (env st))
            (demo_leading ++ demo_other_buffers)).
Proof.
  intros st.
  rewrite (X1_lifted_placeholders_read_other_buffers demo_lowerings
             fwd_sentinels FWD demo_leading demo_other_buffers
             fwd_placeholders (ph "late") st
             eq_refl eq_refl eq_refl eq_refl eq_refl);
    [reflexivity | vm_compute; discriminate].
Defined.

(** Witness of X2: a placeholder after the output node of the identity
    graph changes nothing. *)
Lemma X2_nodes_after_output_are_ignored_witness :
  build_subgraph_buffer demo_lowerings demo_fwd_args fwd_sentinels
    (fwd_placeholders ++ output_of "score" :: []) FWD =
  build_subgraph_buffer demo_lowerings demo_fwd_args fwd_sentinels
    (fwd_placeholders ++ output_of "score" :: [ph "late"]) FWD.
Proof.
  apply (X2_nodes_after_output_are_ignored demo_lowerings fwd_sentinels FWD
           demo_fwd_args fwd_placeholders [] [ph "late"] (output_of "score")).
  reflexivity.
Defined.

(** Witness of X4: the identity graph inlines under an empty table. *)
Lemma X4_lowerings_only_at_calls_witness :
  build_subgraph_buffer demo_lowerings demo_fwd_args fwd_sentinels
    (fwd_placeholders ++ [output_of "score"]) FWD =
  build_subgraph_buffer no_lowerings demo_fwd_args fwd_sentinels
    (fwd_placeholders ++ [output_of "score"]) FWD.
Proof.
  apply (X4_lowerings_only_at_calls demo_lowerings no_lowerings demo_fwd_args
           fwd_sentinels (fwd_placeholders ++ [output_of "score"]) FWD).
  reflexivity.
Defined.

Lemma fwd_placeholder_names_distinct :
  List.NoDup (node_names fwd_placeholders).
Proof.
  unfold node_names. simpl.
  repeat (constructor; [simpl; intuition discriminate|]). constructor.
Qed.

(** Witness of X5: the placeholder [h] of a forward graph ends bound to the
    third sentinel. *)
Lemma X5_placeholder_bindings_persist_witness :
  env (state_after demo_lowerings fwd_sentinels FWD fwd_placeholders
         demo_fwd_args) !! "h" =
  Some (create_placeholder "h" int32 "cuda").
Proof.
  destruct (X5_placeholder_bindings_persist demo_lowerings fwd_sentinels FWD
              demo_fwd_args [ph "score"; ph "b"] [ph "m"; ph "n"] (ph "h")
              (state_after demo_lowerings fwd_sentinels FWD fwd_placeholders
                 demo_fwd_args)
              fwd_placeholder_names_distinct eq_refl eq_refl eq_refl)
    as [H _].
  destruct (H ltac:(vm_compute; reflexivity)) as [E _].
  exact E.
Defined.

(** Witness of X6: the forward graph that returns a node [ghost] it never
    defines. *)
Lemma X6_unbound_output_raises_witness :
  build_subgraph_buffer demo_lowerings demo_fwd_args fwd_sentinels
    (fwd_placeholders ++ output_of "ghost" :: []) FWD = Raise KeyError.
Proof.
  destruct (X6_unbound_output_raises demo_lowerings fwd_sentinels FWD
              demo_fwd_args fwd_placeholders [] (output_of "ghost")
              (state_after demo_lowerings fwd_sentinels FWD fwd_placeholders
                 demo_fwd_args) eq_refl eq_refl) as [_ H].
  apply (H "ghost"); [reflexivity|].
  simpl. intuition discriminate.
Defined.

(** Witness of X7: the identity modification inlines to the [score]
    placeholder. *)
Lemma X7_returning_a_sentinel_witness :
  build_subgraph_buffer demo_lowerings demo_fwd_args fwd_sentinels
    (([] ++ ph "score" :: [ph "b"; ph "h"; ph "m"; ph "n"])
     ++ output_of "score" :: []) FWD =
  Ok (mkComputedBuffer None (mkFlexibleLayout "cuda" float32 [1])
        (Buffer "score" "cuda" float32 [1])).
Proof.
  apply (X7_returning_a_sentinel demo_lowerings fwd_sentinels FWD
           demo_fwd_args [] [ph "b"; ph "h"; ph "m"; ph "n"] []
           (ph "score") (output_of "score")
           (state_after demo_lowerings fwd_sentinels FWD fwd_placeholders
              demo_fwd_args) "score" "cuda" float32).
  - exact fwd_placeholder_names_distinct.
  - reflexivity.
  - reflexivity.
  - reflexivity.
  - reflexivity.
  - reflexivity.
  - reflexivity.
Defined.

(** * More on the tiling policy *)

(** Decides the cases of a nest of conditionals in the hypothesis [H]. *)
Ltac split_conditions H :=
  repeat match type of H with
         | context [if ?b then _ else _] => destruct b
         end.

Ltac member := cbn [In]; repeat (first [left; reflexivity | right]).

(** X8: every forward configuration, default or enumerated, on any device,
    dtype and head dimension, has [BLOCK_M] in {32, 64, 128}, [BLOCK_N] in
    {16, 32, 64, 128}, 4 or 8 warps and 2 or 3 stages. *)
Theorem X8_forward_configs_in_range (autotune : bool) (capability : Z * Z)
    (d : dtype) (head_dim : Z) (BLOCK_M' BLOCK_N' num_warps num_stages : Z) :
  In (BLOCK_M', BLOCK_N', num_warps, num_stages)
     (fwd_configs autotune capability d head_dim) ->
  In BLOCK_M' [32; 64; 128] /\ In BLOCK_N' [16; 32; 64; 128] /\
  In num_warps [4; 8] /\ In num_stages [2; 3].
Proof.
  intros Hin.
  unfold fwd_configs, _get_default_config_fwd, _h100_default_config,
    _a100_default_config, dict_get in Hin.
  destruct d; cbn [dtype_eqb] in Hin; split_conditions Hin;
    cbn [app In] in Hin;
    repeat (destruct Hin as [Hin|Hin]; [injection Hin as <- <- <- <-|]);
    try contradiction; repeat split; member.
Qed.

(** X9: every backward configuration has both block sizes in
    {16, 32, 64, 128}, 4 or 8 warps and 1 or 3 stages. *)
Theorem X9_backward_configs_in_range (autotune : bool) (capability : Z * Z)
    (d : dtype) (head_dim : Z) (BLOCK1 BLOCK2 num_warps num_stages : Z) :
  In (BLOCK1, BLOCK2, num_warps, num_stages)
     (bwd_configs autotune capability d head_dim) ->
  In BLOCK1 [16; 32; 64; 128] /\ In BLOCK2 [16; 32; 64; 128] /\
  In num_warps [4; 8] /\ In num_stages [1; 3].
Proof.
  intros Hin.
  unfold bwd_configs, _get_default_config_bwd in Hin.
  destruct autotune;
    [change (BLOCK1 ← [32; 64]; BLOCK2 ← [32; 64]; w ← [4; 8]; s ← [1; 3];
             [(BLOCK1, BLOCK2, w, s)])
       with [(32, 32, 4, 1); (32, 32, 4, 3); (32, 32, 8, 1); (32, 32, 8, 3);
             (32, 64, 4, 1); (32, 64, 4, 3); (32, 64, 8, 1); (32, 64, 8, 3);
             (64, 32, 4, 1); (64, 32, 4, 3); (64, 32, 8, 1); (64, 32, 8, 3);
             (64, 64, 4, 1); (64, 64, 4, 3); (64, 64, 8, 1); (64, 64, 8, 3)]
       in Hin|];
    split_conditions Hin; cbn [app In] in Hin;
    repeat (destruct Hin as [Hin|Hin]; [injection Hin as <- <- <- <-|]);
    try contradiction; repeat split; member.
Qed.

(** X10: a head dimension above 256, or a device below compute capability
    8.0, always gets the small default tiles: (32, 16, 4, 3) for float32 and
    (64, 32, 4, 3) otherwise in the forward pass, (16, 16, 4, 1) in the
    backward pass. *)
Theorem X10_modest_defaults (capability : Z * Z) (d : dtype) (head_dim : Z) :
  256 < head_dim \/ capability_ge capability 8 0 = false ->
  _get_default_config_fwd capability d head_dim =
    (if dtype_eqb d float32 then (32, 16, 4, 3) else (64, 32, 4, 3)) /\
  _get_default_config_bwd capability d head_dim = (16, 16, 4, 1).
Proof.
  intros Hc.
  assert (E : forall major, 8 <= major ->
            (head_dim <=? 256) && capability_ge capability major 0 = false).
  { intros major Hm. destruct Hc as [Hc|Hc].
    - apply Z.leb_gt in Hc. rewrite Hc. reflexivity.
    - apply andb_false_intro2. unfold capability_ge in *.
      apply orb_false_iff in Hc as [H1 H2]. apply Z.ltb_ge in H1.
      apply orb_false_iff. split.
      + apply Z.ltb_ge. lia.
      + destruct (fst capability =? major) eqn:E1; [|reflexivity].
        apply Z.eqb_eq in E1.
        assert (major = 8) as -> by lia. rewrite E1 in H2.
        rewrite Z.eqb_refl in H2. exact H2. }
  unfold _get_default_config_fwd, _get_default_config_bwd.
  rewrite (E 9 ltac:(lia)), (E 8 ltac:(lia)). split; reflexivity.
Qed.

(** Witness of X8: the default of an A100 for bfloat16 and head dimension
    256. *)
Lemma X8_forward_configs_in_range_witness :
  In 32 [32; 64; 128] /\ In 64 [16; 32; 64; 128] /\
  In 4 [4; 8] /\ In 3 [2; 3].
Proof.
  apply (X8_forward_configs_in_range false (8, 0) bfloat16 256 32 64 4 3).
  left. reflexivity.
Defined.

(** Witness of X9: an enumerated configuration. *)
Lemma X9_backward_configs_in_range_witness :
  In 32 [16; 32; 64; 128] /\ In 64 [16; 32; 64; 128] /\
  In 8 [4; 8] /\ In 3 [1; 3].
Proof.
  apply (X9_backward_configs_in_range true (9, 0) float32 64 32 64 8 3).
  vm_compute. tauto.
Defined.

(** Witness of X10: head dimension 512 on an H100. *)
Lemma X10_modest_defaults_witness :
  _get_default_config_fwd (9, 0) float32 512 = (32, 16, 4, 3) /\
  _get_default_config_bwd (9, 0) float32 512 = (16, 16, 4, 1).
Proof.
  apply (X10_modest_defaults (9, 0) float32 512). left. reflexivity.
Defined.

(** * More on the two lowerings *)

(** X12: what a successful [flex_attention] returns.  The logsumexp buffer
    has the query's size without its last axis and dtype float32 whatever
    the query's dtype; the output is selected among candidates that all read
    [query, key, value, logsumexp], mutate [logsumexp] only, are specialised
    on the query's last axis as [BLOCK_DMODEL], and carry
    [ROWS_GUARANTEED_SAFE=True] and [OUTPUT_LOGSUMEXP=True]; the buffers
    captured by the modification follow the four inputs for autotuning. *)
Theorem X12_forward_lowering_result (host : Host) (args : list obj)
    (out logsumexp : obj) :
  flex_attention host args = Ok (out, logsumexp) ->
  exists query key value subgraph other_buffers q head_dim choices,
    args = query :: key :: value :: subgraph :: other_buffers /\
    get_layout query = Ok q /\
    py_getitem (layout_size q) (-1) = Ok head_dim /\
    logsumexp =
      empty_strided host (removelast (layout_size q)) float32 (layout_device q) /\
    out =
      autotune_select_algorithm host "flex_attention" choices
        ([query; key; value; logsumexp] ++ other_buffers)%list
        (mkFixedLayout (layout_device q) (layout_dtype q) (layout_size q)
           (contiguous_strides host (layout_size q))) /\
    forall c, In c choices ->
      exists fc, c = FwdChoice fc /\
        fwd_input_nodes fc = [query; key; value; logsumexp] /\
        fwd_mutated_inputs fc = [logsumexp] /\
        fwd_call_sizes fc = layout_size q /\
        BLOCK_DMODEL (fwd_kwargs fc) = head_dim /\
        ROWS_GUARANTEED_SAFE (fwd_kwargs fc) = true /\
        OUTPUT_LOGSUMEXP (fwd_kwargs fc) = true.
Proof.
  intros Hok. unfold flex_attention in Hok.
  apply bind_ok_inv in Hok as (l & Hbody & Hr). injection Hr as <- <-.
  apply flex_attention_body_ok in Hbody
    as (query & key & value & subgraph & other_buffers & q & nodes
        & head_dim & Hargs & Hq & _ & _ & Hhd & Hlay & Hlse & Hch & Hin).
  exists query, key, value, subgraph, other_buffers, q, head_dim, (fl_choices l).
  split; [exact Hargs|]. split; [exact Hq|]. split; [exact Hhd|].
  split; [exact Hlse|]. split; [rewrite Hin, Hlay; reflexivity|].
  intros c Hc. rewrite Hch in Hc.
  apply in_maybe_append_choices, in_map_iff in Hc
    as ([[[B1 B2] w] s] & <- & _).
  eexists. split; [reflexivity|]. simpl. repeat split.
Qed.

(** Witness of X12: the demo forward lowering. *)
Lemma X12_forward_lowering_result_witness :
  exists out,
    flex_attention demo_host demo_flex_args =
      Ok (out, empty_strided demo_host [1; 1; 4] float32 "cuda").
Proof.
  assert (E : flex_attention demo_host demo_flex_args =
              Ok (autotune_select_algorithm demo_host "flex_attention"
                    (fl_choices demo_fwd_lowering)
                    (fl_inputs_for_autotuning demo_fwd_lowering)
                    (fl_layout demo_fwd_lowering),
                  fl_logsumexp demo_fwd_lowering))
    by (vm_compute; reflexivity).
  destruct (X12_forward_lowering_result demo_host demo_flex_args _ _ E)
    as (query & key & value & subgraph & other_buffers & q & head_dim
        & choices & Hargs & Hq & _ & Hlse & _).
  unfold demo_flex_args in Hargs. injection Hargs as <- <- <- <- <-.
  injection Hq as <-. simpl in Hlse.
  eexists. rewrite E, Hlse. reflexivity.
Defined.

(** X13: [maybe_append_choice] can only drop candidates: the forward
    lowering benchmarks at most one candidate, or at most six under
    [max_autotune], the backward lowering at most one, or seventeen; when
    the template generates for every configuration these bounds are met. *)
Theorem X13_number_of_candidates (host : Host) (args : list obj) :
  (forall l, flex_attention_body host args = Ok l ->
     (List.length (fl_choices l) <= (if max_autotune host then 6 else 1))%nat /\
     ((forall c, template_generates host c = true) ->
      List.length (fl_choices l) = (if max_autotune host then 6 else 1)%nat)) /\
  (forall l, flex_attention_backward_body host args = Ok l ->
     (List.length (bl_choices l) <= (if max_autotune host then 17 else 1))%nat /\
     ((forall c, template_generates host c = true) ->
      List.length (bl_choices l) = (if max_autotune host then 17 else 1)%nat)).
Proof.
  assert (Hf : forall (cands : list choice) n, List.length cands = n ->
    (List.length (maybe_append_choices host cands) <= n)%nat /\
    ((forall c, template_generates host c = true) ->
     List.length (maybe_append_choices host cands) = n)).
  { intros cands n <-. unfold maybe_append_choices. split.
    - apply filter_length_le.
    - intros Hall. f_equal. apply forallb_filter_id.
      apply forallb_forall. intros c _. apply Hall. }
  split; intros l Hok.
  - apply flex_attention_body_ok in Hok
      as (query & key & value & subgraph & other_buffers & q & nodes
          & head_dim & _ & _ & _ & _ & _ & _ & _ & Hch & _).
    rewrite Hch. apply Hf. rewrite length_map. unfold fwd_configs.
    destruct (max_autotune host); reflexivity.
  - apply flex_attention_backward_body_ok in Hok
      as (query & key & value & out & logsumexp & grad_out & fw_graph
          & joint_graph & other_buffers & q & k & v & head_dim & kv_len
          & _ & _ & _ & _ & _ & _ & _ & _ & _ & _ & Hch & _).
    rewrite Hch. apply Hf. rewrite length_map. unfold bwd_configs.
    destruct (max_autotune host); reflexivity.
Qed.

(** Witness of X13: the demo host autotunes and generates every template. *)
Lemma X13_number_of_candidates_witness :
  List.length (fl_choices demo_fwd_lowering) = 6%nat.
Proof.
  destruct (X13_number_of_candidates demo_host demo_flex_args) as [H _].
  destruct (H demo_fwd_lowering ltac:(vm_compute; reflexivity)) as [_ E].
  apply E. reflexivity.
Defined.

(** X14: what a successful [flex_attention_backward] builds.  The forward
    graph is inlined in the recompute role with the five forward sentinels,
    the joint graph in the backward role with those five followed by
    [grad_score_mod] of the query's dtype, both against the lowering's own
    argument list; every candidate inlines the two in that order, writes its
    template output (the key's gradient) in the key's layout, and is
    launched on the query's size extended by the key length. *)
Theorem X14_backward_lowering_graphs (host : Host) (args : list obj)
    (l : bwd_lowering) :
  flex_attention_backward_body host args = Ok l ->
  exists query key value out logsumexp grad_out fw_nodes joint_nodes
         other_buffers q k kv_len head_dim,
    args = query :: key :: value :: out :: logsumexp :: grad_out
             :: PySubgraph fw_nodes :: PySubgraph joint_nodes :: other_buffers /\
    get_layout query = Ok q /\ get_layout key = Ok k /\
    py_getitem (layout_size k) 2 = Ok kv_len /\
    py_getitem (layout_size q) (-1) = Ok head_dim /\
    build_subgraph_buffer (lowerings host) args
      (fwd_placeholder_inps (layout_dtype q) (layout_device q))
      fw_nodes JOINT_FWD = Ok (bl_fw_subgraph_buffer l) /\
    build_subgraph_buffer (lowerings host) args
      (fwd_placeholder_inps (layout_dtype q) (layout_device q) ++
       [create_placeholder "grad_score_mod" (layout_dtype q) (layout_device q)])
      joint_nodes JOINT_BWD = Ok (bl_joint_subgraph_buffer l) /\
    bl_layout_k l =
      mkFixedLayout (layout_device k) (layout_dtype k) (layout_size k)
        (contiguous_strides host (layout_size k)) /\
    forall c, In c (bl_choices l) ->
      exists bc, c = BwdChoice bc /\
        bwd_subgraphs bc =
          [bl_fw_subgraph_buffer l; bl_joint_subgraph_buffer l] /\
        bwd_layout bc = bl_layout_k l /\
        bwd_call_sizes bc = (layout_size q ++ [kv_len])%list /\
        bwd_BLOCK_DMODEL (bwd_kwargs bc) = head_dim.
Proof.
  intros H.
  pose proof (flex_attention_backward_body_ok _ _ _ H)
    as (query0 & key0 & value0 & out0 & logsumexp0 & grad_out0 & fw0 & joint0
        & others0 & q0 & k0 & v0 & hd0 & kv0 & Hargs & Hq0 & Hk0 & _ & Hhd0
        & Hkv0 & _ & _ & _ & _ & Hch & _).
  revert H. subst args. unfold flex_attention_backward_body.
  set (query := query0); set (key := key0); set (value := value0);
    set (out := out0); set (logsumexp := logsumexp0);
    set (grad_out := grad_out0); set (fw_graph := fw0);
    set (joint_graph := joint0); set (other_buffers := others0).
  intros H.
  bind_ok q Eq in H.
  bind_ok fw_nodes E1 in H.
  bind_ok fsb E2 in H.
  bind_ok joint_nodes E3 in H.
  bind_ok jsb E4 in H.
  bind_ok k Ek in H.
  bind_ok md Em in H.
  bind_ok dl Es in H.
  bind_ok v Ev in H.
  bind_ok hd Eh in H.
  bind_ok kv Ekv in H.
  cbv zeta in H.
  assert (Hl : bl_fw_subgraph_buffer l = fsb /\ bl_joint_subgraph_buffer l = jsb
               /\ bl_layout_k l =
                    mkFixedLayout (layout_device k) (layout_dtype k)
                      (layout_size k) (contiguous_strides host (layout_size k))).
  { injection H as <-. repeat split. }
  destruct Hl as (Hf & Hj & Hlk). clear H.
  subst query key value out logsumexp grad_out fw_graph joint_graph
    other_buffers.
  rewrite Hq0 in Eq. injection Eq as <-.
  rewrite Hk0 in Ek. injection Ek as <-.
  rewrite Hhd0 in Eh. injection Eh as <-.
  rewrite Hkv0 in Ekv. injection Ekv as <-.
  destruct fw0; try discriminate E1. injection E1 as ->.
  destruct joint0; try discriminate E3. injection E3 as ->.
  exists query0, key0, value0, out0, logsumexp0, grad_out0, fw_nodes,
    joint_nodes, others0, q0, k0, kv0, hd0.
  split; [reflexivity|]. split; [exact Hq0|]. split; [exact Hk0|].
  split; [exact Hkv0|]. split; [exact Hhd0|].
  split; [rewrite Hf; exact E2|]. split; [rewrite Hj; exact E4|].
  split; [exact Hlk|].
  intros c Hc. rewrite Hch in Hc.
  apply in_maybe_append_choices, in_map_iff in Hc
    as ([[[B1 B2] w] s] & <- & _).
  eexists. split; [reflexivity|]. simpl. repeat split.
Qed.

(** Witness of X14: the demo backward lowering. *)
Lemma X14_backward_lowering_graphs_witness :
  build_subgraph_buffer (lowerings demo_host) demo_bwd_args
    (fwd_placeholder_inps float32 "cuda" ++
     [create_placeholder "grad_score_mod" float32 "cuda"])
    identity_joint_graph JOINT_BWD =
  Ok (bl_joint_subgraph_buffer demo_bwd_lowering).
Proof.
  destruct (X14_backward_lowering_graphs demo_host demo_bwd_args
              demo_bwd_lowering ltac:(vm_compute; reflexivity))
    as (query & key & value & out & logsumexp & grad_out & fw_nodes
        & joint_nodes & other_buffers & q & k & kv_len & head_dim
        & Hargs & Hq & _ & _ & _ & _ & Hj & _).
  unfold demo_bwd_args in Hargs. injection Hargs as <- <- <- <- <- <- <- <- <-.
  injection Hq as <-. exact Hj.
Defined.

(** * More on the forward template *)

Local Open Scope R_scope.

Lemma exp2_log2 (a : R) : 0 < a -> exp2 (log2 a) = a.
Proof.
  intros Ha. unfold exp2, log2.
  replace (ln a / ln 2 * ln 2) with (ln a) by (field; pose proof ln2_pos; lra).
  apply exp_ln, Ha.
Qed.

Lemma fexp2_nonneg (x : fp) : 0 <= fin_val (fexp2 x).
Proof. destruct x; simpl; try lra. apply Rlt_le, exp2_pos. Qed.

(** ** Layouts *)

(** When the batch stride is [H] times the head stride [hs], a program that
    moves the base by [off_hz * hs] reads the elements of its batch and
    head. *)
Lemma as_read_elem (mem : memory) (s : strides) (hs H : nat) :
  stride_z s = (H * hs)%nat -> stride_h s = hs ->
  as_read mem hs s H = elem mem s.
Proof.
  intros Ez Eh.
  apply functional_extensionality. intros b.
  apply functional_extensionality. intros h.
  apply functional_extensionality. intros r.
  apply functional_extensionality. intros d.
  unfold as_read, elem. rewrite Ez, Eh. f_equal. nia.
Qed.

Lemma batch_major_reads (Q K V : memory) (sq sk sv : strides) (H : nat) :
  batch_major H sq sk sv ->
  as_read Q (stride_h sq) sq H = elem Q sq /\
  as_read K (stride_h sk) sk H = elem K sk /\
  as_read V (stride_h sk) sv H = elem V sv.
Proof.
  intros (Eq & Ek & Ev & Evk). split; [|split].
  - apply as_read_elem; [exact Eq | reflexivity].
  - apply as_read_elem; [exact Ek | reflexivity].
  - apply as_read_elem; [rewrite Ev, Evk; reflexivity | exact Evk].
Qed.

(** Contiguous tensors of shapes [[Z, H, M, D]] and [[Z, H, N, D]] are laid
    out so. *)
Lemma contiguous_batch_major (H M N D : nat) :
  batch_major H (contiguous H M D) (contiguous H N D) (contiguous H N D).
Proof. unfold batch_major, contiguous. simpl. repeat split; lia. Qed.

(** [forward_is_direct] on the elements of the tensors. *)
Lemma forward_is_direct_elem (modification : score_mod) (Q K V : memory)
    (sq sk sv : strides) (H Q_LEN KV_LEN : nat) (meta : fwd_meta)
    (b h m d T : nat) :
  batch_major H sq sk sv ->
  (0 < BM meta)%nat -> (0 < BN meta)%nat -> (h < H)%nat ->
  KV_LEN = (T * BN meta)%nat ->
  (forall n, (n < KV_LEN)%nat ->
     finite_or_masked
       (scaled_score modification (elem Q sq) (elem K sk) meta b h m n)) ->
  (forall n, (n < KV_LEN)%nat -> is_fin (elem V sv b h n d)) ->
  (ROWS_GUARANTEED_SAFE meta = true ->
   exists j, (j < BN meta)%nat /\
     is_fin (scaled_score modification (elem Q sq) (elem K sk) meta b h m j)) ->
  forward_output modification Q K V sq sk sv H Q_LEN KV_LEN meta b h m d =
    direct_attention
      (scaled_score modification (elem Q sq) (elem K sk) meta b h m)
      (elem V sv) KV_LEN b h d /\
  forward_logsumexp modification Q K V sq sk sv H Q_LEN KV_LEN meta b h m =
    if OUTPUT_LOGSUMEXP meta
    then Some (direct_logsumexp2
                 (scaled_score modification (elem Q sq) (elem K sk) meta b h m)
                 KV_LEN)
    else None.
Proof.
  intros HL.
  destruct (batch_major_reads Q K V sq sk sv H HL) as (EQ & EK & EV).
  rewrite <- EQ, <- EK, <- EV. apply forward_is_direct.
Qed.

(** Where one program stores to an offset of [LSE], what it stores is the
    one value a launch leaves there. *)
Lemma lse_written_unique (modification : score_mod) (Q K V : memory)
    (sq sk sv : strides) (batch H Q_LEN KV_LEN : nat) (meta : fwd_meta)
    (b h m : nat) (y : fp) :
  (0 < BM meta)%nat -> (b < batch)%nat -> (h < H)%nat -> (m < Q_LEN)%nat ->
  (batch * H = 1)%nat \/ (exists k, Q_LEN = (k * BM meta)%nat) ->
  forward_logsumexp modification Q K V sq sk sv H Q_LEN KV_LEN meta b h m =
    Some y ->
  forall x,
    lse_written modification Q K V sq sk sv batch H Q_LEN KV_LEN meta
      ((b * H + h) * Q_LEN + m)%nat x <-> x = y.
Proof.
  intros HBM Hb Hh Hm Hone Ey x.
  rewrite (lse_written_owner modification Q K V sq sk sv batch H Q_LEN KV_LEN
             meta b h m x HBM Hb Hh Hm Hone), Ey.
  split; [intros [= ->]; reflexivity | intros ->; reflexivity].
Qed.

(** The sums behind a row with an unmasked key: with [W] the sum of the
    weights [2^score[n]], the logsumexp is [log2 W], the output the weighted
    sum of the value rows over [W], and [2^(score[n] - log2 W)] the weight
    of key [n] over [W]. *)
Lemma forward_row_sums (modification : score_mod)
    (Q K V : memory) (sq sk sv : strides) (H Q_LEN KV_LEN : nat)
    (meta : fwd_meta) (b h m T : nat) :
  batch_major H sq sk sv ->
  (0 < BM meta)%nat -> (0 < BN meta)%nat -> (h < H)%nat ->
  KV_LEN = (T * BN meta)%nat ->
  OUTPUT_LOGSUMEXP meta = true ->
  (forall n, (n < KV_LEN)%nat ->
     finite_or_masked
       (scaled_score modification (elem Q sq) (elem K sk) meta b h m n)) ->
  (ROWS_GUARANTEED_SAFE meta = true ->
   exists j, (j < BN meta)%nat /\
     is_fin (scaled_score modification (elem Q sq) (elem K sk) meta b h m j)) ->
  (exists k, (k < KV_LEN)%nat /\
     is_fin (scaled_score modification (elem Q sq) (elem K sk) meta b h m k)) ->
  let s := scaled_score modification (elem Q sq) (elem K sk) meta b h m in
  let W := rsum (weight2 s) KV_LEN in
  0 < W /\
  forward_logsumexp modification Q K V sq sk sv H Q_LEN KV_LEN meta b h m =
    Some (Fin (log2 W)) /\
  (forall d,
     (forall n, (n < KV_LEN)%nat -> is_fin (elem V sv b h n d)) ->
     forward_output modification Q K V sq sk sv H Q_LEN KV_LEN meta b h m d =
       Fin (rsum (fun n => weight2 s n * fin_val (elem V sv b h n d)) KV_LEN
            / W)) /\
  (forall n, (n < KV_LEN)%nat ->
     fin_val (fexp2 (fsub (s n) (Fin (log2 W)))) = weight2 s n * / W).
Proof.
  intros HL HBM HBN Hh HKV Hlse Hs Hsafe (k & Hk & Hfin) s W.
  assert (HWpos : 0 < W).
  { apply (rsum_pos _ _ k); [intros; apply weight2_nonneg | exact Hk |].
    apply weight2_fin, Hfin. }
  assert (HW : tl_sum KV_LEN (fun n => fexp2 (s n)) = Fin W).
  { apply tl_sum_fin. intros n Hn. apply fexp2_weight2, Hs, Hn. }
  assert (Hinv : exp2 (- log2 W) = / W).
  { pose proof (exp2_neg (log2 W)) as E. rewrite exp2_log2 in E by exact HWpos.
    apply (Rmult_eq_reg_l W); [|lra]. rewrite E. field. lra. }
  split; [exact HWpos|]. split; [|split].
  - rewrite (forward_logsumexp_without_V modification Q K V zeros sq sk sv sv).
    destruct (forward_is_direct_elem modification Q K zeros sq sk sv H Q_LEN
                KV_LEN meta b h m O T) as [_ E2]; try assumption.
    { intros n _. exists 0. reflexivity. }
    rewrite E2, Hlse. unfold direct_logsumexp2. fold s.
    rewrite HW, flog2_pos by exact HWpos. reflexivity.
  - intros d HV.
    destruct (forward_is_direct_elem modification Q K V sq sk sv H Q_LEN KV_LEN
                meta b h m d T) as [E1 _]; try assumption.
    rewrite E1. unfold direct_attention. fold s. rewrite HW.
    rewrite (tl_sum_fin KV_LEN _
               (fun n => weight2 s n * fin_val (elem V sv b h n d))).
    + apply fdiv_fin. lra.
    + intros n Hn. rewrite (fexp2_weight2 s n (Hs n Hn)).
      destruct (HV n Hn) as [x ->]. reflexivity.
  - intros n Hn. rewrite fexp2_shift by (apply Hs, Hn). simpl.
    rewrite Hinv. reflexivity.
Qed.

(** X15: the two results of the forward pass fit together.  Let [Q], [K]
    and [V] be laid out batch-major, [BLOCK_N] divide [KV_LEN], the scores of
    row [m] be finite or [-inf] with one of them finite, the values of column
    [d] be finite, and, if [ROWS_GUARANTEED_SAFE] is set, one score of the
    first key tile be finite; let [OUTPUT_LOGSUMEXP] be set and either the
    launch have one batch and head or [BLOCK_M] divide [Q_LEN].  Then a
    launch stores one value [lse] at the row's offset of [LSE], it is
    finite, the numbers [2^(score[n] - lse)] are nonnegative and sum to one
    over the keys, and the output at column [d] is the average of the values
    with these weights. *)
Theorem X15_output_is_weighted_average (modification : score_mod)
    (Q K V : memory) (sq sk sv : strides) (batch H Q_LEN KV_LEN : nat)
    (meta : fwd_meta) (b h m d T : nat) :
  batch_major H sq sk sv ->
  (0 < BM meta)%nat -> (0 < BN meta)%nat ->
  (b < batch)%nat -> (h < H)%nat -> (m < Q_LEN)%nat ->
  (batch * H = 1)%nat \/ (exists k, Q_LEN = (k * BM meta)%nat) ->
  KV_LEN = (T * BN meta)%nat ->
  OUTPUT_LOGSUMEXP meta = true ->
  (forall n, (n < KV_LEN)%nat ->
     finite_or_masked
       (scaled_score modification (elem Q sq) (elem K sk) meta b h m n)) ->
  (forall n, (n < KV_LEN)%nat -> is_fin (elem V sv b h n d)) ->
  (ROWS_GUARANTEED_SAFE meta = true ->
   exists j, (j < BN meta)%nat /\
     is_fin (scaled_score modification (elem Q sq) (elem K sk) meta b h m j)) ->
  (exists k, (k < KV_LEN)%nat /\
     is_fin (scaled_score modification (elem Q sq) (elem K sk) meta b h m k)) ->
  exists lse : R,
    (forall x,
       lse_written modification Q K V sq sk sv batch H Q_LEN KV_LEN meta
         ((b * H + h) * Q_LEN + m)%nat x <-> x = Fin lse) /\
    let p := fun n =>
      fin_val (fexp2 (fsub (scaled_score modification (elem Q sq) (elem K sk)
                              meta b h m n)
                           (Fin lse))) in
    (forall n, 0 <= p n) /\
    rsum p KV_LEN = 1 /\
    forward_output modification Q K V sq sk sv H Q_LEN KV_LEN meta b h m d =
      Fin (rsum (fun n => p n * fin_val (elem V sv b h n d)) KV_LEN).
Proof.
  intros HL HBM HBN Hb Hh Hm Hone HKV Hlse Hs HV Hsafe Hfin.
  destruct (forward_row_sums modification Q K V sq sk sv H Q_LEN KV_LEN meta
              b h m T) as (HWpos & Else & Eout & Hp); try assumption.
  set (s := scaled_score modification (elem Q sq) (elem K sk) meta b h m) in *.
  set (W := rsum (weight2 s) KV_LEN) in *.
  exists (log2 W). split; [|split; [|split]].
  - apply lse_written_unique; assumption.
  - intros n. apply fexp2_nonneg.
  - rewrite (rsum_ext _ (fun n => weight2 s n * / W)) by exact Hp.
    rewrite rsum_scale. fold W. field. lra.
  - rewrite (Eout d HV). apply Fin_eq. symmetry.
    rewrite (rsum_ext _
               (fun n => weight2 s n * fin_val (elem V sv b h n d) * / W)).
    + rewrite rsum_scale. reflexivity.
    + intros n Hn. cbv beta. rewrite (Hp n Hn). ring.
Qed.

(** Witness of X15: zero inputs, 32 queries and 16 keys of dimension 16 in
    tiles of 32 by 16; row 5. *)
Lemma X15_output_is_weighted_average_witness :
  let meta := mkFwdMeta 32 16 16 true true true in
  let sq := contiguous 1 32 16 in
  let sk := contiguous 1 16 16 in
  exists lse : R,
    (forall x,
       lse_written identity_mod zeros zeros zeros sq sk sk 1 1 32 16 meta
         ((0 * 1 + 0) * 32 + 5)%nat x <-> x = Fin lse) /\
    let p := fun n =>
      fin_val (fexp2 (fsub (scaled_score identity_mod (elem zeros sq)
                              (elem zeros sk) meta 0 0 5 n)
                           (Fin lse))) in
    (forall n, 0 <= p n) /\
    rsum p 16 = 1 /\
    forward_output identity_mod zeros zeros zeros sq sk sk 1 32 16 meta
      0 0 5 0 =
      Fin (rsum (fun n => p n * fin_val (elem zeros sk 0%nat 0%nat n 0%nat))
             16).
Proof.
  intros meta sq sk.
  apply (X15_output_is_weighted_average identity_mod zeros zeros zeros
           sq sk sk 1 1 32 16 meta 0 0 5 0 1).
  - apply contiguous_batch_major.
  - unfold BM. simpl. lia.
  - unfold BN. simpl. lia.
  - lia.
  - lia.
  - lia.
  - left. reflexivity.
  - reflexivity.
  - reflexivity.
  - intros n _. right. eexists. unfold scaled_score, elem, zeros.
    rewrite zero_dot. reflexivity.
  - intros n _. exists 0. reflexivity.
  - intros _. exists O. split; [unfold BN; simpl; lia|].
    eexists. unfold scaled_score, elem, zeros. rewrite zero_dot. reflexivity.
  - exists O. split; [lia|].
    eexists. unfold scaled_score, elem, zeros. rewrite zero_dot. reflexivity.
Defined.

(** The scores of zero queries and keys. *)
Lemma zero_scaled_score_elem (modification : score_mod) (s s' : strides)
    (meta : fwd_meta) (b h m n : nat) :
  scaled_score modification (elem zeros s) (elem zeros s') meta b h m n =
  change_base meta (modification (Fin 0) b h m n).
Proof. unfold scaled_score, elem, zeros. rewrite zero_dot. reflexivity. Qed.




(** A masked key has the score [-inf] whichever way the base is changed. *)
Lemma change_base_ninf (meta : fwd_meta) : change_base meta NInf = NInf.
Proof.
  unfold change_base. destruct (SCORE_MOD_IS_LINEAR meta); [reflexivity|].
  apply fmul_ninf_pos, LOG2E_pos.
Qed.

(** X17: a key that the mask rejects for a query row does not reach that
    row's result.  Take the modification
    [where(keep, inner(score), -inf)], batch-major [Q], [K] and [V], and a
    [BLOCK_N] that divides [KV_LEN]; let the scores of row [m] be finite or
    [-inf], with a finite one in the first key tile if
    [ROWS_GUARANTEED_SAFE] is set.  Two launches whose keys, in the first
    [BLOCK_DMODEL] columns, and whose values, in column [d], agree on the
    keys kept for row [m], and whose values in column [d] are finite at all
    keys, leave the same output at [[b, h, m, d]]; and when the launch has
    one batch and head, or [BLOCK_M] divides [Q_LEN], they store the same
    values at the row's offset of [LSE]. *)
Theorem X17_masked_keys_do_not_count
    (keep : nat -> nat -> nat -> nat -> bool) (inner : score_mod)
    (Q K V K' V' : memory) (sq sk sv : strides) (batch H Q_LEN KV_LEN : nat)
    (meta : fwd_meta) (b h m d T : nat) :
  batch_major H sq sk sv ->
  (0 < BM meta)%nat -> (0 < BN meta)%nat -> (h < H)%nat ->
  (0 < KV_LEN)%nat -> KV_LEN = (T * BN meta)%nat ->
  (forall n, (n < KV_LEN)%nat -> keep b h m n = true ->
     (forall e, (e < DMODEL meta)%nat ->
        elem K' sk b h n e = elem K sk b h n e) /\
     elem V' sv b h n d = elem V sv b h n d) ->
  (forall n, (n < KV_LEN)%nat ->
     finite_or_masked
       (scaled_score (mask_mod keep inner) (elem Q sq) (elem K sk) meta
          b h m n)) ->
  (forall n, (n < KV_LEN)%nat -> is_fin (elem V sv b h n d)) ->
  (forall n, (n < KV_LEN)%nat -> is_fin (elem V' sv b h n d)) ->
  (ROWS_GUARANTEED_SAFE meta = true ->
   exists j, (j < BN meta)%nat /\
     is_fin (scaled_score (mask_mod keep inner) (elem Q sq) (elem K sk) meta
               b h m j)) ->
  forward_output (mask_mod keep inner) Q K' V' sq sk sv H Q_LEN KV_LEN meta
    b h m d =
    forward_output (mask_mod keep inner) Q K V sq sk sv H Q_LEN KV_LEN meta
      b h m d /\
  ((b < batch)%nat -> (m < Q_LEN)%nat ->
   (batch * H = 1)%nat \/ (exists k, Q_LEN = (k * BM meta)%nat) ->
   forall x,
     lse_written (mask_mod keep inner) Q K' V' sq sk sv batch H Q_LEN KV_LEN
       meta ((b * H + h) * Q_LEN + m)%nat x <->
     lse_written (mask_mod keep inner) Q K V sq sk sv batch H Q_LEN KV_LEN
       meta ((b * H + h) * Q_LEN + m)%nat x).
Proof.
  intros HL HBM HBN Hh Hpos HKV Hagree Hs HV HV' Hsafe.
  assert (Es : forall n, (n < KV_LEN)%nat ->
            scaled_score (mask_mod keep inner) (elem Q sq) (elem K' sk) meta
              b h m n =
            scaled_score (mask_mod keep inner) (elem Q sq) (elem K sk) meta
              b h m n).
  { intros n Hn. unfold scaled_score, mask_mod.
    destruct (keep b h m n) eqn:Ek; [|reflexivity].
    do 2 f_equal. apply tl_sum_ext_lt. intros e He.
    destruct (Hagree n Hn Ek) as [EK _]. rewrite (EK e He). reflexivity. }
  assert (Hmask : forall n, (n < KV_LEN)%nat -> keep b h m n = false ->
            scaled_score (mask_mod keep inner) (elem Q sq) (elem K sk) meta
              b h m n = NInf).
  { intros n Hn Ek. unfold scaled_score, mask_mod. rewrite Ek.
    apply change_base_ninf. }
  destruct (forward_is_direct_elem (mask_mod keep inner) Q K V sq sk sv H
              Q_LEN KV_LEN meta b h m d T) as [E1 E2]; try assumption.
  destruct (forward_is_direct_elem (mask_mod keep inner) Q K' V' sq sk sv H
              Q_LEN KV_LEN meta b h m d T) as [E1' E2']; try assumption.
  { intros n Hn. rewrite (Es n Hn). apply Hs, Hn. }
  { intros Hsf. destruct (Hsafe Hsf) as (j & Hj & Hf).
    exists j. split; [exact Hj|]. rewrite Es; [exact Hf|].
    clear - Hj Hpos HKV. subst KV_LEN.
    destruct T as [|T']; [simpl in Hpos; lia | simpl; lia]. }
  assert (EW : tl_sum KV_LEN
                 (fun n => fexp2 (scaled_score (mask_mod keep inner)
                                    (elem Q sq) (elem K' sk) meta b h m n)) =
               tl_sum KV_LEN
                 (fun n => fexp2 (scaled_score (mask_mod keep inner)
                                    (elem Q sq) (elem K sk) meta b h m n))).
  { apply tl_sum_ext_lt. intros n Hn. rewrite (Es n Hn). reflexivity. }
  split.
  - rewrite E1, E1'. unfold direct_attention. rewrite EW. f_equal.
    apply tl_sum_ext_lt. intros n Hn. rewrite (Es n Hn).
    destruct (keep b h m n) eqn:Ek.
    + destruct (Hagree n Hn Ek) as [_ ->]. reflexivity.
    + rewrite (Hmask n Hn Ek).
      destruct (HV n Hn) as [x ->], (HV' n Hn) as [y ->].
      simpl. apply Fin_eq. ring.
  - intros Hb Hm Hone x.
    rewrite (lse_written_owner (mask_mod keep inner) Q K V sq sk sv batch H
               Q_LEN KV_LEN meta b h m x HBM Hb Hh Hm Hone).
    rewrite (lse_written_owner (mask_mod keep inner) Q K' V' sq sk sv batch H
               Q_LEN KV_LEN meta b h m x HBM Hb Hh Hm Hone).
    rewrite E2, E2'. unfold direct_logsumexp2. rewrite EW. reflexivity.
Qed.

(** The rows of [ones_until], read with the strides of a contiguous
    [[1, 1, N, D]] tensor. *)
Lemma ones_until_rows (D N limit n e : nat) (fill : fp) :
  (e < D)%nat ->
  elem (ones_until D limit fill) (contiguous 1 N D) 0%nat 0%nat n e =
    if (n <? limit)%nat then Fin 1 else fill.
Proof.
  intros He. unfold elem, ones_until, contiguous.
  cbn [stride_z stride_h stride_m stride_d].
  replace (0 * (1 * N * D) + 0 * (N * D) + n * D + e * 1)%nat
    with (e + n * D)%nat by lia.
  rewrite Nat.div_add by lia. rewrite Nat.div_small by exact He.
  reflexivity.
Qed.

(** Witness of X17: the causal mask on 16 keys of dimension 16, in tiles of
    32 by 16 with the safety check compiled in; the two launches differ in
    the keys and values after row 1, and the row is row 1. *)
Lemma X17_masked_keys_do_not_count_witness :
  let meta := mkFwdMeta 32 16 16 true false true in
  let sq := contiguous 1 32 16 in
  let sk := contiguous 1 16 16 in
  forward_output (mask_mod causal identity_mod) zeros
    (ones_until 16 2 (Fin 7)) (ones_until 16 2 (Fin 7)) sq sk sk 1 32 16 meta
    0 0 1 0 =
    forward_output (mask_mod causal identity_mod) zeros
      (ones_until 16 2 (Fin 0)) (ones_until 16 2 (Fin 0)) sq sk sk 1 32 16
      meta 0 0 1 0.
Proof.
  intros meta sq sk.
  assert (Hscore : forall fill n,
    scaled_score (mask_mod causal identity_mod) (elem zeros sq)
      (elem (ones_until 16 2 (Fin fill)) sk) meta 0 0 1 n =
      if causal 0 0 1 n then Fin 0 else NInf).
  { intros fill n. unfold scaled_score, mask_mod, identity_mod, change_base.
    cbn [SCORE_MOD_IS_LINEAR meta negb].
    destruct (causal 0 0 1 n); [|reflexivity].
    rewrite (tl_sum_fin _ _ (fun _ => 0)).
    - apply Fin_eq, rsum_zero. reflexivity.
    - intros e He. change (DMODEL (mkFwdMeta 32 16 16 true false true))
        with 16%nat in He.
      unfold sk. rewrite (ones_until_rows 16 16 2 n e (Fin fill) He).
      unfold elem, zeros. destruct (n <? 2)%nat; simpl; apply Fin_eq; ring. }
  apply (X17_masked_keys_do_not_count causal identity_mod zeros
           (ones_until 16 2 (Fin 0)) (ones_until 16 2 (Fin 0))
           (ones_until 16 2 (Fin 7)) (ones_until 16 2 (Fin 7)) sq sk sk
           1 1 32 16 meta 0 0 1 0 1).
  - apply contiguous_batch_major.
  - unfold BM. simpl. lia.
  - unfold BN. simpl. lia.
  - lia.
  - lia.
  - reflexivity.
  - intros n _ Hk. unfold causal in Hk. apply Nat.leb_le in Hk.
    assert (En : (n <? 2)%nat = true) by (apply Nat.ltb_lt; lia).
    split.
    + intros e He. change (DMODEL meta) with 16%nat in He. unfold sk.
      rewrite !(ones_until_rows 16 16 2 n e _ He), En. reflexivity.
    + unfold sk. rewrite !(ones_until_rows 16 16 2 n 0 _ ltac:(lia)), En.
      reflexivity.
  - intros n _. rewrite Hscore.
    destruct (causal 0 0 1 n); [right; eexists; reflexivity | left; reflexivity].
  - intros n _. unfold sk. rewrite (ones_until_rows 16 16 2 n 0 _ ltac:(lia)).
    destruct (n <? 2)%nat; eexists; reflexivity.
  - intros n _. unfold sk. rewrite (ones_until_rows 16 16 2 n 0 _ ltac:(lia)).
    destruct (n <? 2)%nat; eexists; reflexivity.
  - intros Hsf. discriminate Hsf.
Defined.

(** ** A row whose first key tile is masked *)

Lemma fadd_nan_r (x : fp) : fadd x NaN = NaN.
Proof. destruct x; reflexivity. Qed.

Lemma tl_max_all_ninf (n : nat) (row : block1) :
  (forall k, (k < n)%nat -> row k = NInf) -> tl_max n row = NInf.
Proof.
  intros Hall.
  destruct (tl_max_cases n row) as [[E _]|[_ (k & Hk & [x Hx])]];
    [intros k Hk; left; apply Hall, Hk | exact E |].
  rewrite (Hall k Hk) in Hx. discriminate Hx.
Qed.

Section PoisonedRow.

Variable modification : score_mod.
Variables Q K V : memory.
Variables sq sk sv : strides.
Variables H KV_LEN : nat.
Variable meta : fwd_meta.
Variables start_m off_hz i : nat.

#[local] Abbreviation body' :=
  (loop_body modification Q K V sq sk sv H meta start_m off_hz).
#[local] Abbreviation s' :=
  (scaled_score modification (as_read Q (stride_h sq) sq H)
     (as_read K (stride_h sk) sk H) meta (off_hz / H)%nat (off_hz mod H)%nat
     (start_m * BM meta + i)%nat).

(** Once [l_i] and [acc] of a row are NaN they stay NaN. *)
Lemma nan_row_step (st : loop_state) (start_n : nat) :
  l_i st i = NaN -> (forall d, acc st i d = NaN) ->
  l_i (body' st start_n) i = NaN /\
  forall d, acc (body' st start_n) i d = NaN.
Proof.
  intros Hl Ha. unfold loop_body. cbn [l_i acc]. rewrite Hl.
  split; [|intros d; rewrite Ha];
    destruct (ROWS_GUARANTEED_SAFE meta); reflexivity.
Qed.

Lemma nan_row_fold (l : list nat) (st : loop_state) :
  l_i st i = NaN -> (forall d, acc st i d = NaN) ->
  l_i (fold_left body' l st) i = NaN /\
  forall d, acc (fold_left body' l st) i d = NaN.
Proof.
  revert st. induction l as [|n l IH]; intros st Hl Ha; [split; assumption|].
  simpl. destruct (nan_row_step st n Hl Ha) as [Hl' Ha'].
  apply IH; assumption.
Qed.

(** With [ROWS_GUARANTEED_SAFE], a first tile of masked keys turns the row's
    [l_i] and [acc] into NaN: [alpha] is [exp2(-inf - -inf)]. *)
Lemma nan_row_first_tile :
  ROWS_GUARANTEED_SAFE meta = true ->
  (forall j, (j < BN meta)%nat -> s' j = NInf) ->
  l_i (body' (loop_init) O) i = NaN /\
  forall d, acc (body' (loop_init) O) i d = NaN.
Proof.
  intros Hsf Hs.
  destruct (loop_body_row modification Q K V sq sk sv H meta start_m off_hz i
              loop_init O eq_refl eq_refl) as (_ & El & Ea & _).
  rewrite Hsf in El, Ea. unfold row_update in El, Ea.
  cbn [fst snd negb m_i l_i acc loop_init] in El, Ea.
  rewrite (tl_max_all_ninf (BN meta)) in El, Ea by (intros k Hk; apply Hs, Hk).
  split; [rewrite El; reflexivity | intros d; rewrite Ea; reflexivity].
Qed.

Lemma nan_row_kv_loop :
  (0 < KV_LEN)%nat ->
  ROWS_GUARANTEED_SAFE meta = true ->
  (forall j, (j < BN meta)%nat -> s' j = NInf) ->
  let st := kv_loop modification Q K V sq sk sv H KV_LEN meta start_m off_hz in
  l_i st i = NaN /\ forall d, acc st i d = NaN.
Proof.
  intros Hpos Hsf Hs. unfold kv_loop, py_range.
  destruct KV_LEN as [|k]; [lia|]. cbn [range_from Nat.ltb Nat.leb fold_left].
  destruct (nan_row_first_tile Hsf Hs) as [El Ea].
  apply nan_row_fold; assumption.
Qed.

End PoisonedRow.

(** X18: [ROWS_GUARANTEED_SAFE] is a promise about the first key tile of
    every row, not about the row.  When the flag is set and the keys of the
    first tile are all masked for a query row, that row's output is NaN in
    every column and its logsumexp is NaN, whatever the scores of the later
    tiles and whatever the values. *)
Theorem X18_masked_first_tile_poisons_row (modification : score_mod)
    (Q K V : memory) (sq sk sv : strides) (H Q_LEN KV_LEN : nat)
    (meta : fwd_meta) (b h m d : nat) :
  (h < H)%nat -> (0 < KV_LEN)%nat ->
  ROWS_GUARANTEED_SAFE meta = true ->
  (forall j, (j < BN meta)%nat ->
     scaled_score modification (as_read Q (stride_h sq) sq H)
       (as_read K (stride_h sk) sk H) meta b h m j = NInf) ->
  forward_output modification Q K V sq sk sv H Q_LEN KV_LEN meta b h m d =
    NaN /\
  forward_logsumexp modification Q K V sq sk sv H Q_LEN KV_LEN meta b h m =
    if OUTPUT_LOGSUMEXP meta then Some NaN else None.
Proof.
  intros Hh Hpos Hsf Hs.
  destruct (program_of_row H (BM meta) b h m Hh) as (Eb & Eh & Em).
  destruct (nan_row_kv_loop modification Q K V sq sk sv H KV_LEN meta
              (m / BM meta)%nat (b * H + h)%nat (m mod BM meta)%nat Hpos Hsf)
    as [El Ea].
  { rewrite Eb, Eh, Em. exact Hs. }
  unfold forward_output, forward_logsumexp, flex_attention_kernel.
  cbn [out_acc out_lse]. rewrite El, Ea.
  split; [reflexivity|].
  destruct (OUTPUT_LOGSUMEXP meta); [|reflexivity].
  cbv beta iota. rewrite El. cbn [flog2]. rewrite fadd_nan_r. reflexivity.
Qed.

(** Witness of X18: a sliding window that hides the first two keys from
    query row 3, in key tiles of two. *)
Lemma X18_masked_first_tile_poisons_row_witness :
  forward_output
    (mask_mod (fun _ _ m n => (m <? n + 2)%nat) identity_mod)
    zeros zeros zeros (contiguous 1 4 2) (contiguous 1 4 2) (contiguous 1 4 2)
    1 4 4 (mkFwdMeta 4 2 2 true true true) 0 0 3 0 = NaN /\
  forward_logsumexp
    (mask_mod (fun _ _ m n => (m <? n + 2)%nat) identity_mod)
    zeros zeros zeros (contiguous 1 4 2) (contiguous 1 4 2) (contiguous 1 4 2)
    1 4 4 (mkFwdMeta 4 2 2 true true true) 0 0 3 =
    Some NaN.
Proof.
  apply (X18_masked_first_tile_poisons_row
           (mask_mod (fun _ _ m n => (m <? n + 2)%nat) identity_mod)
           zeros zeros zeros (contiguous 1 4 2) (contiguous 1 4 2)
           (contiguous 1 4 2) 1 4 4 (mkFwdMeta 4 2 2 true true true) 0 0 3 0).
  - lia.
  - lia.
  - reflexivity.
  - intros [|[|j]] Hj; [reflexivity | reflexivity |].
    unfold BN in Hj. simpl in Hj. lia.
Defined.

(** ** The stores of the forward template over the launch grid *)

Local Close Scope R_scope.

Lemma BM_of_Z (meta : fwd_meta) :
  0 < BLOCK_M meta -> Z.of_nat (BM meta) = BLOCK_M meta /\ (0 < BM meta)%nat.
Proof. intros Hpos. unfold BM. split; lia. Qed.

(** X19: the output rows are stored exactly once.  Over the launch grid of
    [flex_attention_grid], every row [m < Q_LEN] of every batch and head is
    stored by a program of the grid, under a true mask; two rows of two
    programs that store to the same [(idx_z, idx_h, idx_m)] are the same
    row of the same program; and no row is stored at an index [idx_m] from
    [Q_LEN] on. *)
Theorem X19_output_rows_stored_once (modification : score_mod)
    (Q K V : memory) (sq sk sv : strides) (H Q_LEN KV_LEN batch : nat)
    (d_model : Z) (meta : fwd_meta) :
  0 < BLOCK_M meta -> (0 < H)%nat ->
  let kernel :=
    flex_attention_kernel modification Q K V sq sk sv H Q_LEN KV_LEN meta in
  let grid :=
    flex_attention_grid (Z.of_nat batch) (Z.of_nat H) (Z.of_nat Q_LEN) d_model
      meta in
  (forall b h m, (b < batch)%nat -> (h < H)%nat -> (m < Q_LEN)%nat ->
     exists start_m off_hz i,
       Z.of_nat start_m < fst (fst grid) /\
       Z.of_nat off_hz < snd (fst grid) /\ (i < BM meta)%nat /\
       idx_z H off_hz = b /\ idx_h H off_hz = h /\
       out_idx_m (kernel start_m off_hz) i = m /\
       out_mask (kernel start_m off_hz) i = true) /\
  (forall start_m off_hz i start_m' off_hz' i',
     (i < BM meta)%nat -> (i' < BM meta)%nat ->
     idx_z H off_hz = idx_z H off_hz' -> idx_h H off_hz = idx_h H off_hz' ->
     out_idx_m (kernel start_m off_hz) i =
       out_idx_m (kernel start_m' off_hz') i' ->
     start_m = start_m' /\ off_hz = off_hz' /\ i = i') /\
  (forall start_m off_hz i,
     out_mask (kernel start_m off_hz) i = true ->
     (out_idx_m (kernel start_m off_hz) i < Q_LEN)%nat).
Proof.
  intros Hpos HH kernel grid. destruct (BM_of_Z meta Hpos) as [EBM HBM].
  subst kernel grid. unfold flex_attention_kernel, flex_attention_grid.
  cbn [out_idx_m out_mask fst snd]. unfold offs_m, idx_z, idx_h.
  split; [|split].
  - intros b h m Hb Hh Hm.
    destruct (program_of_row H (BM meta) b h m Hh) as (Eb & Eh & Em).
    exists (m / BM meta)%nat, (b * H + h)%nat, (m mod BM meta)%nat.
    split; [apply row_tile_in_grid; assumption|].
    split; [nia|].
    split; [apply Nat.mod_upper_bound; lia|].
    split; [exact Eb|]. split; [exact Eh|]. split; [exact Em|].
    rewrite Em. apply Nat.ltb_lt, Hm.
  - intros start_m off_hz i start_m' off_hz' i' Hi Hi' Ez Eh Em.
    assert (start_m = start_m') by nia.
    assert (off_hz = off_hz').
    { rewrite (Nat.div_mod_eq off_hz H), (Nat.div_mod_eq off_hz' H), Ez, Eh.
      reflexivity. }
    subst. repeat split. lia.
  - intros start_m off_hz i Hmask. apply Nat.ltb_lt, Hmask.
Qed.

(** Witness of X19: ten query rows in tiles of four; row 9 is stored by the
    third row tile. *)
Lemma X19_output_rows_stored_once_witness :
  exists start_m off_hz i,
    Z.of_nat start_m < 3 /\ Z.of_nat off_hz < 1 /\ (i < 4)%nat /\
    idx_z 1 off_hz = 0%nat /\ idx_h 1 off_hz = 0%nat /\
    out_idx_m (flex_attention_kernel identity_mod zeros zeros zeros
                 (contiguous 1 10 2) (contiguous 1 4 2) (contiguous 1 4 2)
                 1 10 4 (mkFwdMeta 4 4 2 true true true) start_m off_hz) i =
      9%nat /\
    out_mask (flex_attention_kernel identity_mod zeros zeros zeros
                (contiguous 1 10 2) (contiguous 1 4 2) (contiguous 1 4 2)
                1 10 4 (mkFwdMeta 4 4 2 true true true) start_m off_hz) i =
      true.
Proof.
  destruct (X19_output_rows_stored_once identity_mod zeros zeros zeros
              (contiguous 1 10 2) (contiguous 1 4 2) (contiguous 1 4 2)
              1 10 4 1 2 (mkFwdMeta 4 4 2 true true true) eq_refl ltac:(lia))
    as (Hrows & _ & _).
  apply (Hrows 0 0 9)%nat; lia.
Defined.

(** X20: the logsumexp store carries no mask.  When [BLOCK_M] does not
    divide [Q_LEN], the last row tile of a head holds a row of index
    [Q_LEN]: its output is masked out, but its logsumexp is stored, at the
    offset at which the first row tile of the next head stores the
    logsumexp of its row 0. *)
Theorem X20_logsumexp_store_is_unmasked (modification : score_mod)
    (Q K V : memory) (sq sk sv : strides) (H Q_LEN KV_LEN batch : nat)
    (d_model : Z) (meta : fwd_meta) (off_hz : nat) :
  0 < BLOCK_M meta -> (0 < Q_LEN)%nat -> (Q_LEN mod BM meta <> 0)%nat ->
  (off_hz + 1 < batch * H)%nat ->
  OUTPUT_LOGSUMEXP meta = true ->
  let kernel :=
    flex_attention_kernel modification Q K V sq sk sv H Q_LEN KV_LEN meta in
  let grid :=
    flex_attention_grid (Z.of_nat batch) (Z.of_nat H) (Z.of_nat Q_LEN) d_model
      meta in
  let start_m := (Q_LEN / BM meta)%nat in
  let i := (Q_LEN mod BM meta)%nat in
  Z.of_nat start_m < fst (fst grid) /\
  Z.of_nat (off_hz + 1) < snd (fst grid) /\
  (i < BM meta)%nat /\
  out_mask (kernel start_m off_hz) i = false /\
  out_lse (kernel start_m off_hz) <> None /\
  out_mask (kernel O (off_hz + 1)%nat) O = true /\
  out_lse (kernel O (off_hz + 1)%nat) <> None /\
  l_ptrs Q_LEN meta start_m off_hz i = l_ptrs Q_LEN meta O (off_hz + 1) O.
Proof.
  intros Hpos HQ Hrem Hhz Hlse kernel grid start_m i.
  destruct (BM_of_Z meta Hpos) as [EBM HBM].
  subst kernel grid start_m i. unfold flex_attention_kernel, flex_attention_grid.
  cbn [out_lse out_mask out_idx_m fst snd]. rewrite Hlse.
  unfold l_ptrs, offs_m.
  pose proof (Nat.div_mod_eq Q_LEN (BM meta)) as Ediv.
  pose proof (Nat.mod_upper_bound Q_LEN (BM meta) ltac:(lia)) as Hub.
  pose proof (cdiv_bounds (Z.of_nat Q_LEN) (BLOCK_M meta) Hpos) as [_ Hc].
  set (c := cdiv (Z.of_nat Q_LEN) (BLOCK_M meta)) in *.
  rewrite <- EBM in Hc.
  repeat split; try discriminate.
  - nia.
  - nia.
  - exact Hub.
  - apply Nat.ltb_ge. lia.
  - apply Nat.ltb_lt. lia.
  - lia.
Qed.

(** Witness of X20: ten query rows in tiles of four, two heads. *)
Lemma X20_logsumexp_store_is_unmasked_witness :
  l_ptrs 10 (mkFwdMeta 4 4 2 true true true) 2 0 2 =
  l_ptrs 10 (mkFwdMeta 4 4 2 true true true) 0 1 0.
Proof.
  apply (X20_logsumexp_store_is_unmasked identity_mod zeros zeros zeros
           (contiguous 2 10 2) (contiguous 2 4 2) (contiguous 2 4 2)
           2 10 4 1 2 (mkFwdMeta 4 4 2 true true true) 0);
    [reflexivity | lia | discriminate | simpl; lia | reflexivity].
Defined.

(** ** A key length that is not a multiple of [BLOCK_N] *)

Local Open Scope R_scope.

(** X21: the key loop does not mask its last tile.  When [BLOCK_N] does not
    divide [KV_LEN] the loop still runs over whole tiles, over the
    [padded = ceil(KV_LEN / BLOCK_N) * BLOCK_N] key rows that the block
    pointers reach, the last of them past the keys.  For batch-major [Q],
    [K] and [V], and a row whose scores over these [padded] rows are finite
    or [-inf], with finite values in column [d] at these rows and, under
    [ROWS_GUARANTEED_SAFE], a finite score in the first key tile, the output
    is the softmax average over all [padded] rows: what lies behind the keys
    is weighted like a key.  When the launch has one batch and head, or
    [BLOCK_M] divides [Q_LEN], the one value stored at the row's offset of
    [LSE] is the logsumexp over the [padded] rows. *)
Theorem X21_last_key_tile_is_read_in_full (modification : score_mod)
    (Q K V : memory) (sq sk sv : strides) (batch H Q_LEN KV_LEN : nat)
    (meta : fwd_meta) (b h m d : nat) :
  batch_major H sq sk sv ->
  (0 < BM meta)%nat -> (0 < BN meta)%nat -> (h < H)%nat ->
  let padded := ((KV_LEN + BN meta - 1) / BN meta * BN meta)%nat in
  let s := scaled_score modification (elem Q sq) (elem K sk) meta b h m in
  (forall n, (n < padded)%nat -> finite_or_masked (s n)) ->
  (forall n, (n < padded)%nat -> is_fin (elem V sv b h n d)) ->
  (ROWS_GUARANTEED_SAFE meta = true ->
   exists j, (j < BN meta)%nat /\ is_fin (s j)) ->
  (KV_LEN <= padded < KV_LEN + BN meta)%nat /\
  forward_output modification Q K V sq sk sv H Q_LEN KV_LEN meta b h m d =
    direct_attention s (elem V sv) padded b h d /\
  (OUTPUT_LOGSUMEXP meta = true -> (b < batch)%nat -> (m < Q_LEN)%nat ->
   (batch * H = 1)%nat \/ (exists k, Q_LEN = (k * BM meta)%nat) ->
   forall x,
     lse_written modification Q K V sq sk sv batch H Q_LEN KV_LEN meta
       ((b * H + h) * Q_LEN + m)%nat x <->
     x = direct_logsumexp2 s padded).
Proof.
  intros HL HBM HBN Hh padded s Hs HV Hsafe.
  split.
  { subst padded.
    pose proof (Nat.div_mod_eq (KV_LEN + BN meta - 1) (BN meta)) as E.
    pose proof (Nat.mod_upper_bound (KV_LEN + BN meta - 1) (BN meta)
                  ltac:(lia)).
    nia. }
  assert (Eout : forward_output modification Q K V sq sk sv H Q_LEN KV_LEN meta
                   b h m d =
                 forward_output modification Q K V sq sk sv H Q_LEN padded meta
                   b h m d).
  { unfold forward_output, flex_attention_kernel. cbn [out_acc].
    rewrite (kv_loop_padded modification Q K V sq sk sv H KV_LEN meta _ _ HBN).
    reflexivity. }
  assert (Else : forward_logsumexp modification Q K V sq sk sv H Q_LEN KV_LEN
                   meta b h m =
                 forward_logsumexp modification Q K V sq sk sv H Q_LEN padded
                   meta b h m).
  { unfold forward_logsumexp, flex_attention_kernel. cbn [out_lse].
    rewrite (kv_loop_padded modification Q K V sq sk sv H KV_LEN meta _ _ HBN).
    reflexivity. }
  destruct (forward_is_direct_elem modification Q K V sq sk sv H Q_LEN padded
              meta b h m d ((KV_LEN + BN meta - 1) / BN meta))
    as [E1 E2]; try assumption; [reflexivity|].
  split; [rewrite Eout; exact E1|].
  intros Hout Hb Hm Hone x.
  rewrite (lse_written_owner modification Q K V sq sk sv batch H Q_LEN KV_LEN
             meta b h m x HBM Hb Hh Hm Hone).
  rewrite Else, E2, Hout.
  split; [intros [= <-]; reflexivity | intros ->; reflexivity].
Qed.

(** Witness of X21: 24 keys of dimension 16 in tiles of 32 by 16 over zero
    storage; the second key tile spans the rows 16 to 31. *)
Lemma X21_last_key_tile_is_read_in_full_witness :
  let meta := mkFwdMeta 32 16 16 true true true in
  let sq := contiguous 1 32 16 in
  let sk := contiguous 1 24 16 in
  forward_output identity_mod zeros zeros zeros sq sk sk 1 32 24 meta
    0 0 0 0 =
  direct_attention
    (scaled_score identity_mod (elem zeros sq) (elem zeros sk) meta 0 0 0)
    (elem zeros sk) 32 0 0 0.
Proof.
  intros meta sq sk.
  apply (X21_last_key_tile_is_read_in_full identity_mod zeros zeros zeros
           sq sk sk 1 1 32 24 meta 0 0 0 0).
  - apply contiguous_batch_major.
  - unfold BM. simpl. lia.
  - unfold BN. simpl. lia.
  - lia.
  - intros n _. right. rewrite zero_scaled_score_elem. eexists. reflexivity.
  - intros n _. exists 0. reflexivity.
  - intros _. exists O. split; [unfold BN; simpl; lia|].
    rewrite zero_scaled_score_elem. eexists. reflexivity.
Defined.

(** ** The head offset of the forward template *)

(** Sums of a constant weight. *)
Lemma direct_attention_const (score : nat -> fp) (V : tensor4) (N b h d : nat)
    (v : R) :
  (0 < N)%nat ->
  (forall n, (n < N)%nat -> score n = Fin 0) ->
  (forall n, (n < N)%nat -> V b h n d = Fin v) ->
  direct_attention score V N b h d = Fin v.
Proof.
  intros HN Hs HV. unfold direct_attention.
  rewrite (tl_sum_fin N _ (fun _ => 1 * v)).
  2:{ intros n Hn. rewrite (Hs n Hn), (HV n Hn). simpl. rewrite exp2_0.
      reflexivity. }
  rewrite (tl_sum_fin N _ (fun _ => 1)).
  2:{ intros n Hn. rewrite (Hs n Hn). simpl. rewrite exp2_0. reflexivity. }
  rewrite !rsum_const.
  assert (0 < INR N) by (apply lt_0_INR, HN).
  rewrite fdiv_fin by lra. apply Fin_eq. field. lra.
Qed.

(** X31: the forward template addresses the slice of batch [b] and head [h]
    by the head stride alone, [off_hz * stride(T, 1)] with
    [off_hz = b * H + h], and [V] by the head stride of [K]; the batch
    strides are not used.  For batch-major [Q], [K] and [V] (and a [BLOCK_N]
    that divides [KV_LEN], scores finite or [-inf], finite values in column
    [d], and under [ROWS_GUARANTEED_SAFE] a finite score in the first key
    tile) the output at [[b, h, m, d]] is the base-2 softmax average over
    the elements [[b, h]] of the tensors.  For another layout it is not: with
    two batches of one head, zero queries and keys, and a [V] whose batches
    lie 512 apart while its head stride is 256, the program of batch 1 reads
    its values at offset 256, and returns 0 where [V[1, 0, :, :]] is 1. *)
Theorem X31_forward_ignores_batch_stride (modification : score_mod)
    (Q K V : memory) (sq sk sv : strides) (H Q_LEN KV_LEN : nat)
    (meta : fwd_meta) (b h m d T : nat) :
  (batch_major H sq sk sv ->
   (0 < BM meta)%nat -> (0 < BN meta)%nat -> (h < H)%nat ->
   KV_LEN = (T * BN meta)%nat ->
   (forall n, (n < KV_LEN)%nat ->
      finite_or_masked
        (scaled_score modification (elem Q sq) (elem K sk) meta b h m n)) ->
   (forall n, (n < KV_LEN)%nat -> is_fin (elem V sv b h n d)) ->
   (ROWS_GUARANTEED_SAFE meta = true ->
    exists j, (j < BN meta)%nat /\
      is_fin (scaled_score modification (elem Q sq) (elem K sk) meta b h m j)) ->
   forward_output modification Q K V sq sk sv H Q_LEN KV_LEN meta b h m d =
     direct_attention
       (scaled_score modification (elem Q sq) (elem K sk) meta b h m)
       (elem V sv) KV_LEN b h d) /\
  (let meta' := mkFwdMeta 32 16 16 true true true in
   let sq' := contiguous 1 32 16 in
   let sk' := contiguous 1 16 16 in
   let sv' := mkStrides 512 256 16 1 in
   ~ batch_major 1 sq' sk' sv' /\
   forward_output identity_mod zeros zeros (ones_from 512) sq' sk' sv'
     1 32 16 meta' 1 0 0 0 = Fin 0 /\
   direct_attention
     (scaled_score identity_mod (elem zeros sq') (elem zeros sk') meta' 1 0 0)
     (elem (ones_from 512) sv') 16 1 0 0 = Fin 1).
Proof.
  split.
  - intros HL HBM HBN Hh HKV Hs HV Hsafe.
    apply (forward_is_direct_elem modification Q K V sq sk sv H Q_LEN KV_LEN
             meta b h m d T); assumption.
  - intros meta' sq' sk' sv'. split; [|split].
    + intros (_ & _ & E & _). discriminate E.
    + assert (Hscore : forall n,
        scaled_score identity_mod (as_read zeros (stride_h sq') sq' 1)
          (as_read zeros (stride_h sk') sk' 1) meta' 1 0 0 n = Fin 0).
      { intros n. rewrite zero_scaled_score. reflexivity. }
      assert (HVr : forall n, (n < 16)%nat ->
        as_read (ones_from 512) (stride_h sk') sv' 1 1%nat 0%nat n 0%nat =
          Fin 0).
      { intros n Hn. unfold as_read, ones_from, sk', sv', contiguous.
        cbn [stride_h stride_m stride_d].
        destruct (Nat.ltb_spec ((1 * 1 + 0) * (16 * 16) + n * 16 + 0 * 1) 512);
          [reflexivity|lia]. }
      destruct (forward_is_direct identity_mod zeros zeros (ones_from 512)
                  sq' sk' sv' 1 32 16 meta' 1 0 0 0 1) as [E _].
      * unfold BM. simpl. lia.
      * unfold BN. simpl. lia.
      * lia.
      * reflexivity.
      * intros n _. right. rewrite Hscore. eexists. reflexivity.
      * intros n Hn. rewrite (HVr n Hn). eexists. reflexivity.
      * intros _. exists O. split; [unfold BN; simpl; lia|].
        rewrite Hscore. eexists. reflexivity.
      * rewrite E. apply direct_attention_const; [lia | |exact HVr].
        intros n _. apply Hscore.
    + apply direct_attention_const; [lia| |].
      * intros n _. rewrite zero_scaled_score_elem. reflexivity.
      * intros n Hn. unfold elem, ones_from, sv'.
        cbn [stride_z stride_h stride_m stride_d].
        destruct (Nat.ltb_spec (1 * 512 + 0 * 256 + n * 16 + 0 * 1) 512);
          [lia|reflexivity].
Qed.

(** Witness of X31: zero inputs in contiguous tensors of two batches and
    two heads; row 5 of batch 1, head 1. *)
Lemma X31_forward_ignores_batch_stride_witness :
  let meta := mkFwdMeta 32 16 16 true true true in
  let sq := contiguous 2 32 16 in
  let sk := contiguous 2 16 16 in
  forward_output identity_mod zeros zeros zeros sq sk sk 2 32 16 meta
    1 1 5 0 =
  direct_attention
    (scaled_score identity_mod (elem zeros sq) (elem zeros sk) meta 1 1 5)
    (elem zeros sk) 16 1 1 0.
Proof.
  intros meta sq sk.
  destruct (X31_forward_ignores_batch_stride identity_mod zeros zeros zeros
              sq sk sk 2 32 16 meta 1 1 5 0 1) as [Hpos _].
  apply Hpos.
  - apply contiguous_batch_major.
  - unfold BM. simpl. lia.
  - unfold BN. simpl. lia.
  - lia.
  - reflexivity.
  - intros n _. right. rewrite zero_scaled_score_elem. eexists. reflexivity.
  - intros n _. exists 0. reflexivity.
  - intros _. exists O. split; [unfold BN; simpl; lia|].
    rewrite zero_scaled_score_elem. eexists. reflexivity.
Defined.

(** * The backward template *)

(** ** Sums of floats *)

Lemma fadd_assoc (x y z : fp) : fadd (fadd x y) z = fadd x (fadd y z).
Proof. destruct x, y, z; simpl; try reflexivity; apply Fin_eq; ring. Qed.

Lemma fadd_0_r (x : fp) : fadd x (Fin 0) = x.
Proof. destruct x; simpl; try reflexivity. apply Fin_eq. ring. Qed.

Lemma sign_mul_comm (a b : comparison) : sign_mul a b = sign_mul b a.
Proof. destruct a, b; reflexivity. Qed.

Lemma fmul_comm (x y : fp) : fmul x y = fmul y x.
Proof.
  destruct x, y; simpl; try reflexivity;
    try (rewrite sign_mul_comm; reflexivity).
  apply Fin_eq. ring.
Qed.

(** A sum over [a + b] columns is the sum over the first [a] plus the sum
    over the next [b]. *)
Lemma tl_sum_app (a b : nat) (f : block1) :
  tl_sum (a + b) f = fadd (tl_sum a f) (tl_sum b (fun j => f (a + j)%nat)).
Proof.
  induction b as [|b IH].
  - rewrite Nat.add_0_r. simpl. symmetry. apply fadd_0_r.
  - rewrite Nat.add_succ_r. simpl. rewrite IH. apply fadd_assoc.
Qed.

(** [range(n)] *)
Lemma py_range_steps (n : nat) : py_range 0 n 1 = seq 0 n.
Proof.
  pose proof (py_range_tiles 1 n ltac:(lia)) as E.
  rewrite Nat.mul_1_r in E. rewrite E.
  rewrite <- (map_id (seq 0 n)) at 2. apply map_ext. intros t. lia.
Qed.

Lemma fold_left_snoc {A B} (f : A -> B -> A) (l : list B) (x : B) (a : A) :
  fold_left f (l ++ [x])%list a = f (fold_left f l a) x.
Proof. rewrite fold_left_app. reflexivity. Qed.

(** ** The DQ branch *)

Local Close Scope R_scope.
Local Open Scope nat_scope.

Section DQPass.

Variable modification : score_mod.
Variable joint_modification : joint_mod.
Variables Q K V LSE DELTA DO : memory.
Variables sq sk sv : strides.
Variables H Q_LEN KV_LEN : nat.
Variable meta : bwd_meta.
Variables pid off_hz : nat.

#[local] Abbreviation qa := (q_adj sq H off_hz).
#[local] Abbreviation ka := (k_adj sk H off_hz).
#[local] Abbreviation va := (v_adj sv H off_hz).
#[local] Abbreviation row_m := (fun i => tile_start KV_LEN meta pid + i).
#[local] Abbreviation dq_step :=
  (dq_body modification joint_modification Q K V LSE DELTA DO sq sk H Q_LEN
     KV_LEN meta pid off_hz).
#[local] Abbreviation dq_start := (dq_init sk sv H off_hz).
(** The gradient of the score of key [n] for row [i] of the tile, with the
    value row taken where the loop finds it. *)
#[local] Abbreviation dS := (fun i n =>
  direct_score_grad modification joint_modification meta
    (off_z H off_hz) (off_h H off_hz) (row_m i) n
    (row_of Q qa sq (row_m i)) (row_of K ka sk n)
    (dq_value_row V va sk sv (BN2 meta) n) (row_of DO qa sq (row_m i))
    (LSE (off_chz Q_LEN off_hz + row_m i))
    (DELTA (off_chz Q_LEN off_hz + row_m i))).

Hypothesis HBN2 : 0 < BN2 meta.

(** After [t] tiles the pointers stand [t] tiles further, both by the key's
    row stride, and [dq] holds the sum over the keys seen so far. *)
Lemma dq_loop_inv (t : nat) :
  let st := fold_left dq_step (seq 0 t) dq_start in
  curr_n st = t * BN2 meta /\
  (forall d j, kT_ptrs st d j =
     ka + (t * BN2 meta + j) * stride_m sk + d * stride_d sk) /\
  (forall d j, vT_ptrs st d j =
     va + j * stride_m sv + d * stride_d sv + t * (BN2 meta * stride_m sk)) /\
  (forall i d, dq st i d =
     tl_sum (t * BN2 meta) (fun n => fmul (dS i n) (row_of K ka sk n d))).
Proof.
  induction t as [|t IH].
  - simpl. repeat split; intros; unfold dq_init; simpl; lia.
  - rewrite seq_S, fold_left_snoc. cbn zeta in IH |- *.
    set (st := fold_left dq_step (seq 0 t) dq_start) in *.
    destruct IH as (Hn & HkT & HvT & Hdq).
    unfold dq_body. cbn [curr_n kT_ptrs vT_ptrs dq].
    split; [lia|]. split; [intros d j; rewrite HkT; lia|].
    split; [intros d j; rewrite HvT; lia|].
    intros i d. rewrite Hdq.
    replace (S t * BN2 meta) with (t * BN2 meta + BN2 meta) by lia.
    rewrite tl_sum_app. f_equal. unfold tl_dot, tl_trans.
    apply tl_sum_ext_lt. intros j Hj.
    rewrite HkT. rewrite Hn. unfold row_of at 3. f_equal.
    unfold direct_score_grad, direct_prob.
    assert (Eqk :
      tl_sum (bwd_DMODEL meta)
        (fun e => fmul
           (dq_q Q sq H KV_LEN meta pid off_hz i e) (K (kT_ptrs st e j))) =
      tl_sum (bwd_DMODEL meta)
        (fun e => fmul (row_of Q qa sq (row_m i) e)
                    (row_of K ka sk (t * BN2 meta + j) e))).
    { apply tl_sum_ext_lt. intros e _. rewrite HkT. reflexivity. }
    assert (Edp :
      tl_sum (bwd_DMODEL meta)
        (fun e => fmul
           (dq_do DO sq H KV_LEN meta pid off_hz i e) (V (vT_ptrs st e j))) =
      tl_sum (bwd_DMODEL meta)
        (fun e => fmul (row_of DO qa sq (row_m i) e)
                    (dq_value_row V va sk sv (BN2 meta)
                       (t * BN2 meta + j) e))).
    { assert (Emod : (t * BN2 meta + j) mod BN2 meta = j).
      { rewrite Nat.add_comm, Nat.Div0.mod_add. apply Nat.mod_small, Hj. }
      assert (Ediv : (t * BN2 meta + j) / BN2 meta = t).
      { rewrite Nat.add_comm, Nat.div_add by lia.
        rewrite Nat.div_small by exact Hj. reflexivity. }
      apply tl_sum_ext_lt. intros e _. rewrite HvT. unfold dq_value_row.
      rewrite Emod, Ediv. reflexivity. }
    rewrite Eqk, Edp. reflexivity.
Qed.

Lemma dq_loop_steps :
  dq_loop modification joint_modification Q K V LSE DELTA DO sq sk sv H Q_LEN
    KV_LEN meta pid off_hz =
  fold_left dq_step (seq 0 (KV_LEN / BN2 meta)) dq_start.
Proof. unfold dq_loop. rewrite py_range_steps. reflexivity. Qed.

End DQPass.

(** In the DQ branch the tile starts at query row
    [(pid - KV_LEN // BLOCK_N1) * BLOCK_M2]. *)
Lemma tile_start_dq (KV_LEN : nat) (meta : bwd_meta) (pid : nat) :
  (0 < BLOCK_N1 meta)%Z -> (0 < BLOCK_M2 meta)%Z ->
  backward_phase (Z.of_nat KV_LEN) meta (Z.of_nat pid) = DQ_phase ->
  KV_LEN / BN1 meta <= pid /\
  tile_start KV_LEN meta pid = (pid - KV_LEN / BN1 meta) * BM2 meta.
Proof.
  intros HN1 HM2 Hph. unfold tile_start, backward_tile_start. rewrite Hph.
  unfold backward_phase, NUM_KV_BLOCKS in *.
  assert (E : (Z.of_nat KV_LEN / BLOCK_N1 meta)%Z =
              Z.of_nat (KV_LEN / BN1 meta)).
  { unfold BN1. rewrite Nat2Z.inj_div, Z2Nat.id by lia. reflexivity. }
  rewrite E in *.
  destruct (Z.of_nat (KV_LEN / BN1 meta) <=? Z.of_nat pid)%Z eqn:Hle;
    [|discriminate Hph].
  apply Z.leb_le in Hle. split; [lia|].
  unfold BM2. rewrite Z2Nat.inj_mul by lia. f_equal. lia.
Qed.

(** In the DK/DV branch the tile starts at key row [pid * BLOCK_N1]. *)
Lemma tile_start_dkdv (KV_LEN : nat) (meta : bwd_meta) (pid : nat) :
  (0 < BLOCK_N1 meta)%Z ->
  backward_phase (Z.of_nat KV_LEN) meta (Z.of_nat pid) = DKDV_phase ->
  pid < KV_LEN / BN1 meta /\
  tile_start KV_LEN meta pid = pid * BN1 meta.
Proof.
  intros HN1 Hph. unfold tile_start, backward_tile_start. rewrite Hph.
  unfold backward_phase, NUM_KV_BLOCKS in *.
  assert (E : (Z.of_nat KV_LEN / BLOCK_N1 meta)%Z =
              Z.of_nat (KV_LEN / BN1 meta)).
  { unfold BN1. rewrite Nat2Z.inj_div, Z2Nat.id by lia. reflexivity. }
  rewrite E in *.
  destruct (Z.of_nat (KV_LEN / BN1 meta) <=? Z.of_nat pid)%Z eqn:Hle;
    [discriminate Hph|].
  apply Z.leb_gt in Hle. split; [lia|].
  unfold BN1. rewrite Z2Nat.inj_mul by lia. f_equal. lia.
Qed.

Lemma value_row_same_stride (V : memory) (base : nat) (sk sv : strides)
    (BN2v n d : nat) :
  stride_m sv = stride_m sk ->
  dq_value_row V base sk sv BN2v n d = row_of V base sv n d.
Proof.
  intros E. unfold dq_value_row, row_of. rewrite <- E. f_equal.
  pose proof (Nat.div_mod_eq n BN2v). nia.
Qed.

(** X22: what a DQ program stores.  With the key's and the value's row
    strides equal, the program for query tile [pid - KV_LEN // BLOCK_N1]
    stores, for row [m] of its tile and column [d], the sum over the keys
    [n] below [(KV_LEN // BLOCK_N2) * BLOCK_N2] of [dS[m, n] * K[n, d]],
    where [dS] is the joint graph applied to
    [P[m, n] * (dO[m, :] . V[n, :] - DELTA[m])] and
    [P[m, n] = 2^(score[m, n] - LSE[m])]: the tiling of the keys does not
    show, and keys of a partial last tile are left out. *)
Theorem X22_dq_pass_accumulates_over_keys (modification : score_mod)
    (joint_modification : joint_mod) (Q K V LSE DELTA DO : memory)
    (sq sk sv : strides) (H Q_LEN KV_LEN : nat) (meta : bwd_meta)
    (pid off_hz : nat) :
  (0 < BLOCK_N1 meta)%Z -> (0 < BLOCK_M2 meta)%Z -> (0 < BLOCK_N2 meta)%Z ->
  backward_static_asserts meta = Ok tt ->
  backward_phase (Z.of_nat KV_LEN) meta (Z.of_nat pid) = DQ_phase ->
  stride_m sv = stride_m sk ->
  let start_m2 := (pid - KV_LEN / BN1 meta) * BM2 meta in
  let qa := q_adj sq H off_hz in
  let ka := k_adj sk H off_hz in
  let va := v_adj sv H off_hz in
  exists dq,
    flex_attention_backward_kernel modification joint_modification
      Q K V LSE DELTA DO sq sk sv H Q_LEN KV_LEN meta pid off_hz =
      Ok (StoreDQ
            (fun i d => qa + (start_m2 + i) * stride_m sq + d * stride_d sq)
            dq) /\
    forall i d,
      dq i d =
        tl_sum (KV_LEN / BN2 meta * BN2 meta)
          (fun n =>
             fmul
               (direct_score_grad modification joint_modification meta
                  (off_hz / H) (off_hz mod H) (start_m2 + i) n
                  (row_of Q qa sq (start_m2 + i)) (row_of K ka sk n)
                  (row_of V va sv n) (row_of DO qa sq (start_m2 + i))
                  (LSE (off_hz * Q_LEN + (start_m2 + i)))
                  (DELTA (off_hz * Q_LEN + (start_m2 + i))))
               (row_of K ka sk n d)).
Proof.
  intros HN1 HM2 HN2 Hsa Hph Estride start_m2 qa ka va.
  destruct (tile_start_dq KV_LEN meta pid HN1 HM2 Hph) as [_ Ets].
  fold start_m2 in Ets.
  assert (HBN2 : 0 < BN2 meta) by (unfold BN2; lia).
  unfold flex_attention_backward_kernel. rewrite Hsa, Hph.
  eexists. split.
  { cbn. unfold dq_ptrs, offs_m2. rewrite Ets. reflexivity. }
  intros i d. rewrite dq_loop_steps.
  destruct (dq_loop_inv modification joint_modification Q K V LSE DELTA DO
              sq sk sv H Q_LEN KV_LEN meta pid off_hz HBN2
              (KV_LEN / BN2 meta)) as (_ & _ & _ & Hdq).
  rewrite Hdq, Ets. apply tl_sum_ext_lt. intros n _. f_equal.
  unfold direct_score_grad. do 2 f_equal.
  - f_equal. apply tl_sum_ext_lt. intros e _. f_equal.
    apply value_row_same_stride, Estride.
Qed.

(** Witness of X22: the third program of the demo launch, the first of its
    two DQ programs. *)
Lemma X22_dq_pass_accumulates_over_keys_witness :
  exists dq,
    flex_attention_backward_kernel identity_mod identity_joint
      ones_memory ones_memory ones_memory ones_memory ones_memory ones_memory
      demo_strides demo_strides demo_strides 1 4 4 demo_bwd_meta 2 0 =
      Ok (StoreDQ (fun i d => 0 + (0 + i) * 2 + d * 1) dq) /\
    forall i d,
      dq i d =
        tl_sum 4
          (fun n =>
             fmul
               (direct_score_grad identity_mod identity_joint demo_bwd_meta
                  0 0 (0 + i) n
                  (row_of ones_memory 0 demo_strides (0 + i))
                  (row_of ones_memory 0 demo_strides n)
                  (row_of ones_memory 0 demo_strides n)
                  (row_of ones_memory 0 demo_strides (0 + i))
                  (ones_memory (0 * 4 + (0 + i)))
                  (ones_memory (0 * 4 + (0 + i))))
               (row_of ones_memory 0 demo_strides n d)).
Proof.
  apply (X22_dq_pass_accumulates_over_keys identity_mod identity_joint
           ones_memory ones_memory ones_memory ones_memory ones_memory
           ones_memory demo_strides demo_strides demo_strides 1 4 4
           demo_bwd_meta 2 0);
    reflexivity.
Defined.

(** X23: the DQ loop advances the value pointers by the key's row stride.
    At the start of tile [t] the key pointers stand at the key rows
    [t * BLOCK_N2 + j], and the value pointers at
    [j * stride(V, 2) + t * BLOCK_N2 * stride(K, 2)] past the value base:
    from the second tile on, these are the value rows [t * BLOCK_N2 + j]
    only if the two tensors have the same row stride. *)
Theorem X23_dq_value_pointers_use_key_stride (modification : score_mod)
    (joint_modification : joint_mod) (Q K V LSE DELTA DO : memory)
    (sq sk sv : strides) (H Q_LEN KV_LEN : nat) (meta : bwd_meta)
    (pid off_hz t : nat) :
  0 < BN2 meta ->
  let st :=
    fold_left
      (dq_body modification joint_modification Q K V LSE DELTA DO sq sk H
         Q_LEN KV_LEN meta pid off_hz)
      (py_range 0 t 1) (dq_init sk sv H off_hz) in
  let ka := k_adj sk H off_hz in
  let va := v_adj sv H off_hz in
  (forall d j,
     kT_ptrs st d j = ka + (t * BN2 meta + j) * stride_m sk + d * stride_d sk) /\
  (forall d j,
     vT_ptrs st d j =
       va + j * stride_m sv + d * stride_d sv
       + t * (BN2 meta * stride_m sk)) /\
  (forall d j, 0 < t -> stride_m sv <> stride_m sk ->
     vT_ptrs st d j <>
       va + (t * BN2 meta + j) * stride_m sv + d * stride_d sv).
Proof.
  intros HBN2 st ka va. subst st. rewrite py_range_steps.
  destruct (dq_loop_inv modification joint_modification Q K V LSE DELTA DO
              sq sk sv H Q_LEN KV_LEN meta pid off_hz HBN2 t)
    as (_ & HkT & HvT & _).
  split; [exact HkT|]. split; [exact HvT|].
  intros d j Ht Hne E. rewrite HvT in E. apply Hne.
  assert (E' : t * BN2 meta * stride_m sv = t * BN2 meta * stride_m sk) by nia.
  apply Nat.mul_cancel_l in E'; [exact E'|]. nia.
Qed.

(** Witness of X23: the second tile of a launch whose values are stored
    with a row stride of 4 and whose keys with a row stride of 2; the value
    pointer of column 1 stands at offset 8, and value row 3 is at 12. *)
Lemma X23_dq_value_pointers_use_key_stride_witness :
  vT_ptrs
    (fold_left
       (dq_body identity_mod identity_joint ones_memory ones_memory
          ones_memory ones_memory ones_memory ones_memory demo_strides
          demo_strides 1 4 4 demo_bwd_meta 2 0)
       (py_range 0 1 1) (dq_init demo_strides (mkStrides 16 16 4 1) 1 0))
    0 1 =
    v_adj (mkStrides 16 16 4 1) 1 0 + 1 * 4 + 0 * 1 + 1 * (2 * 2) /\
  vT_ptrs
    (fold_left
       (dq_body identity_mod identity_joint ones_memory ones_memory
          ones_memory ones_memory ones_memory ones_memory demo_strides
          demo_strides 1 4 4 demo_bwd_meta 2 0)
       (py_range 0 1 1) (dq_init demo_strides (mkStrides 16 16 4 1) 1 0))
    0 1 <>
    v_adj (mkStrides 16 16 4 1) 1 0 + (1 * 2 + 1) * 4 + 0 * 1.
Proof.
  destruct (X23_dq_value_pointers_use_key_stride identity_mod identity_joint
              ones_memory ones_memory ones_memory ones_memory ones_memory
              ones_memory demo_strides demo_strides (mkStrides 16 16 4 1)
              1 4 4 demo_bwd_meta 2 0 1 ltac:(unfold BN2; simpl; lia))
    as (_ & HvT & Hne).
  split; [apply HvT|]. apply Hne; [lia | discriminate].
Defined.

(** ** The DK/DV branch *)

Section DKDVPass.

Variable modification : score_mod.
Variable joint_modification : joint_mod.
Variables Q K V LSE DELTA DO : memory.
Variables sq sk sv : strides.
Variables H Q_LEN KV_LEN : nat.
Variable meta : bwd_meta.
Variables pid off_hz : nat.

#[local] Abbreviation qa := (q_adj sq H off_hz).
#[local] Abbreviation ka := (k_adj sk H off_hz).
#[local] Abbreviation va := (v_adj sv H off_hz).
#[local] Abbreviation row_n := (fun j => tile_start KV_LEN meta pid + j).
#[local] Abbreviation dkdv_step :=
  (dkdv_body modification joint_modification Q K V LSE DELTA DO sq sk sv H
     Q_LEN KV_LEN meta pid off_hz).
#[local] Abbreviation dkdv_start := (dkdv_init sq H off_hz).
#[local] Abbreviation P := (fun j m =>
  direct_prob modification meta (off_z H off_hz) (off_h H off_hz) m (row_n j)
    (row_of Q qa sq m) (row_of K ka sk (row_n j))
    (LSE (off_chz Q_LEN off_hz + m))).
#[local] Abbreviation dST := (fun j m =>
  direct_score_grad modification joint_modification meta
    (off_z H off_hz) (off_h H off_hz) m (row_n j)
    (row_of Q qa sq m) (row_of K ka sk (row_n j))
    (row_of V va sv (row_n j)) (row_of DO qa sq m)
    (LSE (off_chz Q_LEN off_hz + m)) (DELTA (off_chz Q_LEN off_hz + m))).

(** After [t] tiles the pointers stand at the query rows [t * BLOCK_M1 + i],
    and [dv] and [dk] hold the sums over the queries seen so far. *)
Lemma dkdv_loop_inv (t : nat) :
  let st := fold_left dkdv_step (seq 0 t) dkdv_start in
  curr_m st = t * BM1 meta /\
  (forall d i, qT_ptrs st d i =
     qa + (t * BM1 meta + i) * stride_m sq + d * stride_d sq) /\
  (forall i d, do_ptrs st i d =
     qa + (t * BM1 meta + i) * stride_m sq + d * stride_d sq) /\
  (forall j d, dv st j d =
     tl_sum (t * BM1 meta) (fun m => fmul (P j m) (row_of DO qa sq m d))) /\
  (forall j d, dk st j d =
     tl_sum (t * BM1 meta) (fun m => fmul (dST j m) (row_of Q qa sq m d))).
Proof.
  induction t as [|t IH].
  - simpl. repeat split; intros; unfold dkdv_init; simpl; lia.
  - rewrite seq_S, fold_left_snoc. cbn zeta in IH |- *.
    set (st := fold_left dkdv_step (seq 0 t) dkdv_start) in *.
    destruct IH as (Hm & HqT & Hdo & Hdv & Hdk).
    unfold dkdv_body. cbn [curr_m qT_ptrs do_ptrs dv dk].
    split; [lia|]. split; [intros d i; rewrite HqT; lia|].
    split; [intros i d; rewrite Hdo; lia|].
    assert (Eqk : forall j i,
      tl_sum (bwd_DMODEL meta)
        (fun e => fmul
           (dkdv_k K sk H KV_LEN meta pid off_hz j e) (Q (qT_ptrs st e i))) =
      tl_sum (bwd_DMODEL meta)
        (fun e => fmul (row_of Q qa sq (t * BM1 meta + i) e)
                    (row_of K ka sk (row_n j) e))).
    { intros j i. apply tl_sum_ext_lt. intros e _. rewrite HqT.
      apply fmul_comm. }
    assert (Edp : forall j i,
      tl_sum (bwd_DMODEL meta)
        (fun e => fmul
           (dkdv_v V sv H KV_LEN meta pid off_hz j e) (DO (do_ptrs st i e))) =
      tl_sum (bwd_DMODEL meta)
        (fun e => fmul (row_of DO qa sq (t * BM1 meta + i) e)
                    (row_of V va sv (row_n j) e))).
    { intros j i. apply tl_sum_ext_lt. intros e _.
      rewrite Hdo. apply fmul_comm. }
    replace (S t * BM1 meta) with (t * BM1 meta + BM1 meta) by lia.
    unfold tl_trans.
    split; intros j d.
    + rewrite Hdv, tl_sum_app. f_equal. unfold tl_dot.
      apply tl_sum_ext_lt. intros i _.
      rewrite Hdo, Hm. unfold row_of at 3. f_equal.
      unfold direct_prob. rewrite Eqk. reflexivity.
    + rewrite Hdk, tl_sum_app. f_equal. unfold tl_dot.
      apply tl_sum_ext_lt. intros i _.
      rewrite HqT, Hm. unfold row_of at 5. f_equal.
      unfold direct_score_grad, direct_prob. rewrite Eqk, Edp. reflexivity.
Qed.

Lemma dkdv_loop_steps :
  dkdv_loop modification joint_modification Q K V LSE DELTA DO sq sk sv H Q_LEN
    KV_LEN meta pid off_hz =
  fold_left dkdv_step (seq 0 (Q_LEN / BM1 meta)) dkdv_start.
Proof. unfold dkdv_loop. rewrite py_range_steps. reflexivity. Qed.

End DKDVPass.

Lemma dk_mask_true (index_n index_k : nat -> nat) (j d : nat) :
  dk_mask index_n index_k j d = true.
Proof.
  unfold dk_mask.
  destruct (Z.eqb_spec (Z.of_nat (index_n j)) (-1)) as [E|_]; [lia|].
  destruct (Z.eqb_spec (Z.of_nat (index_k d)) (-1)) as [E|_]; [lia|].
  reflexivity.
Qed.

(** X24: what a DK/DV program stores.  The program for key tile [pid]
    stores, for key row [n] of its tile and column [d],
    [dV[n, d]] as the sum over the queries [m] below
    [(Q_LEN // BLOCK_M1) * BLOCK_M1] of [P[m, n] * dO[m, d]] and
    [dK[n, d]] as the sum of [dS[m, n] * Q[m, d]], with the same [P] and
    [dS] as the DQ branch; [dK] goes through [store_output] at
    [(off_z, off_h, n, d)] under a mask that is true everywhere.  The tiling
    of the queries does not show, and queries of a partial last tile are
    left out. *)
Theorem X24_dkdv_pass_accumulates_over_queries (modification : score_mod)
    (joint_modification : joint_mod) (Q K V LSE DELTA DO : memory)
    (sq sk sv : strides) (H Q_LEN KV_LEN : nat) (meta : bwd_meta)
    (pid off_hz : nat) :
  (0 < BLOCK_N1 meta)%Z ->
  backward_static_asserts meta = Ok tt ->
  backward_phase (Z.of_nat KV_LEN) meta (Z.of_nat pid) = DKDV_phase ->
  let start_n1 := pid * BN1 meta in
  let qa := q_adj sq H off_hz in
  let ka := k_adj sk H off_hz in
  let va := v_adj sv H off_hz in
  exists dv dk mask,
    flex_attention_backward_kernel modification joint_modification
      Q K V LSE DELTA DO sq sk sv H Q_LEN KV_LEN meta pid off_hz =
      Ok (StoreDKDV
            (fun j d => va + (start_n1 + j) * stride_m sv + d * stride_d sv)
            dv (fun j => start_n1 + j) (fun d => d) mask dk) /\
    (forall j d, mask j d = true) /\
    (forall j d,
       dv j d =
         tl_sum (Q_LEN / BM1 meta * BM1 meta)
           (fun m =>
              fmul
                (direct_prob modification meta (off_hz / H) (off_hz mod H)
                   m (start_n1 + j)
                   (row_of Q qa sq m) (row_of K ka sk (start_n1 + j))
                   (LSE (off_hz * Q_LEN + m)))
                (row_of DO qa sq m d))) /\
    (forall j d,
       dk j d =
         tl_sum (Q_LEN / BM1 meta * BM1 meta)
           (fun m =>
              fmul
                (direct_score_grad modification joint_modification meta
                   (off_hz / H) (off_hz mod H) m (start_n1 + j)
                   (row_of Q qa sq m) (row_of K ka sk (start_n1 + j))
                   (row_of V va sv (start_n1 + j)) (row_of DO qa sq m)
                   (LSE (off_hz * Q_LEN + m)) (DELTA (off_hz * Q_LEN + m)))
                (row_of Q qa sq m d))).
Proof.
  intros HN1 Hsa Hph start_n1 qa ka va.
  destruct (tile_start_dkdv KV_LEN meta pid HN1 Hph) as [_ Ets].
  fold start_n1 in Ets.
  unfold flex_attention_backward_kernel. rewrite Hsa, Hph.
  destruct (dkdv_loop_inv modification joint_modification Q K V LSE DELTA DO
              sq sk sv H Q_LEN KV_LEN meta pid off_hz (Q_LEN / BM1 meta))
    as (_ & _ & _ & Hdv & Hdk).
  rewrite <- dkdv_loop_steps in Hdv, Hdk. rewrite Ets in Hdv, Hdk.
  eexists. eexists. eexists. split.
  { cbn. unfold dv_ptrs, offs_n1. rewrite Ets. reflexivity. }
  split; [intros j d; apply dk_mask_true|].
  split; [exact Hdv | exact Hdk].
Qed.

(** Witness of X24: the first program of the demo launch, the first of its
    two DK/DV programs. *)
Lemma X24_dkdv_pass_accumulates_over_queries_witness :
  exists dv dk mask,
    flex_attention_backward_kernel identity_mod identity_joint
      ones_memory ones_memory ones_memory ones_memory ones_memory ones_memory
      demo_strides demo_strides demo_strides 1 4 4 demo_bwd_meta 0 0 =
      Ok (StoreDKDV (fun j d => 0 + (0 + j) * 2 + d * 1) dv
            (fun j => 0 + j) (fun d => d) mask dk) /\
    (forall j d, mask j d = true) /\
    (forall j d,
       dv j d =
         tl_sum 4
           (fun m =>
              fmul
                (direct_prob identity_mod demo_bwd_meta 0 0 m (0 + j)
                   (row_of ones_memory 0 demo_strides m)
                   (row_of ones_memory 0 demo_strides (0 + j))
                   (ones_memory (0 * 4 + m)))
                (row_of ones_memory 0 demo_strides m d))) /\
    (forall j d,
       dk j d =
         tl_sum 4
           (fun m =>
              fmul
                (direct_score_grad identity_mod identity_joint demo_bwd_meta
                   0 0 m (0 + j)
                   (row_of ones_memory 0 demo_strides m)
                   (row_of ones_memory 0 demo_strides (0 + j))
                   (row_of ones_memory 0 demo_strides (0 + j))
                   (row_of ones_memory 0 demo_strides m)
                   (ones_memory (0 * 4 + m)) (ones_memory (0 * 4 + m)))
                (row_of ones_memory 0 demo_strides m d))).
Proof.
  apply (X24_dkdv_pass_accumulates_over_queries identity_mod identity_joint
           ones_memory ones_memory ones_memory ones_memory ones_memory
           ones_memory demo_strides demo_strides demo_strides 1 4 4
           demo_bwd_meta 0 0);
    reflexivity.
Defined.

(** ** The rows the backward programs store *)

Lemma NUM_KV_BLOCKS_nat (KV_LEN : nat) (meta : bwd_meta) :
  (0 < BLOCK_N1 meta)%Z ->
  NUM_KV_BLOCKS (Z.of_nat KV_LEN) meta = Z.of_nat (KV_LEN / BN1 meta).
Proof.
  intros HN1. unfold NUM_KV_BLOCKS, BN1.
  rewrite Nat2Z.inj_div, Z2Nat.id by lia. reflexivity.
Qed.

(** X25: the key rows that receive a gradient.  Every key row below
    [(KV_LEN // BLOCK_N1) * BLOCK_N1] is a row of the tile of a DK/DV
    program of the launch grid, and no DK/DV program has a key row from
    there on in its tile: when [BLOCK_N1] does not divide [KV_LEN], [dK]
    and [dV] of the last [KV_LEN % BLOCK_N1] keys are stored by nobody. *)
Theorem X25_key_rows_with_a_gradient (modification : score_mod)
    (joint_modification : joint_mod) (Q K V LSE DELTA DO : memory)
    (sq sk sv : strides) (H Q_LEN KV_LEN batch : nat) (d_model : Z)
    (meta : bwd_meta) (off_hz : nat) :
  (0 < BLOCK_N1 meta)%Z -> (0 < BLOCK_M2 meta)%Z ->
  backward_static_asserts meta = Ok tt ->
  let kernel :=
    flex_attention_backward_kernel modification joint_modification
      Q K V LSE DELTA DO sq sk sv H Q_LEN KV_LEN meta in
  let grid :=
    flex_attention_backward_grid (Z.of_nat batch) (Z.of_nat H)
      (Z.of_nat Q_LEN) d_model (Z.of_nat KV_LEN) meta in
  let covered := KV_LEN / BN1 meta * BN1 meta in
  covered <= KV_LEN /\
  (KV_LEN mod BN1 meta <> 0 -> covered < KV_LEN) /\
  (forall n, n < covered ->
     exists pid j dv_ptrs dv index_n index_k mask dk,
       (Z.of_nat pid < fst (fst grid))%Z /\ j < BN1 meta /\
       kernel pid off_hz =
         Ok (StoreDKDV dv_ptrs dv index_n index_k mask dk) /\
       index_n j = n) /\
  (forall pid j dv_ptrs dv index_n index_k mask dk,
     kernel pid off_hz = Ok (StoreDKDV dv_ptrs dv index_n index_k mask dk) ->
     j < BN1 meta -> index_n j < covered).
Proof.
  intros HN1 HM2 Hsa kernel grid covered.
  assert (HBN1 : 0 < BN1 meta) by (unfold BN1; lia).
  pose proof (Nat.div_mod_eq KV_LEN (BN1 meta)) as Ediv.
  split; [subst covered; nia|]. split; [subst covered; nia|].
  subst kernel grid. unfold flex_attention_backward_kernel. rewrite Hsa.
  cbn [mbind result_bind]. split.
  - intros n Hn.
    assert (Hpid : n / BN1 meta < KV_LEN / BN1 meta).
    { apply Nat.Div0.div_lt_upper_bound. subst covered. lia. }
    assert (Hph : backward_phase (Z.of_nat KV_LEN) meta
                    (Z.of_nat (n / BN1 meta)) = DKDV_phase).
    { unfold backward_phase. rewrite NUM_KV_BLOCKS_nat by exact HN1.
      destruct (Z.leb_spec (Z.of_nat (KV_LEN / BN1 meta))
                  (Z.of_nat (n / BN1 meta))); [lia|reflexivity]. }
    destruct (tile_start_dkdv KV_LEN meta _ HN1 Hph) as [_ Ets].
    exists (n / BN1 meta), (n mod BN1 meta). rewrite Hph.
    do 6 eexists. split; [|split; [|split; [reflexivity|]]].
    + unfold flex_attention_backward_grid. cbn [fst].
      pose proof (cdiv_bounds (Z.of_nat KV_LEN) (BLOCK_N1 meta) HN1) as [_ Hc].
      set (cq := cdiv (Z.of_nat Q_LEN) (BLOCK_M2 meta)) in *.
      set (ck := cdiv (Z.of_nat KV_LEN) (BLOCK_N1 meta)) in *.
      assert (0 <= cq)%Z by (subst cq; unfold cdiv; apply Z.div_pos; lia).
      assert (Z.of_nat (BN1 meta) = BLOCK_N1 meta) by (unfold BN1; lia).
      assert (Z.of_nat (n / BN1 meta) < ck)%Z; [|lia].
      assert (Z.of_nat (KV_LEN / BN1 meta) <= ck)%Z; [|lia].
      pose proof (Nat.Div0.mul_div_le KV_LEN (BN1 meta)). nia.
    + apply Nat.mod_upper_bound. lia.
    + unfold offs_n1. rewrite Ets.
      pose proof (Nat.div_mod_eq n (BN1 meta)). lia.
  - intros pid j dv_ptrs dv index_n index_k mask dk Hk Hj.
    destruct (backward_phase (Z.of_nat KV_LEN) meta (Z.of_nat pid)) eqn:Hph;
      [discriminate Hk|].
    destruct (tile_start_dkdv KV_LEN meta pid HN1 Hph) as [Hpid Ets].
    injection Hk as _ _ <- _ _ _. unfold offs_n1. rewrite Ets.
    subst covered. nia.
Qed.

(** Witness of X25: five keys in tiles of two; key 3 is in the tile of the
    second program, key 4 in none. *)
Lemma X25_key_rows_with_a_gradient_witness :
  4 < 5 /\
  exists pid j dv_ptrs dv index_n index_k mask dk,
    (Z.of_nat pid < 2 + 3)%Z /\ j < 2 /\
    flex_attention_backward_kernel identity_mod identity_joint
      ones_memory ones_memory ones_memory ones_memory ones_memory ones_memory
      demo_strides demo_strides demo_strides 1 4 5 demo_bwd_meta pid 0 =
      Ok (StoreDKDV dv_ptrs dv index_n index_k mask dk) /\
    index_n j = 3.
Proof.
  destruct (X25_key_rows_with_a_gradient identity_mod identity_joint
              ones_memory ones_memory ones_memory ones_memory ones_memory
              ones_memory demo_strides demo_strides demo_strides 1 4 5 1 2
              demo_bwd_meta 0 eq_refl eq_refl eq_refl)
    as (_ & Hlt & Hrows & _).
  split; [apply Hlt; discriminate|]. apply (Hrows 3). unfold BN1. simpl. lia.
Defined.

Lemma cdiv_ge_div (x y : Z) : (0 < y)%Z -> (x / y <= cdiv x y)%Z.
Proof.
  intros Hy. unfold cdiv. apply Z.div_le_mono; lia.
Qed.

Lemma cdiv_gt_div (x y : Z) :
  (0 < y)%Z -> (x mod y <> 0)%Z -> (x / y < cdiv x y)%Z.
Proof.
  intros Hy Hm. pose proof (cdiv_bounds x y Hy) as [_ Hc].
  pose proof (Z.div_mod x y ltac:(lia)) as E.
  pose proof (Z.mod_pos_bound x y Hy). nia.
Qed.

Lemma cdiv_mul_gt (x y : Z) :
  (0 < y)%Z -> (x mod y <> 0)%Z -> (x < cdiv x y * y)%Z.
Proof.
  intros Hy Hm. pose proof (cdiv_bounds x y Hy) as [_ Hc].
  destruct (Z.eq_dec x (cdiv x y * y)%Z) as [E|Hne]; [|lia].
  exfalso. apply Hm. rewrite E. apply Z.mod_mul. lia.
Qed.

(** X26: the query rows the DQ programs store.  The DQ programs of the
    launch grid are those from [KV_LEN // BLOCK_N1] on; each stores the
    [BLOCK_M2] rows of its tile without a mask, and together they store
    every row below [(grid - KV_LEN // BLOCK_N1) * BLOCK_M2].  That bound is
    never below [Q_LEN], and is above it as soon as [BLOCK_M2] does not
    divide [Q_LEN] or [BLOCK_N1] does not divide [KV_LEN]: rows past the
    end of the query are then written. *)
Theorem X26_dq_rows_stored (modification : score_mod)
    (joint_modification : joint_mod) (Q K V LSE DELTA DO : memory)
    (sq sk sv : strides) (H Q_LEN KV_LEN batch : nat) (d_model : Z)
    (meta : bwd_meta) (off_hz : nat) :
  (0 < BLOCK_N1 meta)%Z -> (0 < BLOCK_M2 meta)%Z ->
  backward_static_asserts meta = Ok tt ->
  let kernel :=
    flex_attention_backward_kernel modification joint_modification
      Q K V LSE DELTA DO sq sk sv H Q_LEN KV_LEN meta in
  let grid :=
    flex_attention_backward_grid (Z.of_nat batch) (Z.of_nat H)
      (Z.of_nat Q_LEN) d_model (Z.of_nat KV_LEN) meta in
  let stored :=
    ((fst (fst grid) - Z.of_nat (KV_LEN / BN1 meta)) * BLOCK_M2 meta)%Z in
  (Z.of_nat Q_LEN <= stored)%Z /\
  (Q_LEN mod BM2 meta <> 0 \/ KV_LEN mod BN1 meta <> 0 ->
   (Z.of_nat Q_LEN < stored)%Z) /\
  (forall m, (Z.of_nat m < stored)%Z ->
     exists pid i start_m2 dq,
       (Z.of_nat pid < fst (fst grid))%Z /\ i < BM2 meta /\
       kernel pid off_hz =
         Ok (StoreDQ
               (fun i d =>
                  q_adj sq H off_hz + (start_m2 + i) * stride_m sq
                  + d * stride_d sq)
               dq) /\
       start_m2 + i = m).
Proof.
  intros HN1 HM2 Hsa kernel grid stored.
  assert (HBM2 : 0 < BM2 meta) by (unfold BM2; lia).
  assert (EBM2 : Z.of_nat (BM2 meta) = BLOCK_M2 meta) by (unfold BM2; lia).
  assert (EBN1 : Z.of_nat (BN1 meta) = BLOCK_N1 meta) by (unfold BN1; lia).
  assert (Efl : Z.of_nat (KV_LEN / BN1 meta) =
                (Z.of_nat KV_LEN / BLOCK_N1 meta)%Z).
  { rewrite <- EBN1. apply Nat2Z.inj_div. }
  subst stored grid. unfold flex_attention_backward_grid. cbn [fst].
  pose proof (cdiv_bounds (Z.of_nat Q_LEN) (BLOCK_M2 meta) HM2) as [_ Hq].
  pose proof (cdiv_ge_div (Z.of_nat KV_LEN) (BLOCK_N1 meta) HN1) as Hk.
  rewrite Efl.
  set (cq := cdiv (Z.of_nat Q_LEN) (BLOCK_M2 meta)) in *.
  set (ck := cdiv (Z.of_nat KV_LEN) (BLOCK_N1 meta)) in *.
  set (fl := (Z.of_nat KV_LEN / BLOCK_N1 meta)%Z) in *.
  split; [nia|]. split.
  - intros [Hrem|Hrem].
    + assert ((Z.of_nat Q_LEN mod BLOCK_M2 meta)%Z <> 0%Z).
      { rewrite <- EBM2, <- Nat2Z.inj_mod. lia. }
      pose proof (cdiv_mul_gt (Z.of_nat Q_LEN) (BLOCK_M2 meta) HM2
                    ltac:(assumption)).
      fold cq in H0. nia.
    + assert ((Z.of_nat KV_LEN mod BLOCK_N1 meta)%Z <> 0%Z).
      { rewrite <- EBN1, <- Nat2Z.inj_mod. lia. }
      pose proof (cdiv_gt_div (Z.of_nat KV_LEN) (BLOCK_N1 meta) HN1
                    ltac:(assumption)).
      fold ck fl in H0. nia.
  - intros m Hm.
    set (pid := KV_LEN / BN1 meta + m / BM2 meta).
    assert (Hph : backward_phase (Z.of_nat KV_LEN) meta (Z.of_nat pid) =
                  DQ_phase).
    { unfold backward_phase. rewrite NUM_KV_BLOCKS_nat by exact HN1.
      destruct (Z.leb_spec (Z.of_nat (KV_LEN / BN1 meta)) (Z.of_nat pid));
        [reflexivity|]. subst pid. lia. }
    destruct (tile_start_dq KV_LEN meta pid HN1 HM2 Hph) as [_ Ets].
    exists pid, (m mod BM2 meta), (m / BM2 meta * BM2 meta).
    subst kernel. unfold flex_attention_backward_kernel. rewrite Hsa, Hph.
    eexists. split; [|split; [|split]].
    + subst pid. rewrite Nat2Z.inj_add, Efl.
      pose proof (Nat.Div0.mul_div_le m (BM2 meta)).
      assert (Z.of_nat (m / BM2 meta) < cq + ck - fl)%Z; [|lia].
      nia.
    + apply Nat.mod_upper_bound. lia.
    + cbn. unfold dq_ptrs, offs_m2. rewrite Ets. subst pid.
      replace (KV_LEN / BN1 meta + m / BM2 meta - KV_LEN / BN1 meta)
        with (m / BM2 meta) by lia.
      reflexivity.
    + pose proof (Nat.div_mod_eq m (BM2 meta)). lia.
Qed.

(** Witness of X26: four queries and five keys in tiles of two; the grid
    has three DQ programs, and the last one stores the rows 4 and 5. *)
Lemma X26_dq_rows_stored_witness :
  exists pid i start_m2 dq,
    (Z.of_nat pid < 2 + 3)%Z /\ i < 2 /\
    flex_attention_backward_kernel identity_mod identity_joint
      ones_memory ones_memory ones_memory ones_memory ones_memory ones_memory
      demo_strides demo_strides demo_strides 1 4 5 demo_bwd_meta pid 0 =
      Ok (StoreDQ (fun i d => 0 + (start_m2 + i) * 2 + d * 1) dq) /\
    start_m2 + i = 5.
Proof.
  destruct (X26_dq_rows_stored identity_mod identity_joint
              ones_memory ones_memory ones_memory ones_memory ones_memory
              ones_memory demo_strides demo_strides demo_strides 1 4 5 1 2
              demo_bwd_meta 0 eq_refl eq_refl eq_refl) as (_ & _ & Hrows).
  apply (Hrows 5). reflexivity.
Defined.

(** ** The forward and the backward template together *)

Local Close Scope nat_scope.
Local Open Scope R_scope.

(** The backward template offsets its pointers by both the batch and the
    head stride: the rows it reads are the rows of the slice [[b, h]]. *)
Lemma row_of_adj (mem : memory) (s : strides) (H b h r d : nat) :
  (h < H)%nat ->
  row_of mem (q_adj s H (b * H + h)) s r d = elem mem s b h r d.
Proof.
  intros Hh. destruct (program_of_row H 1 b h 0 Hh) as (Eb & Eh & _).
  unfold row_of, q_adj, elem. rewrite Eb, Eh. f_equal. lia.
Qed.

(** X27: with the flags the two lowerings emit and a score modification
    that leaves the score alone, the backward template recomputes the
    probabilities of the forward pass.  The forward template scales the
    query by [1.44269504] ([SCORE_MOD_IS_LINEAR=True]), the backward
    template the score ([SCORE_MOD_IS_LINEAR=False]).  Let [Q], [K] and [V]
    be laid out batch-major, the forward [BLOCK_N] divide [KV_LEN], the
    launch have one batch and head or the forward [BLOCK_M] divide [Q_LEN],
    and the rows of [Q] and [K] be finite.  If [LSE] holds, at the offset
    the backward program reads for row [m], a value the forward launch
    stored there, then [P[m, n] = 2^(score - LSE[m])], computed from the rows
    the backward program reads, is positive, sums to one over the keys, and
    averages a finite column of the value rows to the output of the forward
    pass. *)
Theorem X27_backward_recomputes_forward_weights (Q K V LSE : memory)
    (sq sk sv : strides) (batch H Q_LEN KV_LEN : nat) (fmeta : fwd_meta)
    (bmeta : bwd_meta) (b h m T : nat) :
  batch_major H sq sk sv ->
  (0 < BM fmeta)%nat -> (0 < BN fmeta)%nat ->
  (b < batch)%nat -> (h < H)%nat -> (m < Q_LEN)%nat ->
  (batch * H = 1)%nat \/ (exists k, Q_LEN = (k * BM fmeta)%nat) ->
  (0 < KV_LEN)%nat -> KV_LEN = (T * BN fmeta)%nat ->
  SCORE_MOD_IS_LINEAR fmeta = true -> OUTPUT_LOGSUMEXP fmeta = true ->
  bwd_SCORE_MOD_IS_LINEAR bmeta = false ->
  bwd_DMODEL bmeta = DMODEL fmeta ->
  let off_hz := (b * H + h)%nat in
  let q := row_of Q (q_adj sq H off_hz) sq m in
  let k := fun n => row_of K (k_adj sk H off_hz) sk n in
  let v := fun n => row_of V (v_adj sv H off_hz) sv n in
  let lse := LSE (off_chz Q_LEN off_hz + m)%nat in
  (forall d, (d < DMODEL fmeta)%nat -> is_fin (q d)) ->
  (forall n d, (n < KV_LEN)%nat -> (d < DMODEL fmeta)%nat ->
     is_fin (k n d)) ->
  lse_written identity_mod Q K V sq sk sv batch H Q_LEN KV_LEN fmeta
    (off_hz * Q_LEN + m)%nat lse ->
  let P := fun n =>
    direct_prob identity_mod bmeta (off_z H off_hz) (off_h H off_hz) m n
      q (k n) lse in
  (forall n, (n < KV_LEN)%nat -> exists p, P n = Fin p /\ 0 < p) /\
  rsum (fun n => fin_val (P n)) KV_LEN = 1 /\
  forall d,
    (forall n, (n < KV_LEN)%nat -> is_fin (v n d)) ->
    forward_output identity_mod Q K V sq sk sv H Q_LEN KV_LEN fmeta b h m d =
      Fin (rsum (fun n => fin_val (P n) * fin_val (v n d)) KV_LEN).
Proof.
  intros HL HBM HBN Hb Hh Hm Hone Hpos HKV Hlin Hout Hblin HD
    off_hz q k v lse HQ HK Hlse P.
  assert (Eq : forall d, q d = elem Q sq b h m d).
  { intros d. apply row_of_adj, Hh. }
  assert (Ek : forall n d, k n d = elem K sk b h n d).
  { intros n d. apply (row_of_adj K sk H b h n d Hh). }
  assert (Ev : forall n d, v n d = elem V sv b h n d).
  { intros n d. apply (row_of_adj V sv H b h n d Hh). }
  assert (Hscore : forall n, (n < KV_LEN)%nat ->
    scaled_score identity_mod (elem Q sq) (elem K sk) fmeta b h m n =
      Fin (rsum (fun d => fin_val (q d) * fin_val (k n d))
             (DMODEL fmeta) * LOG2E)).
  { intros n Hn. unfold scaled_score, change_base, identity_mod, qk_scale.
    rewrite Hlin. cbn [negb].
    rewrite (tl_sum_ext_lt _ _
               (fun d => fmul (fmul (q d) (Fin (1.0 * LOG2E))) (k n d)))
      by (intros d _; rewrite Eq, Ek; reflexivity).
    rewrite scaled_dot_fin; [apply Fin_eq; lra | exact HQ |].
    intros d Hd. apply HK; assumption. }
  assert (Hfin : forall n, (n < KV_LEN)%nat ->
    is_fin (scaled_score identity_mod (elem Q sq) (elem K sk) fmeta b h m n)).
  { intros n Hn. rewrite (Hscore n Hn). eexists. reflexivity. }
  destruct (forward_row_sums identity_mod Q K V sq sk sv H Q_LEN KV_LEN fmeta
              b h m T) as (HWpos & Else & Eout & Hp); try assumption.
  { intros n Hn. right. apply Hfin, Hn. }
  { intros _. exists O. split; [exact HBN | apply Hfin, Hpos]. }
  { exists O. split; [exact Hpos | apply Hfin, Hpos]. }
  set (s := scaled_score identity_mod (elem Q sq) (elem K sk) fmeta b h m) in *.
  set (W := rsum (weight2 s) KV_LEN) in *.
  assert (Elog : lse = Fin (log2 W)).
  { apply (lse_written_unique identity_mod Q K V sq sk sv batch H Q_LEN KV_LEN
             fmeta b h m (Fin (log2 W)) HBM Hb Hh Hm Hone Else).
    exact Hlse. }
  assert (HP : forall n, (n < KV_LEN)%nat ->
    P n = fexp2 (fsub (s n) (Fin (log2 W)))).
  { intros n Hn. subst P s. cbv beta. rewrite (Hscore n Hn), Elog.
    unfold direct_prob, bwd_change_base, identity_mod.
    rewrite Hblin, HD. cbn [negb].
    rewrite dot_fin; [|exact HQ | intros d Hd; apply HK; assumption].
    reflexivity. }
  split; [|split].
  - intros n Hn. rewrite (HP n Hn). subst s. cbv beta.
    rewrite (Hscore n Hn). simpl.
    eexists. split; [reflexivity | apply exp2_pos].
  - rewrite (rsum_ext _ (fun n => weight2 s n * / W)).
    + rewrite rsum_scale. fold W. field. lra.
    + intros n Hn. cbv beta. rewrite (HP n Hn). apply Hp, Hn.
  - intros d HV. rewrite Eout by (intros n Hn; rewrite <- Ev; apply HV, Hn).
    apply Fin_eq. symmetry.
    rewrite (rsum_ext _
               (fun n => weight2 s n * fin_val (elem V sv b h n d) * / W)).
    + rewrite rsum_scale. reflexivity.
    + intros n Hn. cbv beta. rewrite (HP n Hn), Ev.
      rewrite (Hp n Hn). ring.
Qed.

(** Witness of X27: zero inputs, 32 queries and 16 keys of dimension 16,
    forward tiles of 32 by 16, and [LSE] holding 4, the logsumexp the
    forward launch stores for 16 equal scores. *)
Lemma X27_backward_recomputes_forward_weights_witness :
  let fmeta := mkFwdMeta 32 16 16 true true true in
  let bmeta := mkBwdMeta 16 16 16 16 16 false in
  let sq := contiguous 1 32 16 in
  let sk := contiguous 1 16 16 in
  let P := fun n =>
    direct_prob identity_mod bmeta (off_z 1 0) (off_h 1 0) 5 n
      (row_of zeros (q_adj sq 1 0) sq 5) (row_of zeros (k_adj sk 1 0) sk n)
      (Fin 4) in
  rsum (fun n => fin_val (P n)) 16 = 1 /\
  forward_output identity_mod zeros zeros zeros sq sk sk 1 32 16 fmeta
    0 0 5 0 =
    Fin (rsum (fun n => fin_val (P n)
                        * fin_val (row_of zeros (v_adj sk 1 0) sk n 0%nat))
           16).
Proof.
  intros fmeta bmeta sq sk P.
  assert (Hstored :
    lse_written identity_mod zeros zeros zeros sq sk sk 1 1 32 16 fmeta
      ((0 * 1 + 0) * 32 + 5)%nat (Fin 4)).
  { apply (lse_written_owner identity_mod zeros zeros zeros sq sk sk 1 1 32 16
             fmeta 0 0 5 (Fin 4)); [unfold BM; simpl; lia | lia | lia | lia
                                   | left; reflexivity |].
    rewrite (identity_logsumexp zeros zeros zeros sq sk sk 32 16 fmeta 5 1);
      [| unfold BM; simpl; lia | unfold BN; simpl; lia | reflexivity | lia
       | reflexivity | intros; exists 0; reflexivity
       | intros; exists 0; reflexivity].
    do 2 f_equal.
    rewrite (rsum_ext _ (fun _ => 1)), rsum_const.
    - replace (INR 16) with 16 by (simpl; lra). rewrite Rmult_1_r.
      apply log2_16.
    - intros n _. rewrite rsum_zero; [|intros; unfold elem, zeros; simpl; ring].
      rewrite Rmult_0_r. apply exp2_0. }
  destruct (X27_backward_recomputes_forward_weights zeros zeros zeros
              (fun _ => Fin 4) sq sk sk 1 1 32 16 fmeta bmeta 0 0 5 1)
    as (_ & Hsum & Hout).
  - apply contiguous_batch_major.
  - unfold BM. simpl. lia.
  - unfold BN. simpl. lia.
  - lia.
  - lia.
  - lia.
  - left. reflexivity.
  - lia.
  - reflexivity.
  - reflexivity.
  - reflexivity.
  - reflexivity.
  - reflexivity.
  - intros d _. exists 0. reflexivity.
  - intros n d _ _. exists 0. reflexivity.
  - exact Hstored.
  - split; [exact Hsum|]. apply Hout. intros n _. exists 0. reflexivity.
Defined.


Local Close Scope R_scope.
Local Open Scope nat_scope.

(** A sum with a NaN term is NaN. *)
Lemma tl_sum_nan (n k : nat) (f : block1) :
  k < n -> f k = NaN -> tl_sum n f = NaN.
Proof.
  induction n as [|n IH]; intros Hk Hf; [lia|]. simpl.
  destruct (Nat.eq_dec k n) as [->|Hne].
  - rewrite Hf. apply fadd_nan_r.
  - rewrite IH by (assumption || lia). reflexivity.
Qed.

(** X28: a NaN logsumexp reaches every key.  If [LSE] holds NaN for one
    query row among those the DK/DV loop visits (what the forward template
    stores for a row whose first key tile is masked under
    [ROWS_GUARANTEED_SAFE]), then every DK/DV program stores NaN in every
    entry of its [dV] tile, whatever the other rows hold. *)
Theorem X28_nan_logsumexp_poisons_dv (modification : score_mod)
    (joint_modification : joint_mod) (Q K V LSE DELTA DO : memory)
    (sq sk sv : strides) (H Q_LEN KV_LEN : nat) (meta : bwd_meta)
    (pid off_hz m0 : nat) :
  m0 < Q_LEN / BM1 meta * BM1 meta ->
  LSE (off_hz * Q_LEN + m0) = NaN ->
  forall dv_ptrs dv index_n index_k mask dk,
    flex_attention_backward_kernel modification joint_modification
      Q K V LSE DELTA DO sq sk sv H Q_LEN KV_LEN meta pid off_hz =
      Ok (StoreDKDV dv_ptrs dv index_n index_k mask dk) ->
    forall j d, dv j d = NaN.
Proof.
  intros Hm0 Hlse dv_ptrs dv index_n index_k mask dk Hk j d.
  unfold flex_attention_backward_kernel in Hk.
  destruct (backward_static_asserts meta) as [[]|e]; [|discriminate Hk].
  cbn [mbind result_bind] in Hk.
  destruct (backward_phase (Z.of_nat KV_LEN) meta (Z.of_nat pid));
    [discriminate Hk|].
  injection Hk as _ <- _ _ _ _.
  destruct (dkdv_loop_inv modification joint_modification Q K V LSE DELTA DO
              sq sk sv H Q_LEN KV_LEN meta pid off_hz (Q_LEN / BM1 meta))
    as (_ & _ & _ & Hdv & _).
  rewrite <- dkdv_loop_steps in Hdv. rewrite Hdv.
  apply (tl_sum_nan _ m0); [exact Hm0|].
  unfold direct_prob, off_chz. rewrite Hlse.
  destruct (bwd_change_base meta _); reflexivity.
Qed.

(** Witness of X28: the first program of the demo launch, with NaN in
    [LSE]. *)
Lemma X28_nan_logsumexp_poisons_dv_witness :
  exists dv_ptrs dv index_n index_k mask dk,
    flex_attention_backward_kernel identity_mod identity_joint
      ones_memory ones_memory ones_memory (fun _ => NaN) ones_memory
      ones_memory demo_strides demo_strides demo_strides 1 4 4 demo_bwd_meta
      0 0 =
      Ok (StoreDKDV dv_ptrs dv index_n index_k mask dk) /\
    forall j d, dv j d = NaN.
Proof.
  do 6 eexists. split; [reflexivity|].
  apply (X28_nan_logsumexp_poisons_dv identity_mod identity_joint
           ones_memory ones_memory ones_memory (fun _ => NaN) ones_memory
           ones_memory demo_strides demo_strides demo_strides 1 4 4
           demo_bwd_meta 0 0 1 ltac:(unfold BM1; simpl; lia) eq_refl
           _ _ _ _ _ _ eq_refl).
Defined.
